(** * node-env: version matching, configuration resolution, manager
      detection and the TTL cache

    A shallow embedding of
      - src/utils/cacheManager.ts          (module [Cache]),
      - src/services/projectDetector.ts    (module [Matcher]),
      - the configuration reader service   (module [ConfigReader]),
      - src/services/environmentDetector.ts (modules [Detector] and
        [EnvironmentDetector]),
      - the boolean matcher and the project detection of
        src/services/projectDetector.ts (module [ProjectDetectorService]),
      - the version strings of src/managers/base.ts (module
        [BaseNodeManager]) and the current version of src/managers/nvm.ts
        (module [NVMManager]),
      - src/utils/versionCache.ts (modules [VersionCache] and
        [CacheKeyGenerator]),
      - the PATH functions of the platform utilities (module
        [PlatformUtils]), the performance analyzer (module
        [PerformanceAnalyzer]) and the manager service (module
        [NodeManagerService]),
    followed by the properties of these functions.

    JavaScript strings are modelled as [string]: one [ascii] per code
    unit, so the model covers text whose code units are below 256.
    JavaScript numbers are modelled by [Js.number]: the doubles that
    [parseInt] and subtraction produce, that is [NaN], the infinities
    and the doubles of integer value, with rounding to the nearest
    double from 2^53 on. *)

From Stdlib Require Import ZArith String Ascii List Bool Lia.
From Stdlib Require Floats.SpecFloat.
From stdpp Require Import base option gmap strings list.

Local Open Scope string_scope.
Local Open Scope Z_scope.

Set Warnings "-register-all".

(* ===================================================================== *)
(** ** JavaScript strings and numbers *)
(* ===================================================================== *)

Module Js.

(** Code unit of a character. *)
Definition code (c : ascii) : nat := nat_of_ascii c.

Definition is_digit (c : ascii) : bool :=
  Nat.leb 48 (code c) && Nat.leb (code c) 57.

Definition digit_val (c : ascii) : Z := Z.of_nat (code c) - 48.

(** White space and line terminators recognised by [String.prototype.trim]
    and skipped by [parseInt]: TAB, LF, VT, FF, CR, SP, NBSP. *)
Definition is_white (c : ascii) : bool :=
  let n := code c in
  (Nat.leb 9 n && Nat.leb n 13) || Nat.eqb n 32 || Nat.eqb n 160.

(** Line terminators, which [.] of a regular expression does not match. *)
Definition is_line_terminator (c : ascii) : bool :=
  Nat.eqb (code c) 10 || Nat.eqb (code c) 13.

Definition is_empty (s : string) : bool :=
  match s with EmptyString => true | String _ _ => false end.

(** [s.startsWith(p)] *)
Fixpoint startsWith (s p : string) {struct p} : bool :=
  match p with
  | EmptyString => true
  | String c p' =>
      match s with
      | String d s' => Ascii.eqb d c && startsWith s' p'
      | EmptyString => false
      end
  end.

(** [s.includes(p)] *)
Fixpoint includes (s p : string) : bool :=
  startsWith s p ||
  match s with
  | EmptyString => false
  | String _ rest => includes rest p
  end.

(** [s.substring(1)] *)
Definition substring1 (s : string) : string :=
  match s with EmptyString => EmptyString | String _ rest => rest end.

(** [s.replace(/^v/, "")] *)
Definition strip_v (s : string) : string :=
  match s with
  | String c rest => if Ascii.eqb c "v" then rest else s
  | EmptyString => s
  end.

(** [s.split(sep)] for a one-character separator: never the empty list. *)
Fixpoint split (sep : ascii) (s : string) : list string :=
  match s with
  | EmptyString => [EmptyString]
  | String c rest =>
      if Ascii.eqb c sep then EmptyString :: split sep rest
      else match split sep rest with
           | p :: ps => String c p :: ps
           | [] => [String c EmptyString]
           end
  end.

Fixpoint trimStart (s : string) : string :=
  match s with
  | String c rest => if is_white c then trimStart rest else s
  | EmptyString => EmptyString
  end.

Fixpoint trimEnd (s : string) : string :=
  match s with
  | EmptyString => EmptyString
  | String c rest =>
      let rest' := trimEnd rest in
      if is_white c && is_empty rest' then EmptyString else String c rest'
  end.

(** [s.trim()] *)
Definition trim (s : string) : string := trimEnd (trimStart s).

(** [a || b] on strings: the empty string is falsy. *)
Definition or_else (a b : string) : string := if is_empty a then b else a.

(** [parts[i] || d]: an index out of range gives [undefined], which is
    falsy like the empty string. *)
Definition part_or (parts : list string) (i : nat) (d : string) : string :=
  match parts !! i with
  | Some p => or_else p d
  | None => d
  end.

(** *** Numbers *)

(** The numbers the matcher computes with are results of [parseInt] and
    differences of such results: doubles whose value is an integer, the
    two infinities and [NaN].  [Num z] is the double of value [z]; the
    two zeros are both [Num 0], and no operation used here tells them
    apart. *)
Inductive number : Type :=
| NaN
| Infinity (negative : bool)
| Num (z : Z).

(** The double nearest to the integer [a >= 0], before overflow is
    looked at: the 53 leading bits are kept, and what is cut off rounds
    to nearest, a tie going to the even significand. *)
Definition round_pos (a : Z) : Z :=
  let e := Z.log2 a - 52 in
  if e <=? 0 then a
  else
    let q := a / 2 ^ e in
    let r := a mod 2 ^ e in
    let half := 2 ^ (e - 1) in
    if (half <? r) || ((r =? half) && Z.odd q) then (q + 1) * 2 ^ e else q * 2 ^ e.

(** The number value of the mathematical integer [z]: the nearest
    double, an infinity from [2^1024] on. *)
Definition to_number (z : Z) : number :=
  let m := round_pos (Z.abs z) in
  if 2 ^ 1024 <=? m then Infinity (z <? 0) else Num (Z.sgn z * m).

(** [a - b] *)
Definition sub (a b : number) : number :=
  match a, b with
  | Num x, Num y => to_number (x - y)
  | Infinity s, Num _ => Infinity s
  | Num _, Infinity s => Infinity (negb s)
  | Infinity s, Infinity t => if Bool.eqb s t then NaN else Infinity s
  | _, _ => NaN
  end.

(** [a !== b]: [NaN] is different from everything, itself included. *)
Definition strict_neq (a b : number) : bool :=
  match a, b with
  | Num x, Num y => negb (x =? y)
  | Infinity s, Infinity t => negb (Bool.eqb s t)
  | _, _ => true
  end.

(** Comparisons of a number with the literal [0]; all false on [NaN]. *)
Definition ge0 (a : number) : bool :=
  match a with Num x => 0 <=? x | Infinity s => negb s | NaN => false end.
Definition le0 (a : number) : bool :=
  match a with Num x => x <=? 0 | Infinity s => s | NaN => false end.
Definition gt0 (a : number) : bool :=
  match a with Num x => 0 <? x | Infinity s => negb s | NaN => false end.
Definition lt0 (a : number) : bool :=
  match a with Num x => x <? 0 | Infinity s => s | NaN => false end.
Definition eq0 (a : number) : bool :=
  match a with Num x => x =? 0 | Infinity _ => false | NaN => false end.

(** The longest prefix of decimal digits, read as an integer, starting
    from the accumulator [acc]; [seen] tells whether a digit was read. *)
Fixpoint digits (s : string) (acc : Z) (seen : bool) : option Z :=
  match s with
  | String c rest =>
      if is_digit c then digits rest (10 * acc + digit_val c) true
      else if seen then Some acc else None
  | EmptyString => if seen then Some acc else None
  end.

(** [parseInt(s, 10)]: leading white space is skipped, one sign is
    accepted, then the longest run of digits is read and what follows
    it is ignored; the result is the number value of that integer, and
    [NaN] when there is no digit. *)
Definition parseInt (s : string) : number :=
  match trimStart s with
  | String c rest =>
      if Ascii.eqb c "-" then
        match digits rest 0 false with Some z => to_number (- z) | None => NaN end
      else if Ascii.eqb c "+" then
        match digits rest 0 false with Some z => to_number z | None => NaN end
      else
        match digits (String c rest) 0 false with Some z => to_number z | None => NaN end
  | EmptyString => NaN
  end.

(** [a < b] on strings: lexicographic on code units. *)
Fixpoint str_lt (a b : string) : bool :=
  match a, b with
  | _, EmptyString => false
  | EmptyString, String _ _ => true
  | String x a', String y b' =>
      if Nat.ltb (code x) (code y) then true
      else if Nat.ltb (code y) (code x) then false
      else str_lt a' b'
  end.

(** [a >= b] on strings. *)
Definition str_ge (a b : string) : bool := negb (str_lt a b).

End Js.

(* ===================================================================== *)
(** ** Data model (src/types/index.ts) and JavaScript values *)
(* ===================================================================== *)

(** [NodeManagerType] *)
Inductive NodeManagerType : Type := nvm | n_manager | unknown.

(** [ManagerDetectionResult]; optional fields are [option]s. *)
Record ManagerDetectionResult : Type := mkManager {
  mdr_type : NodeManagerType;
  mdr_available : bool;
  mdr_version : option string;
  mdr_path : option string;
  mdr_error : option string
}.

(** Result of [isVersionMatch]: [{ matches, targetVersion? }]. *)
Record MatchResult : Type := mkMatch {
  matches : bool;
  targetVersion : option string
}.

(** The values the program stores in its cache and passes around untyped
    ([any]): JSON-like data, and the program's own records. *)
Inductive Value : Type :=
| VNull
| VUndefined
| VBool (b : bool)
| VNum (z : Z)
| VStr (s : string)
| VArr (items : list Value)
| VObj (fields : list (string * Value))
| VManager (m : ManagerDetectionResult)
| VProjectVersion (version source : string)
| VPackageConfig (engines volta : option Value)
| VMatch (r : MatchResult).

(** A thrown value: an [Error] instance with its message, or anything else. *)
Inductive Thrown : Type :=
| ErrorObj (message : string)
| NonError (v : Value).

(** Truthiness, as tested by [if (v)] and [a || b]. *)
Definition truthy (v : Value) : bool :=
  match v with
  | VNull | VUndefined => false
  | VBool b => b
  | VNum z => negb (z =? 0)
  | VStr s => negb (Js.is_empty s)
  | _ => true
  end.

(** [v !== null] *)
Definition not_null (v : Value) : bool :=
  match v with VNull => false | _ => true end.

Definition opt_value (o : option Value) : Value :=
  match o with Some v => v | None => VUndefined end.

Definition opt_str (o : option string) : Value :=
  match o with Some s => VStr s | None => VUndefined end.

Definition type_name (t : NodeManagerType) : string :=
  match t with nvm => "nvm" | n_manager => "n" | unknown => "unknown" end.

Fixpoint assoc (k : string) (fields : list (string * Value)) : Value :=
  match fields with
  | [] => VUndefined
  | (k', v) :: rest => if String.eqb k k' then v else assoc k rest
  end.

(** Property read [v.k]: a [TypeError] on [null] and [undefined],
    [undefined] for a property the value does not have. *)
Definition get_prop (v : Value) (k : string) : Thrown + Value :=
  match v with
  | VNull | VUndefined => inl (ErrorObj "TypeError: Cannot read properties")
  | VObj fields => inr (assoc k fields)
  | VManager m =>
      inr (if String.eqb k "type" then VStr (type_name (mdr_type m))
           else if String.eqb k "available" then VBool (mdr_available m)
           else if String.eqb k "version" then opt_str (mdr_version m)
           else if String.eqb k "path" then opt_str (mdr_path m)
           else if String.eqb k "error" then opt_str (mdr_error m)
           else VUndefined)
  | VProjectVersion version source =>
      inr (if String.eqb k "version" then VStr version
           else if String.eqb k "source" then VStr source
           else VUndefined)
  | VPackageConfig engines volta =>
      inr (if String.eqb k "engines" then opt_value engines
           else if String.eqb k "volta" then opt_value volta
           else VUndefined)
  | VMatch r =>
      inr (if String.eqb k "matches" then VBool (matches r)
           else if String.eqb k "targetVersion" then opt_str (targetVersion r)
           else VUndefined)
  | _ => inr VUndefined
  end.

(* ===================================================================== *)
(** ** The world the program runs in *)
(* ===================================================================== *)

(** What [spawn] does with a command: it throws at once, or the child
    closes with an exit code ([None] when killed by a signal), or the
    child emits an [error] event. *)
Inductive SpawnOutcome : Type :=
| SpawnThrows (e : Thrown)
| SpawnClose (code : option Z) (stdout stderr : string)
| SpawnError (message : string) (stdout stderr : string).

(** Observable actions, recorded in order; [EvCall] marks the entry of a
    method and is there only to count invocations. *)
Inductive Event : Type :=
| EvSpawn (command : string) (args : list string)
| EvExists (path : string)
| EvReadFile (path : string)
| EvCall (method : string).

(** Process-wide constants: platform information, environment variables
    and the library functions the code calls. *)
Record Env : Type := mkEnv {
  isWindows : bool;
  nvmDir : string;
  os_homedir : Thrown + string;
  env_NVM_HOME : option string;
  env_NVM_SYMLINK : option string;
  getShellCommand : Thrown + (string * list string);
  path_join : list string -> string;
  JSON_parse : string -> Thrown + Value
}.

(** [CacheEntry] of cacheManager.ts *)
Record CacheEntry : Type := mkEntry {
  value : Value;
  timestamp : Z;
  ttl : Z
}.

Record World : Type := mkWorld {
  caches : gmap string (gmap string CacheEntry);
  now : Z;
  existsSync : string -> bool;
  readFileSync : string -> Thrown + string;
  spawn : string -> list string -> SpawnOutcome * Z;
  env : Env;
  trace : list Event
}.

Definition with_caches (c : gmap string (gmap string CacheEntry)) (w : World) : World :=
  mkWorld c (now w) (existsSync w) (readFileSync w) (spawn w) (env w) (trace w).

Definition with_now (t : Z) (w : World) : World :=
  mkWorld (caches w) t (existsSync w) (readFileSync w) (spawn w) (env w) (trace w).

Definition with_event (e : Event) (w : World) : World :=
  mkWorld (caches w) (now w) (existsSync w) (readFileSync w) (spawn w) (env w)
          (trace w ++ [e]).

(** Computations: they may throw (a rejected promise) and change the world.
    One logical flow of control is modelled; [await] is sequencing. *)
Definition M (A : Type) : Type := World -> (Thrown + A) * World.

Definition ret {A} (a : A) : M A := fun w => (inr a, w).

Definition throw {A} (e : Thrown) : M A := fun w => (inl e, w).

Definition bind {A B} (m : M A) (k : A -> M B) : M B :=
  fun w =>
    match m w with
    | (inr a, w') => k a w'
    | (inl e, w') => (inl e, w')
    end.

(** [try { m } catch (e) { h e }] *)
Definition try_catch {A} (m : M A) (h : Thrown -> M A) : M A :=
  fun w =>
    match m w with
    | (inr a, w') => (inr a, w')
    | (inl e, w') => h e w'
    end.

Definition lift {A} (r : Thrown + A) : M A := fun w => (r, w).

Definition read_world {A} (f : World -> A) : M A := fun w => (inr (f w), w).

Definition log (e : Event) : M unit := fun w => (inr tt, with_event e w).

Notation "'let*' x ':=' m 'in' k" := (bind m (fun x => k))
  (at level 10, x pattern, m at level 100, k at level 200).

Notation "m ';;;' k" := (bind m (fun _ => k))
  (at level 100, k at level 200, right associativity).

(* ===================================================================== *)
(** ** src/utils/cacheManager.ts *)
(* ===================================================================== *)

Module Cache.

(** [CACHE_NAMESPACES] *)
Definition ENVIRONMENT_DETECTION : string := "env_detection".
Definition CONFIG_FILES : string := "config_files".
Definition NODE_VERSIONS : string := "node_versions".
Definition TERMINAL_PROCESSING : string := "terminal_processing".
Definition MANAGER_DETECTION : string := "manager_detection".

(** [defaultTTL = 5 * 60 * 1000] *)
Definition defaultTTL : Z := 5 * 60 * 1000.

(** [ttl || this.defaultTTL]: an omitted or zero [ttl] is falsy. *)
Definition ttl_or_default (ttl : option Z) : Z :=
  match ttl with
  | Some t => if t =? 0 then defaultTTL else t
  | None => defaultTTL
  end.

(** [set(namespace, key, value, ttl)] *)
Definition set (namespace key : string) (v : Value) (ttl : option Z) : M unit :=
  fun w =>
    let cache := default ∅ (caches w !! namespace) in
    let entry := mkEntry v (now w) (ttl_or_default ttl) in
    (inr tt, with_caches (<[namespace := <[key := entry]> cache]> (caches w)) w).

(** [get(namespace, key)]: [null] when the namespace or the key is
    absent and when the entry has expired, in which case the entry is
    deleted; the stored value otherwise. *)
Definition get (namespace key : string) : M Value :=
  fun w =>
    match caches w !! namespace with
    | None => (inr VNull, w)
    | Some cache =>
        match cache !! key with
        | None => (inr VNull, w)
        | Some entry =>
            if ttl entry <? now w - timestamp entry then
              (inr VNull,
               with_caches (<[namespace := delete key cache]> (caches w)) w)
            else (inr (value entry), w)
        end
    end.

(** [has(namespace, key)] *)
Definition has (namespace key : string) : M bool :=
  let* v := get namespace key in ret (not_null v).

(** [delete(namespace, key?)] *)
Definition delete (namespace : string) (key : option string) : M unit :=
  fun w =>
    match key with
    | Some k =>
        if Js.is_empty k then (inr tt, with_caches (base.delete namespace (caches w)) w)
        else match caches w !! namespace with
             | Some cache =>
                 (inr tt, with_caches (<[namespace := base.delete k cache]> (caches w)) w)
             | None => (inr tt, w)
             end
    | None => (inr tt, with_caches (base.delete namespace (caches w)) w)
    end.

(** [clear()] *)
Definition clear : M unit := fun w => (inr tt, with_caches ∅ w).

(** [cached(namespace, key, fn, ttl)] *)
Definition cached (namespace key : string) (fn : M Value) (ttl : option Z) : M Value :=
  let* hit := get namespace key in
  if not_null hit then ret hit
  else
    let* result := fn in
    set namespace key result ttl ;;;
    ret result.

End Cache.

(** [performanceAnalyzer.measure(name, fn)] and [measureSync(name, fn)]
    (class PerformanceAnalyzer, found in src/configs.ts): [start(name)],
    then [fn] once, then [end(name)] on both exits, handing on the result
    or the exception of [fn].  [start] and [end] touch only the
    analyzer's own timing tables, which are not part of the world. *)
Definition measure {A} (name : string) (fn : M A) : M A := fn.

(* ===================================================================== *)
(** ** src/services/projectDetector.ts: the version matcher *)
(* ===================================================================== *)

Module Matcher.
Import Js.

(** The object [{ major, minor, patch }] of [parseVersion]: the
    components are kept as strings. *)
Record ParsedVersion : Type := mkParsed {
  major : string;
  minor : string;
  patch : string
}.

(** [parseVersion(version)] *)
Definition parseVersion (version : string) : ParsedVersion :=
  let normalized := strip_v version in
  let parts := split "." normalized in
  {| major := part_or parts 0 "0";
     minor := part_or parts 1 "0";
     patch := part_or parts 2 "0" |}.

(** [compareVersions(v1, v2)] *)
Definition compareVersions (v1 v2 : ParsedVersion) : number :=
  let major1 := parseInt (major v1) in
  let major2 := parseInt (major v2) in
  if strict_neq major1 major2 then sub major1 major2
  else
    let minor1 := parseInt (minor v1) in
    let minor2 := parseInt (minor v2) in
    if strict_neq minor1 minor2 then sub minor1 minor2
    else
      let patch1 := parseInt (patch v1) in
      let patch2 := parseInt (patch v2) in
      sub patch1 patch2.

(** The alternatives of [(>=|<=|>|<|=)], in the order they are tried. *)
Definition operators : list string := [">="; "<="; ">"; "<"; "="].

(** [hasComparisonOperator(version)]: [/^(>=|<=|>|<|=)/.test(version)] *)
Definition hasComparisonOperator (version : string) : bool :=
  existsb (startsWith version) operators.

Fixpoint skip (k : nat) (s : string) : string :=
  match k, s with
  | S k', String _ rest => skip k' rest
  | _, _ => s
  end.

Fixpoint no_line_terminator (s : string) : bool :=
  match s with
  | EmptyString => true
  | String c rest => negb (is_line_terminator c) && no_line_terminator rest
  end.

(** [(.+)$]: at least one character, none of them a line terminator. *)
Definition dot_plus (s : string) : bool :=
  negb (is_empty s) && no_line_terminator s.

(** [required.match(/^(>=|<=|>|<|=)(.+)$/)]: the first alternative
    after which the rest of the string matches [(.+)$]. *)
Fixpoint operatorMatch_from (ops : list string) (required : string)
  : option (string * string) :=
  match ops with
  | [] => None
  | op :: ops' =>
      let rest := skip (String.length op) required in
      if startsWith required op && dot_plus rest then Some (op, rest)
      else operatorMatch_from ops' required
  end.

Definition operatorMatch (required : string) : option (string * string) :=
  operatorMatch_from operators required.

(** [compareVersionWithOperator(current, required)] *)
Definition compareVersionWithOperator (current required : string) : bool :=
  match operatorMatch required with
  | None => false
  | Some (operator, targetVersion) =>
      let currentParsed := parseVersion current in
      let targetParsed := parseVersion targetVersion in
      let comparison := compareVersions currentParsed targetParsed in
      if String.eqb operator ">=" then ge0 comparison
      else if String.eqb operator "<=" then le0 comparison
      else if String.eqb operator ">" then gt0 comparison
      else if String.eqb operator "<" then lt0 comparison
      else if String.eqb operator "=" then eq0 comparison
      else false
  end.

(** [matchSemverRange(current, range)] *)
Definition matchSemverRange (current range : string) : bool :=
  let currentParsed := parseVersion current in
  if startsWith range "^" then
    let targetVersion := substring1 range in
    let targetParsed := parseVersion targetVersion in
    String.eqb (major currentParsed) (major targetParsed)
    && ge0 (compareVersions currentParsed targetParsed)
  else if startsWith range "~" then
    let targetVersion := substring1 range in
    let targetParsed := parseVersion targetVersion in
    String.eqb (major currentParsed) (major targetParsed)
    && String.eqb (minor currentParsed) (minor targetParsed)
    && str_ge (patch currentParsed) (patch targetParsed)
  else false.

(** [isPartialVersionMatch(fullVersion, partialVersion)] *)
Definition isPartialVersionMatch (fullVersion partialVersion : string) : bool :=
  let fullParts := parseVersion fullVersion in
  let partialParts := split "." partialVersion in
  let normalizedPartial :=
    {| major := part_or partialParts 0 "0";
       minor := part_or partialParts 1 "0";
       patch := part_or partialParts 2 "0" |} in
  if Nat.eqb (length partialParts) 1 then
    String.eqb (major fullParts) (major normalizedPartial)
  else if Nat.eqb (length partialParts) 2 then
    String.eqb (major fullParts) (major normalizedPartial)
    && String.eqb (minor fullParts) (minor normalizedPartial)
  else
    String.eqb (major fullParts) (major normalizedPartial)
    && String.eqb (minor fullParts) (minor normalizedPartial)
    && String.eqb (patch fullParts) (patch normalizedPartial).

(** The producer inside [isVersionMatch(current, required)]: the
    comparison itself, before it is cached. *)
Definition matchVersion (current required : string) : MatchResult :=
  let normalizeCurrent := strip_v current in
  let normalizeRequired := strip_v required in
  if String.eqb normalizeCurrent normalizeRequired then
    {| matches := true; targetVersion := Some normalizeCurrent |}
  else if hasComparisonOperator normalizeRequired then
    let matches := compareVersionWithOperator normalizeCurrent normalizeRequired in
    {| matches := matches;
       targetVersion := if matches then Some normalizeCurrent else None |}
  else if startsWith normalizeRequired "^" || startsWith normalizeRequired "~" then
    let matches := matchSemverRange normalizeCurrent normalizeRequired in
    {| matches := matches;
       targetVersion := if matches then Some normalizeCurrent else None |}
  else
    let requiredParts := split "." normalizeRequired in
    if Nat.ltb (length requiredParts) 3 then
      let matches := isPartialVersionMatch normalizeCurrent normalizeRequired in
      {| matches := matches; targetVersion := Some normalizeRequired |}
    else
      {| matches := false; targetVersion := None |}.

(** [isVersionMatch(current, required)]: [matchVersion] behind the
    cache, for two minutes, under a key made of both strings. *)
Definition isVersionMatch (current required : string) : M Value :=
  let cacheKey := "version_match_" +:+ current +:+ "_" +:+ required in
  Cache.cached Cache.NODE_VERSIONS cacheKey
    (ret (VMatch (matchVersion current required)))
    (Some (2 * 60 * 1000)).

End Matcher.

(* ===================================================================== *)
(** ** The configuration reader service (ConfigReaderService) *)
(* ===================================================================== *)

(** [fs.existsSync(path)] *)
Definition fs_existsSync (path : string) : M bool :=
  log (EvExists path) ;;; read_world (fun w => existsSync w path).

(** [fs.readFileSync(path, "utf8")] *)
Definition fs_readFileSync (path : string) : M string :=
  log (EvReadFile path) ;;; fun w => (readFileSync w path, w).

(** [path.join(...parts)] *)
Definition join (parts : list string) : M string :=
  read_world (fun w => path_join (env w) parts).

Module ConfigReader.
Import Js.

(** The maximal run of digits at the head of [s], and what follows it. *)
Fixpoint take_digits (s : string) : string * string :=
  match s with
  | String c rest =>
      if is_digit c then
        let (ds, tl) := take_digits rest in (String c ds, tl)
      else (EmptyString, s)
  | EmptyString => (EmptyString, EmptyString)
  end.

(** A match of [[0-9]+\.[0-9]+\.[0-9]+] that starts at the head of [s]. *)
Definition triple_at (s : string) : option string :=
  let (a, r1) := take_digits s in
  if is_empty a then None
  else match r1 with
       | String c1 r1' =>
           if Ascii.eqb c1 "." then
             let (b, r2) := take_digits r1' in
             if is_empty b then None
             else match r2 with
                  | String c2 r2' =>
                      if Ascii.eqb c2 "." then
                        let (c, _) := take_digits r2' in
                        if is_empty c then None
                        else Some (a +:+ "." +:+ b +:+ "." +:+ c)
                      else None
                  | EmptyString => None
                  end
           else None
       | EmptyString => None
       end.

(** [s.match(/([0-9]+\.[0-9]+\.[0-9]+)/)]: the leftmost match. *)
Fixpoint find_triple (s : string) : option string :=
  match triple_at s with
  | Some t => Some t
  | None =>
      match s with
      | String _ rest => find_triple rest
      | EmptyString => None
      end
  end.

(** [normalizeVersion(version)] *)
Definition normalizeVersion (version : string) : string :=
  let normalized := strip_v version in
  if includes normalized ">=" || includes normalized "^" || includes normalized "~" then
    match find_triple normalized with
    | Some m => m
    | None => normalized
    end
  else normalized.

(** [normalizeVersion] applied to an untyped value: a value that is not
    a string has no [replace] method, and the call throws. *)
Definition normalizeVersion_of (v : Value) : M string :=
  match v with
  | VStr s => ret (normalizeVersion s)
  | _ => throw (ErrorObj "TypeError: version.replace is not a function")
  end.

(** [readVersionFile(filePath, fileName)] *)
Definition readVersionFile (filePath fileName : string) : M Value :=
  let cacheKey := "file_" +:+ filePath +:+ "_" +:+ fileName in
  Cache.cached Cache.CONFIG_FILES cacheKey
    (measure ("configReader.readVersionFile_" +:+ fileName)
       (try_catch
          (let* present := fs_existsSync filePath in
           if negb present then ret VNull
           else
             let* raw := fs_readFileSync filePath in
             let content := trim raw in
             if negb (is_empty content) then ret (VStr content)
             else ret VNull)
          (fun _ => ret VNull)))
    (Some (60 * 1000)).

(** [readNvmrc(workspaceRoot)] *)
Definition readNvmrc (workspaceRoot : string) : M Value :=
  let* nvmrcPath := join [workspaceRoot; ".nvmrc"] in
  readVersionFile nvmrcPath ".nvmrc".

(** [readNodeVersion(workspaceRoot)] *)
Definition readNodeVersion (workspaceRoot : string) : M Value :=
  let* nodeVersionPath := join [workspaceRoot; ".node-version"] in
  readVersionFile nodeVersionPath ".node-version".

(** The [for] loop of [readToolVersions] over the lines of the file. *)
Fixpoint first_nodejs_line (lines : list string) : Value :=
  match lines with
  | [] => VNull
  | line :: rest =>
      let trimmedLine := trim line in
      if startsWith trimmedLine "nodejs " then
        VStr (trim (Matcher.skip 7 trimmedLine))
      else first_nodejs_line rest
  end.

(** [readToolVersions(workspaceRoot)] *)
Definition readToolVersions (workspaceRoot : string) : M Value :=
  let* toolVersionsPath := join [workspaceRoot; ".tool-versions"] in
  try_catch
    (let* present := fs_existsSync toolVersionsPath in
     if negb present then ret VNull
     else
       let* content := fs_readFileSync toolVersionsPath in
       let lines := split "010" content in
       ret (first_nodejs_line lines))
    (fun _ => ret VNull).

(** [obj.k?.node] *)
Definition optional_node (obj : Value) (k : string) : Thrown + Value :=
  match get_prop obj k with
  | inl e => inl e
  | inr VNull | inr VUndefined => inr VUndefined
  | inr o => get_prop o "node"
  end.

(** [readPackageJson(workspaceRoot)] *)
Definition readPackageJson (workspaceRoot : string) : M Value :=
  let* packageJsonPath := join [workspaceRoot; "package.json"] in
  let cacheKey := "package_json_" +:+ packageJsonPath in
  Cache.cached Cache.CONFIG_FILES cacheKey
    (try_catch
       (let* present := fs_existsSync packageJsonPath in
        if negb present then ret VNull
        else
          let* content := fs_readFileSync packageJsonPath in
          let* packageJson := (fun w => (JSON_parse (env w) content, w)) in
          let* enginesNode := lift (optional_node packageJson "engines") in
          let engines := if truthy enginesNode then Some enginesNode else None in
          let* voltaNode := lift (optional_node packageJson "volta") in
          let volta := if truthy voltaNode then Some voltaNode else None in
          match engines, volta with
          | None, None => ret VNull
          | _, _ => ret (VPackageConfig engines volta)
          end)
       (fun _ => ret VNull))
    (Some (30 * 1000)).

(** The priority list [checks] of [getProjectNodeVersion]. *)
Definition checks (workspaceRoot : string) : list (M Value * string) :=
  [ (measure "configReader.readNvmrc" (readNvmrc workspaceRoot), ".nvmrc");
    (measure "configReader.readNodeVersion" (readNodeVersion workspaceRoot),
     ".node-version");
    (measure "configReader.readToolVersions" (readToolVersions workspaceRoot),
     ".tool-versions") ].

(** [for (const check of checks) { ... }], followed by [otherwise]. *)
Fixpoint run_checks (cs : list (M Value * string)) (otherwise : M Value) : M Value :=
  match cs with
  | [] => otherwise
  | (method, source) :: rest =>
      let* version := method in
      if truthy version then
        let* normalized := normalizeVersion_of version in
        ret (VProjectVersion normalized source)
      else run_checks rest otherwise
  end.

(** The part of [getProjectNodeVersion] that looks into package.json. *)
Definition check_package (workspaceRoot : string) : M Value :=
  let* packageConfig :=
    measure "configReader.readPackageJson" (readPackageJson workspaceRoot) in
  if truthy packageConfig then
    let* volta := lift (get_prop packageConfig "volta") in
    if truthy volta then
      let* normalized := normalizeVersion_of volta in
      ret (VProjectVersion normalized "package.json (volta.node)")
    else
      let* engines := lift (get_prop packageConfig "engines") in
      if truthy engines then
        let* normalized := normalizeVersion_of engines in
        ret (VProjectVersion normalized "package.json (engines.node)")
      else ret VNull
  else ret VNull.

(** The producer inside [getProjectNodeVersion]: the resolution itself. *)
Definition resolveProjectNodeVersion (workspaceRoot : string) : M Value :=
  run_checks (checks workspaceRoot) (check_package workspaceRoot).

(** [getProjectNodeVersion(workspaceRoot)] *)
Definition getProjectNodeVersion (workspaceRoot : string) : M Value :=
  let cacheKey := "project_version_" +:+ workspaceRoot in
  Cache.cached Cache.CONFIG_FILES cacheKey
    (measure "configReader.getProjectNodeVersion"
       (resolveProjectNodeVersion workspaceRoot))
    (Some (2 * 60 * 1000)).

(** [hasConfigFiles(workspaceRoot)] *)
Definition hasConfigFiles (workspaceRoot : string) : M bool :=
  let configFiles := [".nvmrc"; ".node-version"; ".tool-versions"; "package.json"] in
  (fix some (files : list string) : M bool :=
     match files with
     | [] => ret false
     | file :: rest =>
         let* filePath := join [workspaceRoot; file] in
         let* present := fs_existsSync filePath in
         if present then ret true else some rest
     end) configFiles.

End ConfigReader.

(* ===================================================================== *)
(** ** src/services/environmentDetector.ts *)
(* ===================================================================== *)

(** [CommandResult] *)
Record CommandResult : Type := mkCommandResult {
  success : bool;
  stdout : string;
  stderr : string;
  exitCode : Z
}.

Module Detector.
Import Js.

(** [cacheExpiry = 5 * 60 * 1000] *)
Definition cacheExpiry : Z := 5 * 60 * 1000.

(** The promise built around [spawn(command, args, ...)] by
    [executeCommand] and [executeShellCommand]: a throw of [spawn]
    rejects it, the [close] and [error] events resolve it. *)
Definition spawn_promise (command : string) (args : list string) : M CommandResult :=
  fun w =>
    let w1 := with_event (EvSpawn command args) w in
    let (outcome, elapsed) := spawn w command args in
    let w2 := with_now (now w1 + elapsed) w1 in
    match outcome with
    | SpawnThrows e => (inl e, w2)
    | SpawnClose code out err =>
        let code0 := default 0 code in
        (inr {| success := code0 =? 0; stdout := trim out; stderr := trim err;
                exitCode := code0 |}, w2)
    | SpawnError message out err =>
        (inr {| success := false; stdout := out;
                stderr := err +:+ String "010" "" +:+ message; exitCode := -1 |}, w2)
    end.

(** [executeCommand(command, args)] *)
Definition executeCommand (command : string) (args : list string) : M CommandResult :=
  spawn_promise command args.

(** [executeShellCommand(command)] *)
Definition executeShellCommand (command : string) : M CommandResult :=
  let* shellConfig := (fun w => (getShellCommand (env w), w)) in
  spawn_promise (fst shellConfig) (snd shellConfig ++ [command]).

(** Assignments to the fields of the object [result]. *)
Definition set_available (b : bool) (r : ManagerDetectionResult) :=
  mkManager (mdr_type r) b (mdr_version r) (mdr_path r) (mdr_error r).
Definition set_version (s : string) (r : ManagerDetectionResult) :=
  mkManager (mdr_type r) (mdr_available r) (Some s) (mdr_path r) (mdr_error r).
Definition set_path (s : string) (r : ManagerDetectionResult) :=
  mkManager (mdr_type r) (mdr_available r) (mdr_version r) (Some s) (mdr_error r).
Definition set_error (s : string) (r : ManagerDetectionResult) :=
  mkManager (mdr_type r) (mdr_available r) (mdr_version r) (mdr_path r) (Some s).

(** [const result = { type: t, available: false }] *)
Definition initial_result (t : NodeManagerType) : ManagerDetectionResult :=
  mkManager t false None None None.

(** A [try] block that assigns to [result]: it ends normally ([None]) or
    by a throw ([Some e]), and in both cases leaves the object as the
    assignments made it. *)
Definition Block : Type := World -> (option Thrown * ManagerDetectionResult) * World.

(** [error instanceof Error ? error.message : "Unknown error"] *)
Definition error_message (e : Thrown) : string :=
  match e with
  | ErrorObj message => message
  | NonError _ => "Unknown error"
  end.

(** [try { block } catch (error) { result.error = ... } return result] *)
Definition catch_into_result (block : Block) : M Value :=
  fun w =>
    match block w with
    | ((None, result), w') => (inr (VManager result), w')
    | ((Some e, result), w') => (inr (VManager (set_error (error_message e) result)), w')
    end.

(** [env.NVM_HOME || env.NVM_SYMLINK || path.join(os.homedir(), "AppData",
    "Roaming", "nvm") || nvmDir], evaluated from left to right. *)
Definition windows_nvm_path (e : Env) : Thrown + string :=
  let home := default "" (env_NVM_HOME e) in
  if negb (is_empty home) then inr home
  else
    let symlink := default "" (env_NVM_SYMLINK e) in
    if negb (is_empty symlink) then inr symlink
    else match os_homedir e with
         | inl err => inl err
         | inr dir =>
             inr (or_else (path_join e [dir; "AppData"; "Roaming"; "nvm"]) (nvmDir e))
         end.

(** The [try] block of [detectNVM]. *)
Definition detectNVM_block (result : ManagerDetectionResult) : Block :=
  fun w =>
    let dir := nvmDir (env w) in
    if isWindows (env w) then
      match measure "environmentDetector.executeNVMCommand"
              (executeCommand "nvm" ["version"]) w with
      | (inl e, w1) => ((Some e, result), w1)
      | (inr nvmCommand, w1) =>
          if success nvmCommand then
            let result1 := set_version (trim (stdout nvmCommand)) (set_available true result) in
            match windows_nvm_path (env w1) with
            | inl e => ((Some e, result1), w1)
            | inr p => ((None, set_path p result1), w1)
            end
          else
            ((None, set_error "nvm-windows not found or not properly configured" result), w1)
      end
    else
      match measure "environmentDetector.executeNVMCommand"
              (executeCommand "nvm" ["--version"]) w with
      | (inl e, w1) => ((Some e, result), w1)
      | (inr nvmCommand, w1) =>
          if success nvmCommand then
            ((None, set_path dir
                      (set_version (trim (stdout nvmCommand)) (set_available true result))), w1)
          else
            match measure "environmentDetector.executeNVMSourceCommand"
                    (executeShellCommand ("source " +:+ dir +:+ "/nvm.sh && nvm --version")) w1 with
            | (inl e, w2) => ((Some e, result), w2)
            | (inr sourceResult, w2) =>
                if success sourceResult then
                  ((None, set_path dir
                            (set_version (trim (stdout sourceResult))
                               (set_available true result))), w2)
                else
                  ((None, set_error "NVM not found or not properly configured" result), w2)
            end
      end.

(** [detectNVM()]; the first line records the invocation. *)
Definition detectNVM : M Value :=
  log (EvCall "detectNVM") ;;;
  let* windows := read_world (fun w => isWindows (env w)) in
  let platformType := if windows then "windows" else "unix" in
  Cache.cached Cache.MANAGER_DETECTION ("nvm_" +:+ platformType)
    (catch_into_result (detectNVM_block (initial_result nvm)))
    (Some cacheExpiry).

(** The [try] block of [detectN]. *)
Definition detectN_block (result : ManagerDetectionResult) : Block :=
  fun w =>
    match measure "environmentDetector.executeNCommand"
            (executeCommand "n" ["--version"]) w with
    | (inl e, w1) => ((Some e, result), w1)
    | (inr nCommand, w1) =>
        if success nCommand then
          let result1 := set_version (trim (stdout nCommand)) (set_available true result) in
          let whichCommand := if isWindows (env w1) then "where" else "which" in
          match measure "environmentDetector.executeWhichCommand"
                  (executeCommand whichCommand ["n"]) w1 with
          | (inl e, w2) => ((Some e, result1), w2)
          | (inr whichResult, w2) =>
              if success whichResult then
                ((None, set_path (trim (stdout whichResult)) result1), w2)
              else ((None, result1), w2)
          end
        else ((None, set_error "N version manager not found" result), w1)
    end.

(** [detectN()]; the first line records the invocation. *)
Definition detectN : M Value :=
  log (EvCall "detectN") ;;;
  Cache.cached Cache.MANAGER_DETECTION "n_manager"
    (measure "environmentDetector.detectN"
       (catch_into_result (detectN_block (initial_result n_manager))))
    (Some cacheExpiry).

(** [detectAllManagers()] *)
Definition detectAllManagers : M Value :=
  let cacheKey := "all_managers" in
  let* hit := Cache.get Cache.ENVIRONMENT_DETECTION cacheKey in
  if truthy hit then ret hit
  else
    let* nvmResult := measure "environmentDetector.detectNVM" detectNVM in
    let* nvmAvailable := lift (get_prop nvmResult "available") in
    if truthy nvmAvailable then
      Cache.set Cache.ENVIRONMENT_DETECTION cacheKey (VArr [nvmResult]) (Some cacheExpiry) ;;;
      ret (VArr [nvmResult])
    else
      let* nResult := measure "environmentDetector.detectN" detectN in
      Cache.set Cache.ENVIRONMENT_DETECTION cacheKey (VArr [nvmResult; nResult])
        (Some cacheExpiry) ;;;
      ret (VArr [nvmResult; nResult]).

End Detector.

(** The queries of EnvironmentDetector built on [detectAllManagers]. *)
Module EnvironmentDetector.

(** The receiver of [managers.filter(...)] and [managers.find(...)]: a
    value that is not an array has no such method, and the call throws. *)
Definition as_array (method : string) (v : Value) : M (list Value) :=
  match v with
  | VArr items => ret items
  | _ => throw (ErrorObj ("TypeError: managers." +:+ method +:+ " is not a function"))
  end.

(** [items.filter((m) => m.available)] *)
Fixpoint filter_available (items : list Value) : M (list Value) :=
  match items with
  | [] => ret []
  | m :: rest =>
      let* available := lift (get_prop m "available") in
      let* kept := filter_available rest in
      ret (if truthy available then m :: kept else kept)
  end.

(** [m.type === t] *)
Definition type_is (t : string) (m : Value) : Thrown + bool :=
  match get_prop m "type" with
  | inl e => inl e
  | inr (VStr s) => inr (String.eqb s t)
  | inr _ => inr false
  end.

(** [items.find((m) => m.type === t)]: [undefined] when none is found. *)
Fixpoint find_type (t : string) (items : list Value) : M Value :=
  match items with
  | [] => ret VUndefined
  | m :: rest =>
      let* found := lift (type_is t m) in
      if found then ret m else find_type t rest
  end.

(** [getPreferredManager()] *)
Definition getPreferredManager : M Value :=
  let* managers := Detector.detectAllManagers in
  let* items := as_array "filter" managers in
  let* availableManagers := filter_available items in
  match availableManagers with
  | [] => ret VNull
  | [only] => ret only
  | first :: _ =>
      let* nvmManager := find_type "nvm" availableManagers in
      if truthy nvmManager then ret nvmManager else ret first
  end.

(** [manager?.available || false] *)
Definition available_or_false (manager : Value) : M Value :=
  let* available :=
    match manager with
    | VNull | VUndefined => ret VUndefined
    | _ => lift (get_prop manager "available")
    end in
  ret (if truthy available then available else VBool false).

(** [isManagerAvailable(type)] *)
Definition isManagerAvailable (type : NodeManagerType) : M Value :=
  match type with
  | unknown => ret (VBool false)
  | _ =>
      let* managers := Detector.detectAllManagers in
      let* items := as_array "find" managers in
      let* manager := find_type (type_name type) items in
      available_or_false manager
  end.

(** [clearCache()] *)
Definition clearCache : M unit :=
  Cache.delete Cache.ENVIRONMENT_DETECTION None ;;;
  Cache.delete Cache.MANAGER_DETECTION None.

End EnvironmentDetector.

(* ===================================================================== *)
(** ** src/utils/cacheManager.ts: the sweep of expired entries *)
(* ===================================================================== *)

Module CacheMaintenance.

(** [now - entry.timestamp > entry.ttl] *)
Definition expired (t : Z) (entry : CacheEntry) : bool :=
  ttl entry <? t - timestamp entry.

(** The inner loop of [cleanup()] on one namespace: every key whose
    entry has expired at time [t] is deleted. *)
Definition sweep (t : Z) (cache : gmap string CacheEntry) : gmap string CacheEntry :=
  filter (fun kv => expired t kv.2 = false) cache.

(** [cleanup()]: each namespace is swept, and a namespace that is empty
    afterwards is deleted. *)
Definition cleanup : M unit :=
  fun w =>
    let t := now w in
    (inr tt,
     with_caches
       (omap (fun cache =>
                let kept := sweep t cache in
                if Nat.eqb (size kept) 0 then None else Some kept)
             (caches w))
       w).

End CacheMaintenance.

(* ===================================================================== *)
(** ** src/services/projectDetector.ts: ProjectDetectorService *)
(* ===================================================================== *)

Module ProjectDetectorService.
Import Js.

(** [s.split(".")[0]]; [split] never returns the empty list. *)
Definition first_part (s : string) : string := hd "" (split "." s).

(** [isVersionMatch(current, required)], the boolean matcher that
    [detectProjectVersion] uses. *)
Definition isVersionMatch (current required : string) : bool :=
  let normalizeCurrent := strip_v current in
  let normalizeRequired := strip_v required in
  if String.eqb normalizeCurrent normalizeRequired then true
  else
    let currentMajor := first_part normalizeCurrent in
    let requiredMajor := first_part normalizeRequired in
    if negb (includes normalizeRequired ".") && String.eqb currentMajor requiredMajor
    then true
    else if String.eqb required "lts" || String.eqb required "stable"
            || String.eqb required "latest"
    then false
    else false.

(** The object that [detectProjectVersion] returns; the optional
    fields are [option]s. *)
Record ProjectVersionInfo : Type := mkProjectVersionInfo {
  hasConfig : bool;
  requiredVersion : option Value;
  source : option Value;
  currentVersion : option Value;
  needsSwitch : option bool
}.

Definition noConfig : ProjectVersionInfo :=
  mkProjectVersionInfo false None None None None.

(** [this.isVersionMatch(current, required)] on untyped values: a value
    that is not a string has no [replace] method, and the call throws. *)
Definition isVersionMatch_of (current required : Value) : M bool :=
  match current with
  | VStr c =>
      match required with
      | VStr r => ret (isVersionMatch c r)
      | _ => throw (ErrorObj "TypeError: required.replace is not a function")
      end
  | _ => throw (ErrorObj "TypeError: current.replace is not a function")
  end.

(** [detectProjectVersion()], given the paths of [workspace.workspaceFolders]
    and the method [getCurrentNodeVersion], which asks the active
    manager. *)
Definition detectProjectVersion (workspaceFolders : option (list string))
    (getCurrentNodeVersion : M Value) : M ProjectVersionInfo :=
  match workspaceFolders with
  | None | Some [] => ret noConfig
  | Some (workspaceRoot :: _) =>
      let* present := ConfigReader.hasConfigFiles workspaceRoot in
      if negb present then ret noConfig
      else
        let* projectConfig := ConfigReader.getProjectNodeVersion workspaceRoot in
        if negb (truthy projectConfig) then ret noConfig
        else
          let* version := lift (get_prop projectConfig "version") in
          let* source := lift (get_prop projectConfig "source") in
          let* currentVersion := getCurrentNodeVersion in
          if negb (truthy currentVersion) then
            ret (mkProjectVersionInfo true (Some version) (Some source) None None)
          else
            let* matched := isVersionMatch_of currentVersion version in
            ret (mkProjectVersionInfo true (Some version) (Some source)
                   (Some currentVersion) (Some (negb matched)))
  end.

End ProjectDetectorService.

(* ===================================================================== *)
(** ** src/managers/base.ts: version strings *)
(* ===================================================================== *)

Module BaseNodeManager.
Import Js ConfigReader.

(** A match of [v?(\d+\.\d+\.\d+)] that starts at the head of [s],
    as its captured group: the optional "v" is taken if that leads to a
    match, and left out otherwise. *)
Definition v_triple_at (s : string) : option string :=
  match s with
  | String c rest =>
      if Ascii.eqb c "v" then
        match triple_at rest with
        | Some t => Some t
        | None => triple_at s
        end
      else triple_at s
  | EmptyString => triple_at s
  end.

(** [s.match(/v?(\d+\.\d+\.\d+)/)]: the group of the leftmost match. *)
Fixpoint find_v_triple (s : string) : option string :=
  match v_triple_at s with
  | Some t => Some t
  | None =>
      match s with
      | String _ rest => find_v_triple rest
      | EmptyString => None
      end
  end.

(** [parseVersion(versionStr)] *)
Definition parseVersion (versionStr : string) : string :=
  match find_v_triple versionStr with
  | Some t => t
  | None => trim versionStr
  end.

(** [/^\d+\.\d+\.\d+$/.test(s)] *)
Definition whole_triple (s : string) : bool :=
  match triple_at s with
  | Some t => String.eqb t s
  | None => false
  end.

(** [isValidVersion(version)]: [/^v?\d+\.\d+\.\d+$/.test(version)] *)
Definition isValidVersion (version : string) : bool :=
  match version with
  | String c rest =>
      if Ascii.eqb c "v" then whole_triple rest || whole_triple version
      else whole_triple version
  | EmptyString => whole_triple version
  end.

End BaseNodeManager.

(* ===================================================================== *)
(** ** src/utils/versionCache.ts *)
(* ===================================================================== *)

Module CacheKeyGenerator.

(** [currentVersion(manager, platform)] *)
Definition currentVersion (manager platform : string) : string :=
  manager +:+ "-" +:+ platform +:+ "-current-version".

(** [installedVersions(manager, platform)] *)
Definition installedVersions (manager platform : string) : string :=
  manager +:+ "-" +:+ platform +:+ "-installed-versions".

(** [availableVersions(manager, platform)] *)
Definition availableVersions (manager platform : string) : string :=
  manager +:+ "-" +:+ platform +:+ "-available-versions".

End CacheKeyGenerator.

Module VersionCache.
Import Js.

Definition DEFAULT_TTL : Z := 30000.
Definition CURRENT_VERSION_TTL : Z := 5000.
Definition INSTALLED_VERSIONS_TTL : Z := 60000.
Definition AVAILABLE_VERSIONS_TTL : Z := 300000.

(** The private map [cache] of the singleton, with the clock
    [Date.now()] reads. *)
Record Store : Type := mkStore {
  entries : gmap string CacheEntry;
  clock : Z
}.

(** [getTTLForKey(key)] *)
Definition getTTLForKey (key : string) : Z :=
  if includes key "current-version" then CURRENT_VERSION_TTL
  else if includes key "installed-versions" then INSTALLED_VERSIONS_TTL
  else if includes key "available-versions" then AVAILABLE_VERSIONS_TTL
  else DEFAULT_TTL.

(** [get(key)] *)
Definition get (key : string) (s : Store) : Value * Store :=
  match entries s !! key with
  | None => (VNull, s)
  | Some entry =>
      if ttl entry <? clock s - timestamp entry then
        (VNull, mkStore (base.delete key (entries s)) (clock s))
      else (value entry, s)
  end.

(** [set(key, value, ttl)]: an omitted or zero [ttl] is falsy. *)
Definition set (key : string) (v : Value) (ttl : option Z) (s : Store) : Store :=
  let actualTtl :=
    match ttl with
    | Some t => if t =? 0 then getTTLForKey key else t
    | None => getTTLForKey key
    end in
  mkStore (<[key := mkEntry v (clock s) actualTtl]> (entries s)) (clock s).

(** [invalidateVersionCaches(manager)]: the keys that include the name of
    the manager and one of the two markers are deleted. *)
Definition invalidated (manager key : string) : bool :=
  includes key manager
  && (includes key "current-version" || includes key "installed-versions").

Definition invalidateVersionCaches (manager : string) (s : Store) : Store :=
  mkStore (filter (fun kv => invalidated manager kv.1 = false) (entries s)) (clock s).

End VersionCache.

(* ===================================================================== *)
(** ** The platform utilities (PlatformUtils): the PATH variable *)
(* ===================================================================== *)

Module PlatformUtils.
Import Js.

Section Platform.

(** [this.isWindows()] and [process.env.PATH] *)
Variable windows : bool.
Variable env_PATH : option string.

(** [getPathSeparator()] *)
Definition getPathSeparator : ascii := if windows then ";"%char else ":"%char.

(** [splitPath(pathString)] *)
Definition splitPath (pathString : string) : list string :=
  List.filter (fun p => negb (is_empty (trim p))) (split getPathSeparator pathString).

(** [joinPathEnv(paths)] *)
Definition joinPathEnv (paths : list string) : string :=
  String.concat (String getPathSeparator EmptyString) paths.

(** [addToPath(newPath, existingPath)] *)
Definition addToPath (newPath : string) (existingPath : option string) : string :=
  let currentPath := or_else (default "" existingPath) (default "" env_PATH) in
  let paths := splitPath currentPath in
  joinPathEnv (if existsb (String.eqb newPath) paths then paths else newPath :: paths).

(** [s.replace(/from/g, to)] for single characters. *)
Fixpoint replace_all (from to : ascii) (s : string) : string :=
  match s with
  | EmptyString => EmptyString
  | String c rest =>
      String (if Ascii.eqb c from then to else c) (replace_all from to rest)
  end.

(** [normalizePath(filePath)]: code unit 47 is the slash, 92 the
    backslash. *)
Definition normalizePath (filePath : string) : string :=
  if windows then replace_all "047"%char "092"%char filePath
  else replace_all "092"%char "047"%char filePath.

End Platform.

End PlatformUtils.

(* ===================================================================== *)
(** ** The performance analyzer (class PerformanceAnalyzer, src/configs.ts) *)
(* ===================================================================== *)

Module PerformanceAnalyzer.

(** The fields of the singleton and the timer [performance.now()], whose
    readings are taken as integers. *)
Record Analyzer : Type := mkAnalyzer {
  measurements : gmap string (list Z);
  startTimes : gmap string Z;
  enabled : bool;
  performance_now : Z
}.

(** A computation that may throw, may let time pass and may itself use
    the analyzer. *)
Definition Timed (A : Type) : Type := Analyzer -> (Thrown + A) * Analyzer.

(** [start(operation)] *)
Definition start (operation : string) (a : Analyzer) : Analyzer :=
  if enabled a then
    mkAnalyzer (measurements a) (<[operation := performance_now a]> (startTimes a))
               (enabled a) (performance_now a)
  else a.

(** [end(operation)]: the duration, or 0 when the analyzer is disabled
    or no start time (or the start time 0, which is falsy) is on record. *)
Definition end_ (operation : string) (a : Analyzer) : Z * Analyzer :=
  if negb (enabled a) then (0, a)
  else
    match startTimes a !! operation with
    | None => (0, a)
    | Some startTime =>
        if startTime =? 0 then (0, a)
        else
          let duration := performance_now a - startTime in
          (duration,
           mkAnalyzer
             (<[operation := (default [] (measurements a !! operation) ++ [duration])%list]>
                (measurements a))
             (base.delete operation (startTimes a))
             (enabled a) (performance_now a))
    end.

(** [measure(operation, fn)] and [measureSync(operation, fn)] *)
Definition measure {A} (operation : string) (fn : Timed A) : Timed A :=
  fun a =>
    match fn (start operation a) with
    | (inr result, a') => (inr result, snd (end_ operation a'))
    | (inl error, a') => (inl error, snd (end_ operation a'))
    end.

End PerformanceAnalyzer.

(* ===================================================================== *)
(** ** src/managers/nvm.ts: the current version, behind the version cache *)
(* ===================================================================== *)

Module NVMManager.
Import Js.

Section CurrentVersion.

(** [platformInfo.type], and [executeNodeCommand()], which runs
    [node --version] outside the program. *)
Variable platformType : string.
Variable executeNodeCommand :
  VersionCache.Store -> (Thrown + CommandResult) * VersionCache.Store.

(** What [getCurrentVersion] does when the cache has nothing for it. *)
Definition askNode (cacheKey : string) (s : VersionCache.Store)
  : Value * VersionCache.Store :=
  match executeNodeCommand s with
  | (inr nodeResult, s') =>
      if success nodeResult && negb (is_empty (stdout nodeResult)) then
        let parsedVersion := strip_v (trim (stdout nodeResult)) in
        (VStr parsedVersion,
         VersionCache.set cacheKey (VStr parsedVersion) (Some 5000) s')
      else (VNull, VersionCache.set cacheKey VNull (Some 2000) s')
  | (inl _, s') => (VNull, s')
  end.

(** [getCurrentVersion()] *)
Definition getCurrentVersion (s : VersionCache.Store) : Value * VersionCache.Store :=
  let cacheKey := CacheKeyGenerator.currentVersion "nvm" platformType in
  match VersionCache.get cacheKey s with
  | (cached, s') => if not_null cached then (cached, s') else askNode cacheKey s'
  end.

End CurrentVersion.

End NVMManager.

(* ===================================================================== *)
(** ** The manager service (class NodeManagerService) *)
(* ===================================================================== *)

Module NodeManagerService.

Section Service.

(** [platformInfo.type === "windows"] and [config.preferredManager]. *)
Variable windows : bool.
Variable preferredManager : string.

(** [this.managers.get(type)]: nvm is registered on every platform, n
    on every platform but Windows; a manager object is named by the key
    it is registered under. *)
Definition managers_get (type : Value) : option string :=
  match type with
  | VStr t =>
      if String.eqb t "nvm" then Some t
      else if negb windows && String.eqb t "n" then Some t
      else None
  | _ => None
  end.

(** [a || b] on values. *)
Definition or_value (a b : Value) : Value := if truthy a then a else b.

(** The choice of [selectedManager] among the available descriptors. *)
Definition selectManager (availableManagers : list Value) : M Value :=
  let first := hd VUndefined availableManagers in
  if String.eqb preferredManager "auto" then
    let* byNvm := EnvironmentDetector.find_type "nvm" availableManagers in
    if truthy byNvm then ret byNvm
    else
      let* byN := EnvironmentDetector.find_type "n" availableManagers in
      ret (or_value byN first)
  else if negb (String.eqb preferredManager "unknown") then
    let* preferred := EnvironmentDetector.find_type preferredManager availableManagers in
    let selected := or_value preferred VNull in
    if truthy selected then ret selected else ret (or_value first VNull)
  else ret VNull.

(** [detectAndSetActiveManager()]: the field [activeManager] is passed
    in and out; the result is the returned manager and the new field. *)
Definition detectAndSetActiveManager (activeManager : option string)
  : M (option string * option string) :=
  measure "nodeManager.detectAndSetActiveManager"
    (try_catch
       (let* detectionResults :=
          measure "environmentDetector.detectAllManagers" Detector.detectAllManagers in
        let* items := EnvironmentDetector.as_array "filter" detectionResults in
        let* availableManagers := EnvironmentDetector.filter_available items in
        match availableManagers with
        | [] => ret (None, activeManager)
        | _ =>
            let* selectedManager := selectManager availableManagers in
            if truthy selectedManager then
              let* type := lift (get_prop selectedManager "type") in
              ret (managers_get type, managers_get type)
            else ret (activeManager, activeManager)
        end)
       (fun _ => ret (None, activeManager))).

(** [getActiveManager()] *)
Definition getActiveManager (activeManager : option string)
  : M (option string * option string) :=
  measure "nodeManager.getActiveManager"
    (match activeManager with
     | Some manager => ret (Some manager, Some manager)
     | None =>
         let* detected := detectAndSetActiveManager None in
         ret (snd detected, snd detected)
     end).

End Service.

End NodeManagerService.

(* ===================================================================== *)
(** ** Notions used in the statements *)
(* ===================================================================== *)

(** The entry physically stored under [(namespace, key)], expired or not. *)
Definition lookup_entry (w : World) (namespace key : string) : option CacheEntry :=
  match caches w !! namespace with
  | Some cache => cache !! key
  | None => None
  end.

(** An entry is unexpired while [now - timestamp <= ttl]. *)
Definition unexpired (w : World) (e : CacheEntry) : Prop :=
  now w - timestamp e <= ttl e.

(** What [cached] does after a miss: run the producer, store, return. *)
Definition produce_and_store (namespace key : string) (fn : M Value) (ttl : option Z)
  : M Value :=
  let* result := fn in
  Cache.set namespace key result ttl ;;;
  ret result.

(** Number of processes spawned so far. *)
Definition is_spawn (e : Event) : bool :=
  match e with EvSpawn _ _ => true | _ => false end.

Definition spawn_count (w : World) : nat :=
  length (filter (fun e => is_spawn e = true) (trace w)).

(** Number of invocations of a method so far. *)
Definition is_call (method : string) (e : Event) : bool :=
  match e with EvCall m => String.eqb m method | _ => false end.

Definition call_count (method : string) (w : World) : nat :=
  length (filter (fun e => is_call method e = true) (trace w)).

(** The [i]-th component of a parsed version. *)
Definition component (p : Matcher.ParsedVersion) (i : nat) : string :=
  match i with
  | O => Matcher.major p
  | S O => Matcher.minor p
  | _ => Matcher.patch p
  end.

(** A partial pin: a spec, already stripped of its leading "v", that is
    neither a comparison nor a range (rules 2 to 4 of the matcher do not
    apply to it) and has fewer than three dot-separated components. *)
Definition partial_pin (r : string) : bool :=
  negb (Matcher.hasComparisonOperator r)
  && negb (Js.startsWith r "^" || Js.startsWith r "~")
  && Nat.ltb (length (Js.split "." r)) 3.

(** Lexicographic comparison of two integer triples. *)
Definition lex_compare (t1 t2 : Z * Z * Z) : comparison :=
  let '(a1, b1, c1) := t1 in
  let '(a2, b2, c2) := t2 in
  match a1 ?= a2 with
  | Eq => match b1 ?= b2 with
          | Eq => c1 ?= c2
          | o => o
          end
  | o => o
  end.

(** A string made of decimal digits only, and the integer it denotes. *)
Fixpoint all_digits (s : string) : bool :=
  match s with
  | EmptyString => true
  | String c rest => Js.is_digit c && all_digits rest
  end.

Fixpoint decimal_from (acc : Z) (s : string) : Z :=
  match s with
  | EmptyString => acc
  | String c rest => decimal_from (10 * acc + Js.digit_val c) rest
  end.

Definition decimal (s : string) : Z := decimal_from 0 s.

(** A component without a dot. *)
Fixpoint dot_free (s : string) : bool :=
  match s with
  | EmptyString => true
  | String c rest => negb (Ascii.eqb c ".") && dot_free rest
  end.

(** [w'] is [w] after the events [evs]: the trace has grown by [evs],
    and the process constants and the behaviour of commands and files
    are the same. *)
Definition steps (w w' : World) (evs : list Event) : Prop :=
  trace w' = (trace w ++ evs)%list
  /\ env w' = env w /\ spawn w' = spawn w
  /\ existsSync w' = existsSync w /\ readFileSync w' = readFileSync w.

(** Only processes were spawned. *)
Definition only_spawns (evs : list Event) : Prop :=
  Forall (fun e => is_spawn e = true) evs.

(** [spawn] throws [e] when asked to run the command. *)
Definition command_throws (w : World) (command : string) (args : list string)
    (e : Thrown) : Prop :=
  exists elapsed, spawn w command args = (SpawnThrows e, elapsed).

(** The command runs, ends with success (exit code 0, or no exit code)
    and has printed [out], white space at both ends apart. *)
Definition command_succeeds (w : World) (command : string) (args : list string)
    (out : string) : Prop :=
  exists code raw err elapsed,
    spawn w command args = (SpawnClose code raw err, elapsed)
    /\ default 0 code = 0 /\ out = Js.trim raw.

(** The command runs and ends without success: a non-zero exit code, or
    an [error] event of the child process. *)
Definition command_fails (w : World) (command : string) (args : list string) : Prop :=
  match fst (spawn w command args) with
  | SpawnThrows _ => False
  | SpawnClose code _ _ => default 0 code <> 0
  | SpawnError _ _ _ => True
  end.

(** The shell command throws [e]: the shell cannot be determined, or
    [spawn] throws when asked to run it. *)
Definition shell_throws (w : World) (command : string) (e : Thrown) : Prop :=
  getShellCommand (env w) = inl e
  \/ exists shell args,
       getShellCommand (env w) = inr (shell, args)
       /\ command_throws w shell (args ++ [command])%list e.

(** The version command of the nvm probe, and the command of its
    second attempt on Unix. *)
Definition nvm_version_args (w : World) : list string :=
  [if isWindows (env w) then "version" else "--version"].

Definition nvm_source_command (w : World) : string :=
  "source " +:+ nvmDir (env w) +:+ "/nvm.sh && nvm --version".

(** The path lookup of the n probe. *)
Definition which_command (w : World) : string :=
  if isWindows (env w) then "where" else "which".

(** What a probe produces when its own cache entry misses. *)
Definition probe_nvm : M Value :=
  Detector.catch_into_result (Detector.detectNVM_block (Detector.initial_result nvm)).

Definition probe_n : M Value :=
  Detector.catch_into_result (Detector.detectN_block (Detector.initial_result n_manager)).

(** A descriptor is marked available only once a version has been read. *)
Definition version_before_available (r : ManagerDetectionResult) : Prop :=
  mdr_available r = true -> is_Some (mdr_version r).

(** A non-empty string of decimal digits. *)
Definition numeral (s : string) : Prop := all_digits s = true /\ s <> "".

(** A three-part numeric version: three numerals joined by dots. *)
Definition is_triple (t : string) : Prop :=
  exists a b c, numeral a /\ numeral b /\ numeral c
                /\ t = a +:+ "." +:+ b +:+ "." +:+ c.

(** The range markers [normalizeVersion] looks for. *)
Definition has_range_marker (s : string) : bool :=
  Js.includes s ">=" || Js.includes s "^" || Js.includes s "~".

(** A reader yields the raw spec [s]: it returns a non-empty string. *)
Definition yields (reader : M Value) (w : World) (s : string) (w' : World) : Prop :=
  reader w = (inr (VStr s), w') /\ s <> "".

(** A reader yields nothing: it returns a falsy value. *)
Definition yields_nothing (reader : M Value) (w w' : World) : Prop :=
  exists v, reader w = (inr v, w') /\ truthy v = false.

(** The manifest field [field] holds the raw spec [s]. *)
Definition field_yields (config : Value) (field s : string) : Prop :=
  get_prop config field = inr (VStr s) /\ s <> "".

Definition field_yields_nothing (config : Value) (field : string) : Prop :=
  exists v, get_prop config field = inr v /\ truthy v = false.

(** The priority order of the configuration sources, after the spec:
    .nvmrc, then .node-version, then .tool-versions, then volta.node of
    package.json, then engines.node of package.json; the first source
    that yields a non-empty version is selected and the sources after
    it are not consulted.  [selects root w r w'] says that, starting in
    the world [w], the selection is [r] (the raw spec and the name of
    its source, or [None]) and that consulting the sources up to that
    point leaves the world [w']. *)
Inductive selects (root : string) (w : World)
  : option (string * string) -> World -> Prop :=
| select_nvmrc s w1 :
    yields (ConfigReader.readNvmrc root) w s w1 ->
    selects root w (Some (s, ".nvmrc")) w1
| select_node_version s w1 w2 :
    yields_nothing (ConfigReader.readNvmrc root) w w1 ->
    yields (ConfigReader.readNodeVersion root) w1 s w2 ->
    selects root w (Some (s, ".node-version")) w2
| select_tool_versions s w1 w2 w3 :
    yields_nothing (ConfigReader.readNvmrc root) w w1 ->
    yields_nothing (ConfigReader.readNodeVersion root) w1 w2 ->
    yields (ConfigReader.readToolVersions root) w2 s w3 ->
    selects root w (Some (s, ".tool-versions")) w3
| select_volta s config w1 w2 w3 w4 :
    yields_nothing (ConfigReader.readNvmrc root) w w1 ->
    yields_nothing (ConfigReader.readNodeVersion root) w1 w2 ->
    yields_nothing (ConfigReader.readToolVersions root) w2 w3 ->
    ConfigReader.readPackageJson root w3 = (inr config, w4) ->
    truthy config = true ->
    field_yields config "volta" s ->
    selects root w (Some (s, "package.json (volta.node)")) w4
| select_engines s config w1 w2 w3 w4 :
    yields_nothing (ConfigReader.readNvmrc root) w w1 ->
    yields_nothing (ConfigReader.readNodeVersion root) w1 w2 ->
    yields_nothing (ConfigReader.readToolVersions root) w2 w3 ->
    ConfigReader.readPackageJson root w3 = (inr config, w4) ->
    truthy config = true ->
    field_yields_nothing config "volta" ->
    field_yields config "engines" s ->
    selects root w (Some (s, "package.json (engines.node)")) w4
| select_no_field config w1 w2 w3 w4 :
    yields_nothing (ConfigReader.readNvmrc root) w w1 ->
    yields_nothing (ConfigReader.readNodeVersion root) w1 w2 ->
    yields_nothing (ConfigReader.readToolVersions root) w2 w3 ->
    ConfigReader.readPackageJson root w3 = (inr config, w4) ->
    truthy config = true ->
    field_yields_nothing config "volta" ->
    field_yields_nothing config "engines" ->
    selects root w None w4
| select_no_manifest w1 w2 w3 w4 :
    yields_nothing (ConfigReader.readNvmrc root) w w1 ->
    yields_nothing (ConfigReader.readNodeVersion root) w1 w2 ->
    yields_nothing (ConfigReader.readToolVersions root) w2 w3 ->
    yields_nothing (ConfigReader.readPackageJson root) w3 w4 ->
    selects root w None w4.

(** What [getProjectNodeVersion] returns for a selection. *)
Definition config_of (selection : option (string * string)) : Value :=
  match selection with
  | Some (s, source) => VProjectVersion (ConfigReader.normalizeVersion s) source
  | None => VNull
  end.

(** A string of white space only. *)
Fixpoint all_white (s : string) : bool :=
  match s with
  | EmptyString => true
  | String c rest => Js.is_white c && all_white rest
  end.

(** An integer that a double can hold: at most 53 significant bits. *)
Definition is_double (m : Z) : Prop :=
  exists q e, 0 <= e /\ Z.abs q < 2 ^ 53 /\ m = q * 2 ^ e.

(** [m] is a double, and no double is nearer to [z]. *)
Definition nearest_double (z m : Z) : Prop :=
  is_double m /\ forall m', is_double m' -> Z.abs (m - z) <= Z.abs (m' - z).

(** The sign of a number; [NaN] has none. *)
Definition sign_of (a : Js.number) : option comparison :=
  match a with
  | Js.NaN => None
  | Js.Infinity negative => Some (if negative then Lt else Gt)
  | Js.Num z => Some (z ?= 0)
  end.


(** An optional sign, and the integer it gives to a magnitude. *)
Definition is_sign (s : string) : Prop := s = "" \/ s = "+" \/ s = "-".

Definition signed (sign : string) (z : Z) : Z :=
  if String.eqb sign "-" then - z else z.

(** The string begins with a decimal digit. *)
Definition starts_with_digit (s : string) : bool :=
  match s with
  | String c _ => Js.is_digit c
  | EmptyString => false
  end.

(** [t] is the leftmost three-part numeric version of [s], taken as far
    as its digits go: [t] occurs in [s], no digit follows it, and no
    three-part numeric version begins in [s] before it. *)
Definition leftmost_triple (s t : string) : Prop :=
  exists pre post,
    s = pre +:+ t +:+ post
    /\ is_triple t
    /\ starts_with_digit post = false
    /\ forall pre' t' post',
         s = pre' +:+ t' +:+ post' -> is_triple t' ->
         (String.length pre <= String.length pre')%nat.

(** What [parseInt] can read: white space, an optional sign, then at
    least one digit. *)
Definition numeric_head (s : string) : Prop :=
  exists ws sign d rest,
    all_white ws = true /\ is_sign sign /\ Js.is_digit d = true
    /\ s = ws +:+ sign +:+ String d rest.

(** The number a binary64 value of the Standard Library stands for,
    when its value is an integer. *)
Definition of_spec_float (x : SpecFloat.spec_float) : Js.number :=
  match x with
  | SpecFloat.S754_zero _ => Js.Num 0
  | SpecFloat.S754_infinity s => Js.Infinity s
  | SpecFloat.S754_nan => Js.NaN
  | SpecFloat.S754_finite s m e =>
      let magnitude := if 0 <=? e then Z.pos m * 2 ^ e else Z.pos m / 2 ^ (- e) in
      Js.Num (if s then - magnitude else magnitude)
  end.

(** The value of [z] and the difference of the values of [x] and [y]
    as the Standard Library computes them on binary64. *)
Definition binary64_of_Z (z : Z) : SpecFloat.spec_float :=
  SpecFloat.binary_normalize 53 1024 z 0 false.

Definition binary64_sub (x y : Z) : SpecFloat.spec_float :=
  SpecFloat.SFsub 53 1024 (binary64_of_Z x) (binary64_of_Z y).

(** Number of durations on record for an operation. *)
Definition recorded (operation : string) (a : PerformanceAnalyzer.Analyzer) : nat :=
  length (default [] (PerformanceAnalyzer.measurements a !! operation)).

(** A computation that leaves the analyzer's books for [operation]
    alone: it may let time pass and measure other operations. *)
Definition untimed {A} (operation : string) (fn : PerformanceAnalyzer.Timed A) : Prop :=
  forall a,
    PerformanceAnalyzer.enabled (snd (fn a)) = PerformanceAnalyzer.enabled a
    /\ PerformanceAnalyzer.startTimes (snd (fn a)) !! operation
       = PerformanceAnalyzer.startTimes a !! operation
    /\ PerformanceAnalyzer.measurements (snd (fn a)) !! operation
       = PerformanceAnalyzer.measurements a !! operation.

(** A string without the character [sep]. *)
Fixpoint sep_free (sep : ascii) (s : string) : bool :=
  match s with
  | EmptyString => true
  | String c rest => negb (Ascii.eqb c sep) && sep_free sep rest
  end.

(** An entry of the PATH variable: not blank, and without the separator. *)
Definition path_entry (sep : ascii) (p : string) : Prop :=
  sep_free sep p = true /\ Js.trim p <> "".

(** The four files [hasConfigFiles] looks for, in its order. *)
Definition config_file_names : list string :=
  [".nvmrc"; ".node-version"; ".tool-versions"; "package.json"].

(** The namespace of the configuration reader holds no value: every
    entry in it, if any, holds [null]. *)
Definition config_cache_blank (w : World) : Prop :=
  forall key e, lookup_entry w Cache.CONFIG_FILES key = Some e -> value e = VNull.

(* ===================================================================== *)
(** ** Concrete worlds for the examples *)
(* ===================================================================== *)

(** A Unix machine where no file exists and no command is found. *)
Definition example_env : Env :=
  mkEnv false "/home/dev/.nvm" (inr "/home/dev") None None
        (inr ("/bin/bash", ["-c"]))
        (fun parts => String.concat "/" parts)
        (fun _ => inl (ErrorObj "SyntaxError: Unexpected token")).

Definition bare_world : World :=
  mkWorld ∅ 0 (fun _ => false) (fun _ => inl (ErrorObj "ENOENT"))
          (fun _ _ => (SpawnError "spawn ENOENT" "" "", 0)) example_env [].

Definition with_spawn (f : string -> list string -> SpawnOutcome * Z) (w : World) : World :=
  mkWorld (caches w) (now w) (existsSync w) (readFileSync w) f (env w) (trace w).

(** The same machine with nvm on the path: it answers in 12 ms. *)
Definition nvm_installed_world : World :=
  with_spawn (fun command _ =>
                if String.eqb command "nvm" then (SpawnClose (Some 0) "0.39.7" "", 12)
                else (SpawnError "spawn ENOENT" "" "", 3))
             bare_world.

(** A machine without nvm where [n --version] succeeds and the [spawn]
    of the path lookup [which n] throws. *)
Definition which_throws_world : World :=
  with_spawn (fun command _ =>
                if String.eqb command "n" then (SpawnClose (Some 0) "9.2.0" "", 5)
                else if String.eqb command "which" then (SpawnThrows (ErrorObj "spawn ENOMEM"), 0)
                else (SpawnError "spawn ENOENT" "" "", 3))
             bare_world.

(** A machine where every [spawn] throws. *)
Definition spawn_throws_world : World :=
  with_spawn (fun _ _ => (SpawnThrows (ErrorObj "spawn ENOMEM"), 0)) bare_world.

Definition with_env (e : Env) (w : World) : World :=
  mkWorld (caches w) (now w) (existsSync w) (readFileSync w) (spawn w) e (trace w).

(** The world [w] with exactly the files [files] (path, content) on disk. *)
Definition with_files (files : list (string * string)) (w : World) : World :=
  mkWorld (caches w) (now w)
          (fun p => existsb (fun f => String.eqb (fst f) p) files)
          (fun p => match List.find (fun f => String.eqb (fst f) p) files with
                    | Some f => inr (snd f)
                    | None => inl (ErrorObj "ENOENT: no such file or directory")
                    end)
          (spawn w) (env w) (trace w).

(** An environment whose [JSON.parse] reads every manifest as
    [{ engines: { node: ">=18" } }]. *)
Definition manifest_env : Env :=
  mkEnv false "/home/dev/.nvm" (inr "/home/dev") None None
        (inr ("/bin/bash", ["-c"]))
        (fun parts => String.concat "/" parts)
        (fun _ => inr (VObj [("engines", VObj [("node", VStr ">=18")])])).

(** A project with the pin file .nvmrc holding "16" and a manifest
    whose engines range is ">=18". *)
Definition pinned_world : World :=
  with_files [("/proj/.nvmrc", "16" +:+ String "010" EmptyString);
              ("/proj/package.json", "manifest")]
             (with_env manifest_env bare_world).

(** The same project without the pin file. *)
Definition manifest_only_world : World :=
  with_files [("/proj/package.json", "manifest")] (with_env manifest_env bare_world).



(** A project whose .nvmrc holds the range "<=18.0.0". *)
Definition range_pin_world : World :=
  with_files [("/proj/.nvmrc", "<=18.0.0")] bare_world.

(** A producer that leaves a mark in the trace and returns [v]. *)
Definition marking_producer (v : Value) : M Value :=
  log (EvCall "producer") ;;; ret v.

(** A producer that leaves a mark in the trace and fails. *)
Definition failing_producer (message : string) : M Value :=
  log (EvCall "producer") ;;; throw (ErrorObj message).

(** A world whose cache holds an unexpired entry with the value [null]. *)
Definition null_entry_world : World :=
  with_now 10 (with_caches {[ "ns" := {[ "k" := mkEntry VNull 0 1000 ]} ]} bare_world).

(** A world whose cache holds an unexpired entry with a string. *)
Definition warm_world : World :=
  with_now 10 (with_caches {[ "ns" := {[ "k" := mkEntry (VStr "kept") 0 1000 ]} ]} bare_world).

(** A machine where every command succeeds at once: both nvm and n are
    installed. *)
Definition both_installed_world : World :=
  with_spawn (fun _ _ => (SpawnClose (Some 0) "1.0.0" "", 1)) bare_world.

(** A Windows machine without nvm-windows where every other command
    succeeds: n answers. *)
Definition windows_n_world : World :=
  with_spawn (fun command _ =>
                if String.eqb command "nvm" then (SpawnError "spawn ENOENT" "" "", 3)
                else (SpawnClose (Some 0) "9.2.0" "", 5))
             (with_env (mkEnv true "C:/nvm" (inr "C:/Users/dev") None None
                              (inr ("cmd", ["/c"]))
                              (fun parts => String.concat (String "092" EmptyString) parts)
                              (fun _ => inl (ErrorObj "SyntaxError: Unexpected token")))
                       bare_world).

(** A machine where every child process is killed by a signal before it
    prints anything. *)
Definition killed_world : World :=
  with_spawn (fun _ _ => (SpawnClose None "" "", 100)) bare_world.

(** An enabled analyzer with nothing on record, at time 100. *)
Definition example_analyzer : PerformanceAnalyzer.Analyzer :=
  PerformanceAnalyzer.mkAnalyzer ∅ ∅ true 100.

(** A computation that takes [ms] milliseconds and does nothing else. *)
Definition tick (ms : Z) : PerformanceAnalyzer.Timed unit :=
  fun a =>
    (inr tt,
     PerformanceAnalyzer.mkAnalyzer
       (PerformanceAnalyzer.measurements a) (PerformanceAnalyzer.startTimes a)
       (PerformanceAnalyzer.enabled a) (PerformanceAnalyzer.performance_now a + ms)).

(** A [node --version] that answers [result] after [ms] milliseconds. *)
Definition node_answers (result : CommandResult) (ms : Z)
  : VersionCache.Store -> (Thrown + CommandResult) * VersionCache.Store :=
  fun s =>
    (inr result,
     VersionCache.mkStore (VersionCache.entries s) (VersionCache.clock s + ms)).

(* ===================================================================== *)
(** * Properties *)
(* ===================================================================== *)

(** ** Strings *)

Section StringFacts.

Lemma app_cons (c : ascii) (s t : string) : String c s +:+ t = String c (s +:+ t).
Proof. reflexivity. Qed.

Lemma app_empty_l (t : string) : "" +:+ t = t.
Proof. reflexivity. Qed.

Lemma app_empty_r (s : string) : s +:+ "" = s.
Proof. induction s as [|c s IH]; [done|]. by rewrite app_cons, IH. Qed.

Lemma app_assoc' (s t u : string) : (s +:+ t) +:+ u = s +:+ t +:+ u.
Proof. induction s as [|c s IH]; [done|]. by rewrite !app_cons, IH. Qed.

Lemma length_app' (s t : string) :
  String.length (s +:+ t) = (String.length s + String.length t)%nat.
Proof. induction s as [|c s IH]; [done|]. rewrite app_cons. cbn. by rewrite IH. Qed.

Lemma all_digits_app (s t : string) :
  all_digits (s +:+ t) = all_digits s && all_digits t.
Proof.
  induction s as [|c s IH]; [done|].
  rewrite app_cons. cbn. by rewrite IH, andb_assoc.
Qed.

Lemma is_empty_false (s : string) : s <> "" -> Js.is_empty s = false.
Proof. by destruct s. Qed.

Lemma is_empty_app (s t : string) : s <> "" -> Js.is_empty (s +:+ t) = false.
Proof. by destruct s. Qed.

End StringFacts.

Section TrimFacts.
Import Js.

Lemma trimEnd_empty_iff (s : string) : trimEnd s = "" <-> all_white s = true.
Proof.
  induction s as [|c s IH]; [done|]. cbn.
  destruct (is_white c); cbn.
  - destruct (trimEnd s) eqn:Ht; cbn.
    + split; [intros _; by apply IH | done].
    + split; [done|]. intros Hall. by apply IH in Hall.
  - split; done.
Qed.

Lemma trimEnd_idem (s : string) : trimEnd (trimEnd s) = trimEnd s.
Proof.
  induction s as [|c s IH]; [done|]. cbn.
  destruct (is_white c && is_empty (trimEnd s)) eqn:Hc; [done|].
  cbn. by rewrite IH, Hc.
Qed.

Lemma trimEnd_app_white (s ws : string) :
  all_white ws = true -> trimEnd (s +:+ ws) = trimEnd s.
Proof.
  intros Hws. induction s as [|c s IH].
  - rewrite app_empty_l. by apply trimEnd_empty_iff.
  - rewrite app_cons. cbn. by rewrite IH.
Qed.

Lemma trimStart_idem (s : string) : trimStart (trimStart s) = trimStart s.
Proof.
  induction s as [|c s IH]; [done|]. cbn.
  destruct (is_white c) eqn:Hc; [done|]. cbn. by rewrite Hc.
Qed.

Lemma trimStart_empty_iff (s : string) : trimStart s = "" <-> all_white s = true.
Proof.
  induction s as [|c s IH]; [done|]. cbn.
  destruct (is_white c); [done|]. split; done.
Qed.

(** Trimming the end of a string that has no white space in front
    leaves none in front. *)
Lemma trimStart_trimEnd (s : string) :
  trimStart s = s -> trimStart (trimEnd s) = trimEnd s.
Proof.
  destruct s as [|c s]; [done|]. cbn.
  destruct (is_white c) eqn:Hc.
  - intros Heq. exfalso.
    assert (String.length (trimStart s) <= String.length s)%nat as Hlen.
    { clear. induction s as [|d s IH]; [done|]. cbn.
      destruct (is_white d); cbn; lia. }
    rewrite Heq in Hlen. cbn in Hlen. lia.
  - intros _. cbn. by rewrite Hc.
Qed.

(** [trim] is idempotent. *)
Lemma trim_idem (s : string) : trim (trim s) = trim s.
Proof.
  unfold trim.
  rewrite (trimStart_trimEnd (trimStart s)) by apply trimStart_idem.
  apply trimEnd_idem.
Qed.

Lemma trim_empty_iff (s : string) : trim s = "" <-> all_white s = true.
Proof.
  unfold trim. rewrite trimEnd_empty_iff. split.
  - intros Hall. apply trimStart_empty_iff.
    destruct (trimStart s) as [|c r] eqn:Hs; [done|].
    exfalso. cbn in Hall. apply andb_true_iff in Hall as [Hc _].
    pose proof (trimStart_idem s) as Hid. rewrite Hs in Hid. cbn in Hid.
    rewrite Hc in Hid.
    assert (String.length (trimStart r) <= String.length r)%nat as Hlen.
    { clear. induction r as [|d r IH]; [done|]. cbn.
      destruct (is_white d); cbn; lia. }
    rewrite Hid in Hlen. cbn in Hlen. lia.
  - intros Hall. apply trimStart_empty_iff in Hall. by rewrite Hall.
Qed.

Lemma startsWith_skip (s p : string) :
  startsWith s p = true -> s = p +:+ Matcher.skip (String.length p) s.
Proof.
  revert s. induction p as [|c p IH]; intros s; [done|].
  destruct s as [|d s]; [done|]. cbn.
  destruct (Ascii.eqb_spec d c) as [->|]; [|done]. cbn.
  intros Hs. rewrite app_cons. f_equal. by apply IH.
Qed.

End TrimFacts.

(** ** The cache *)

Section CacheFacts.
Context (namespace key : string).

Lemma lookup_entry_caches (w w' : World) :
  caches w' = caches w ->
  lookup_entry w' namespace key = lookup_entry w namespace key.
Proof. unfold lookup_entry. by intros ->. Qed.

(** Reading an absent entry. *)
Lemma get_absent (w : World) :
  lookup_entry w namespace key = None ->
  Cache.get namespace key w = (inr VNull, w).
Proof.
  unfold lookup_entry, Cache.get.
  destruct (caches w !! namespace) as [cache|]; [|done].
  by intros ->.
Qed.

(** Reading an unexpired entry gives its value and changes nothing. *)
Lemma get_unexpired (w : World) (e : CacheEntry) :
  lookup_entry w namespace key = Some e ->
  unexpired w e ->
  Cache.get namespace key w = (inr (value e), w).
Proof.
  unfold lookup_entry, Cache.get, unexpired.
  destruct (caches w !! namespace) as [cache|]; [|done].
  intros -> Hle.
  destruct (Z.ltb_spec (ttl e) (now w - timestamp e)); [lia|done].
Qed.

(** Reading an expired entry gives [null] and deletes the entry. *)
Lemma get_expired (w : World) (e : CacheEntry) :
  lookup_entry w namespace key = Some e ->
  ~ unexpired w e ->
  exists w',
    Cache.get namespace key w = (inr VNull, w')
    /\ lookup_entry w' namespace key = None
    /\ now w' = now w /\ trace w' = trace w.
Proof.
  unfold lookup_entry, Cache.get, unexpired.
  destruct (caches w !! namespace) as [cache|] eqn:Hns; [|done].
  intros -> Hgt.
  destruct (Z.ltb_spec (ttl e) (now w - timestamp e)); [|lia].
  eexists; split; [done|]. cbn.
  rewrite lookup_insert_eq. by rewrite lookup_delete_eq.
Qed.

(** [get] never throws, and what it returns is [null] or the value of
    an unexpired entry; the clock and the trace are left alone. *)
Lemma get_cases (w : World) :
  exists v w',
    Cache.get namespace key w = (inr v, w')
    /\ now w' = now w /\ trace w' = trace w /\ env w' = env w
    /\ spawn w' = spawn w
    /\ (v = VNull
        \/ (w' = w /\ exists e, lookup_entry w namespace key = Some e
                                /\ unexpired w e /\ v = value e)).
Proof.
  destruct (lookup_entry w namespace key) as [e|] eqn:He.
  - destruct (Z.le_gt_cases (now w - timestamp e) (ttl e)) as [Hle|Hgt].
    + exists (value e), w. rewrite (get_unexpired w e He Hle).
      repeat split; try done. right. split; [done|]. by exists e.
    + unfold lookup_entry in He. unfold Cache.get.
      destruct (caches w !! namespace) as [cache|]; [|done]. rewrite He.
      destruct (Z.ltb_spec (ttl e) (now w - timestamp e)); [|lia].
      eexists _, _. split; [done|]. cbn. repeat split; by left.
  - exists VNull, w. rewrite (get_absent w He). repeat split; by left.
Qed.

(** After [set], the entry holds the value, stamped with the current time. *)
Lemma set_lookup (v : Value) (t : option Z) (w : World) :
  exists w',
    Cache.set namespace key v t w = (inr tt, w')
    /\ lookup_entry w' namespace key = Some (mkEntry v (now w) (Cache.ttl_or_default t))
    /\ now w' = now w /\ trace w' = trace w.
Proof.
  eexists; split; [done|]. unfold lookup_entry. cbn.
  rewrite lookup_insert_eq. by rewrite lookup_insert_eq.
Qed.

(** A hit: [cached] returns the value and the producer plays no part. *)
Lemma cached_hit (fn : M Value) (t : option Z) (w : World) (e : CacheEntry) :
  lookup_entry w namespace key = Some e ->
  unexpired w e ->
  value e <> VNull ->
  Cache.cached namespace key fn t w = (inr (value e), w).
Proof.
  intros He Hle Hnn. unfold Cache.cached, bind.
  rewrite (get_unexpired w e He Hle).
  by destruct (value e).
Qed.

(** A miss: [cached] is the producer followed by [set]. *)
Lemma cached_miss (fn : M Value) (t : option Z) (w w1 : World) :
  Cache.get namespace key w = (inr VNull, w1) ->
  Cache.cached namespace key fn t w = produce_and_store namespace key fn t w1.
Proof.
  intros Hget. unfold Cache.cached, bind at 1. by rewrite Hget.
Qed.

(** A stored [null] reads as [null] whether it has expired or not. *)
Lemma get_stored_null (w : World) (e : CacheEntry) :
  lookup_entry w namespace key = Some e ->
  value e = VNull ->
  exists w', Cache.get namespace key w = (inr VNull, w')
             /\ (unexpired w e -> w' = w).
Proof.
  intros He Hnull.
  destruct (Z.le_gt_cases (now w - timestamp e) (ttl e)) as [Hle|Hgt].
  - exists w. rewrite (get_unexpired w e He Hle), Hnull. by split.
  - destruct (get_expired w e He) as (w' & Hget & _); [unfold unexpired; lia|].
    exists w'. split; [done|]. unfold unexpired. lia.
Qed.

End CacheFacts.

Section CacheReadThrough.
Context (namespace key : string).

(** After a miss the entry is absent or holds [null]. *)
Lemma get_null_entry (w w1 : World) :
  Cache.get namespace key w = (inr VNull, w1) ->
  lookup_entry w1 namespace key = None
  \/ exists e, lookup_entry w1 namespace key = Some e /\ value e = VNull.
Proof.
  intros Hget.
  destruct (lookup_entry w namespace key) as [e|] eqn:He.
  - destruct (Z.le_gt_cases (now w - timestamp e) (ttl e)) as [Hle|Hgt].
    + rewrite (get_unexpired _ _ w e He Hle) in Hget.
      injection Hget as Hv <-. right. by exists e.
    + destruct (get_expired _ _ w e He) as (w' & Hget' & Hnone & _).
      { unfold unexpired. lia. }
      rewrite Hget' in Hget. injection Hget as <-. by left.
  - rewrite (get_absent _ _ w He) in Hget. injection Hget as <-. by left.
Qed.

(** Such an entry is a miss at any later time too. *)
Lemma miss_again (w1 w3 : World) :
  (lookup_entry w1 namespace key = None
   \/ exists e, lookup_entry w1 namespace key = Some e /\ value e = VNull) ->
  lookup_entry w3 namespace key = lookup_entry w1 namespace key ->
  exists w4, Cache.get namespace key w3 = (inr VNull, w4).
Proof.
  intros [Hnone | (e & He & Hnull)] Heq.
  - exists w3. apply get_absent. by rewrite Heq.
  - rewrite He in Heq.
    destruct (get_stored_null _ _ w3 e Heq Hnull) as (w4 & Hget & _). by exists w4.
Qed.

Lemma produce_and_store_fail (fn : M Value) (t : option Z) (w w' : World) (err : Thrown) :
  fn w = (inl err, w') ->
  produce_and_store namespace key fn t w = (inl err, w').
Proof. intros Hfn. unfold produce_and_store, bind. by rewrite Hfn. Qed.

Lemma produce_and_store_ok (fn : M Value) (t : option Z) (w w' : World) (v : Value) :
  fn w = (inr v, w') ->
  exists w'',
    produce_and_store namespace key fn t w = (inr v, w'')
    /\ lookup_entry w'' namespace key
       = Some (mkEntry v (now w') (Cache.ttl_or_default t))
    /\ now w'' = now w' /\ trace w'' = trace w'.
Proof.
  intros Hfn. unfold produce_and_store, bind. rewrite Hfn.
  destruct (set_lookup namespace key v t w') as (w'' & Hset & Hrest).
  rewrite Hset. by exists w''.
Qed.

End CacheReadThrough.

(** C4, as stated, fails at a stored [null]: [null_entry_world] holds an
    unexpired entry under [("ns", "k")], yet [cached] does not return
    the stored value without invoking the producer: the producer runs
    (its mark appears in the trace) and its fresh result is returned. *)
Lemma cached_unexpired_null_entry_invokes_producer :
  let run := Cache.cached "ns" "k" (marking_producer (VStr "fresh")) None null_entry_world in
  lookup_entry null_entry_world "ns" "k" = Some (mkEntry VNull 0 1000)
  /\ unexpired null_entry_world (mkEntry VNull 0 1000)
  /\ fst run = inr (VStr "fresh")
  /\ fst run <> inr (value (mkEntry VNull 0 1000))
  /\ call_count "producer" null_entry_world = 0%nat
  /\ call_count "producer" (snd run) = 1%nat.
Proof.
  cbv zeta. unfold unexpired.
  repeat apply conj; vm_compute; congruence.
Qed.

(** C4 (amended): the read-through [cached(namespace, key, producer, ttl)]
    - returns the stored value, leaving the world as it is whatever the
      producer, when an unexpired entry with a value other than [null]
      exists;
    - on a miss runs the producer; if the producer fails, the failure is
      what [cached] returns, the world is the one the producer left
      (nothing is stored), and as long as the entry is left alone every
      later call misses again and runs its producer;
    - if the producer succeeds, its result is returned and stored under
      the key, stamped with the time at which the producer finished. *)
Theorem cached_read_through (namespace key : string) (fn : M Value) (t : option Z)
    (w : World) :
  (forall e, lookup_entry w namespace key = Some e -> unexpired w e ->
             value e <> VNull ->
             Cache.cached namespace key fn t w = (inr (value e), w))
  /\ (forall w1, Cache.get namespace key w = (inr VNull, w1) ->
        Cache.cached namespace key fn t w = produce_and_store namespace key fn t w1
        /\ (forall err w2, fn w1 = (inl err, w2) ->
              Cache.cached namespace key fn t w = (inl err, w2)
              /\ (lookup_entry w2 namespace key = lookup_entry w1 namespace key ->
                  forall w3 fn' t',
                    lookup_entry w3 namespace key = lookup_entry w2 namespace key ->
                    exists w4,
                      Cache.get namespace key w3 = (inr VNull, w4)
                      /\ Cache.cached namespace key fn' t' w3
                         = produce_and_store namespace key fn' t' w4))
        /\ (forall v w2, fn w1 = (inr v, w2) ->
              exists w3,
                Cache.cached namespace key fn t w = (inr v, w3)
                /\ lookup_entry w3 namespace key
                   = Some (mkEntry v (now w2) (Cache.ttl_or_default t))
                /\ now w3 = now w2 /\ trace w3 = trace w2)).
Proof.
  split.
  - intros e He Hle Hnn. by apply cached_hit.
  - intros w1 Hget.
    pose proof (cached_miss namespace key fn t w w1 Hget) as Hmiss.
    split; [done|]. split.
    + intros err w2 Hfn. split.
      * rewrite Hmiss. by apply produce_and_store_fail.
      * intros Hkeep w3 fn' t' Hsame.
        destruct (miss_again namespace key w1 w3) as (w4 & Hget3).
        { by apply (get_null_entry namespace key w). }
        { by rewrite Hsame. }
        exists w4. split; [done|]. by apply cached_miss.
    + intros v w2 Hfn. rewrite Hmiss. by apply produce_and_store_ok.
Qed.

(** The three cases of C4 on concrete worlds: a hit on a stored string, a
    failing producer on an empty cache, a successful one. *)
Lemma cached_read_through_witness :
  Cache.cached "ns" "k" (failing_producer "boom") None warm_world
  = (inr (VStr "kept"), warm_world)
  /\ Cache.cached "ns" "k" (failing_producer "boom") None bare_world
     = (inl (ErrorObj "boom"), with_event (EvCall "producer") bare_world)
  /\ exists w3,
       Cache.cached "ns" "k" (marking_producer (VStr "fresh")) (Some 50) bare_world
       = (inr (VStr "fresh"), w3)
       /\ lookup_entry w3 "ns" "k" = Some (mkEntry (VStr "fresh") 0 50).
Proof.
  split; [|split].
  - destruct (cached_read_through "ns" "k" (failing_producer "boom") None warm_world)
      as [Hhit _].
    apply (Hhit (mkEntry (VStr "kept") 0 1000)).
    + reflexivity.
    + unfold unexpired. vm_compute. discriminate.
    + discriminate.
  - destruct (cached_read_through "ns" "k" (failing_producer "boom") None bare_world)
      as [_ Hmiss].
    destruct (Hmiss bare_world) as (_ & Hfail & _); [reflexivity|].
    destruct (Hfail (ErrorObj "boom") (with_event (EvCall "producer") bare_world))
      as [Hres _]; [reflexivity|].
    exact Hres.
  - destruct (cached_read_through "ns" "k" (marking_producer (VStr "fresh")) (Some 50)
                bare_world) as [_ Hmiss].
    destruct (Hmiss bare_world) as (_ & _ & Hok); [reflexivity|].
    destruct (Hok (VStr "fresh") (with_event (EvCall "producer") bare_world))
      as (w3 & Hres & Hentry & _); [reflexivity|].
    exists w3. split; [exact Hres | exact Hentry].
Defined.

(** C10: when the producer returns [null] after a miss, [cached] stores
    an entry with the value [null]; yet in every later world where that
    entry is still in place and unexpired, [get] returns [null] without
    touching the world, just as it does for an absent entry, and
    [cached] runs its producer again. *)
Theorem cached_null_result_is_never_a_hit (namespace key : string) (fn : M Value)
    (t : option Z) (w w1 w2 : World) :
  Cache.get namespace key w = (inr VNull, w1) ->
  fn w1 = (inr VNull, w2) ->
  exists w3,
    Cache.cached namespace key fn t w = (inr VNull, w3)
    /\ lookup_entry w3 namespace key
       = Some (mkEntry VNull (now w2) (Cache.ttl_or_default t))
    /\ (forall w' fn' t',
          lookup_entry w' namespace key = lookup_entry w3 namespace key ->
          now w' - now w2 <= Cache.ttl_or_default t ->
          Cache.get namespace key w' = (inr VNull, w')
          /\ Cache.cached namespace key fn' t' w'
             = produce_and_store namespace key fn' t' w')
    /\ (forall w', lookup_entry w' namespace key = None ->
                   Cache.get namespace key w' = (inr VNull, w')).
Proof.
  intros Hget Hfn.
  rewrite (cached_miss namespace key fn t w w1 Hget).
  destruct (produce_and_store_ok namespace key fn t w1 w2 VNull Hfn)
    as (w3 & Hrun & Hentry & _).
  exists w3. split; [done|]. split; [done|].
  split; [|intros w'; apply get_absent].
  intros w' fn' t' Hsame Hwithin. rewrite Hentry in Hsame.
  assert (Cache.get namespace key w' = (inr VNull, w')) as Hget'.
  { by apply (get_unexpired namespace key w' _ Hsame). }
  split; [done|]. by apply cached_miss.
Qed.

(** C10 on a concrete run: a producer returning [null] is invoked by the
    first call and again by a second call made at once. *)
Lemma cached_null_result_witness :
  exists w3,
    Cache.cached "ns" "k" (marking_producer VNull) (Some 1000) bare_world = (inr VNull, w3)
    /\ lookup_entry w3 "ns" "k" = Some (mkEntry VNull 0 1000)
    /\ Cache.cached "ns" "k" (marking_producer VNull) (Some 1000) w3
       = produce_and_store "ns" "k" (marking_producer VNull) (Some 1000) w3
    /\ call_count "producer" w3 = 1%nat
    /\ call_count "producer"
         (snd (Cache.cached "ns" "k" (marking_producer VNull) (Some 1000) w3)) = 2%nat.
Proof.
  destruct (cached_null_result_is_never_a_hit "ns" "k" (marking_producer VNull)
              (Some 1000) bare_world bare_world
              (with_event (EvCall "producer") bare_world))
    as (w3 & Hrun & Hentry & Hlater & _); [reflexivity | reflexivity |].
  exists w3. split; [exact Hrun|]. split; [exact Hentry|].
  destruct (Hlater w3 (marking_producer VNull) (Some 1000)) as [_ Hagain].
  - reflexivity.
  - injection Hrun as <-. vm_compute. discriminate.
  - split; [exact Hagain|].
    injection Hrun as <-. split; vm_compute; reflexivity.
Defined.

(** ** The version matcher *)

Section MatcherFacts.
Import Js Matcher.

Lemma split_nonempty (sep : ascii) (s : string) : split sep s <> [].
Proof.
  destruct s as [|c rest]; cbn; [done|].
  destruct (Ascii.eqb c sep); [done|]. by destruct (split sep rest).
Qed.

Lemma string_eqb_true (a b : string) : String.eqb a b = true <-> a = b.
Proof. apply String.eqb_eq. Qed.

(** On a partial pin that is not the current version itself, the
    matcher takes its fifth rule. *)
Lemma matchVersion_partial (current required : string) :
  partial_pin (strip_v required) = true ->
  strip_v current <> strip_v required ->
  matchVersion current required
  = {| matches := isPartialVersionMatch (strip_v current) (strip_v required);
       targetVersion := Some (strip_v required) |}.
Proof.
  unfold partial_pin. intros Hpin Hne.
  apply andb_true_iff in Hpin as [Hpin Hlen].
  apply andb_true_iff in Hpin as [Hop Hrange].
  apply negb_true_iff in Hop, Hrange.
  unfold matchVersion.
  destruct (String.eqb_spec (strip_v current) (strip_v required)); [done|].
  by rewrite Hop, Hrange, Hlen.
Qed.

(** On the current version itself, the first rule answers. *)
Lemma matchVersion_exact (current required : string) :
  strip_v current = strip_v required ->
  matchVersion current required
  = {| matches := true; targetVersion := Some (strip_v required) |}.
Proof.
  intros Heq. unfold matchVersion. rewrite Heq.
  by rewrite String.eqb_refl.
Qed.

(** The target of a partial pin is the pin, match or not. *)
Lemma partial_pin_target (current required : string) :
  partial_pin (strip_v required) = true ->
  targetVersion (matchVersion current required) = Some (strip_v required).
Proof.
  intros Hpin.
  destruct (decide (strip_v current = strip_v required)) as [Heq|Hne].
  - by rewrite matchVersion_exact.
  - by rewrite matchVersion_partial.
Qed.

(** With fewer than three components, [isPartialVersionMatch] compares
    exactly the components that are given. *)
Lemma isPartialVersionMatch_given (full partial : string) :
  (length (split "." partial) < 3)%nat ->
  isPartialVersionMatch full partial = true
  <-> forall (i : nat) (p : string),
        split "." partial !! i = Some p ->
        component (parseVersion full) i = or_else p "0".
Proof.
  intros Hlen. unfold isPartialVersionMatch.
  pose proof (split_nonempty "." partial) as Hne.
  destruct (split "." partial) as [|p0 [|p1 [|p2 ps]]]; [done| | |cbn in Hlen; lia].
  - cbn [length Nat.eqb]. unfold part_or. cbn [lookup list_lookup major].
    rewrite string_eqb_true. split.
    + intros Hm [|i] p Hp; [|done]. by injection Hp as <-.
    + intros Hall. by apply (Hall 0%nat p0).
  - cbn [length Nat.eqb]. unfold part_or. cbn [lookup list_lookup major minor].
    rewrite andb_true_iff, !string_eqb_true. split.
    + intros [Hm0 Hm1] [|[|i]] p Hp; [| |done]; by injection Hp as <-.
    + intros Hall. split; [by apply (Hall 0%nat p0) | by apply (Hall 1%nat p1)].
Qed.

(** [isVersionMatch] after a miss of its entry returns what
    [matchVersion] computes. *)
Lemma isVersionMatch_miss (current required : string) (w w0 : World) :
  Cache.get Cache.NODE_VERSIONS
    ("version_match_" +:+ current +:+ "_" +:+ required) w = (inr VNull, w0) ->
  fst (isVersionMatch current required w) = inr (VMatch (matchVersion current required)).
Proof.
  intros Hget. unfold isVersionMatch.
  rewrite (cached_miss _ _ _ _ w w0 Hget).
  destruct (produce_and_store_ok Cache.NODE_VERSIONS
              ("version_match_" +:+ current +:+ "_" +:+ required)
              (ret (VMatch (matchVersion current required))) (Some (2 * 60 * 1000))
              w0 w0 (VMatch (matchVersion current required)) eq_refl) as (w' & -> & _).
  done.
Qed.

End MatcherFacts.

(** C1, as stated, fails on a spec with fewer than three components
    that begins with a range marker or a comparison operator: "^18" has
    a single dot-separated component, the configuration reader hands it
    on as it is, and it matches "18.2.1", but the target is the current
    version "18.2.1", not the spec; the same holds for ">=18" and
    "~18.2".  It also fails on a spec with an empty component: "18."
    gives the components "18" and "", the empty one is read as "0", so
    that "18." matches "18.0.5" and does not match "18.2.1". *)
Lemma short_range_spec_targets_current_version :
  length (Js.split "." (Js.strip_v "^18")) = 1%nat
  /\ ConfigReader.normalizeVersion "^18" = "^18"
  /\ Matcher.matchVersion "18.2.1" "^18"
     = {| matches := true; targetVersion := Some "18.2.1" |}
  /\ targetVersion (Matcher.matchVersion "18.2.1" "^18") <> Some (Js.strip_v "^18")
  /\ Matcher.matchVersion "18.2.1" ">=18"
     = {| matches := true; targetVersion := Some "18.2.1" |}
  /\ Matcher.matchVersion "18.2.1" "~18.2"
     = {| matches := true; targetVersion := Some "18.2.1" |}
  /\ Js.split "." (Js.strip_v "18.") = ["18"; ""]
  /\ matches (Matcher.matchVersion "18.0.5" "18.") = true
  /\ matches (Matcher.matchVersion "18.2.1" "18.") = false.
Proof. repeat apply conj; vm_compute; congruence. Qed.

(** C1 (amended): for a partial pin (a required spec with fewer than
    three dot-separated components that begins with none of ">=", "<=",
    ">", "<", "=", "^" and "~", so that the comparison and range rules
    do not apply), the target version is the normalized spec itself, and
    unless the spec is the current version letter for letter (where the
    first rule answers with a match), it matches iff every component the
    spec gives (an empty one reading as "0") equals the corresponding
    component of the current version; components the spec does not give
    are not compared.  This is the result of [matchVersion], which
    [isVersionMatch] returns whenever its cache entry misses.  In
    particular "18" matches "18.2.1" with target "18", and "18.3" does
    not match "18.2.1". *)
Theorem partial_pin_match (current required : string) :
  partial_pin (Js.strip_v required) = true ->
  let c := Js.strip_v current in
  let r := Js.strip_v required in
  let result := Matcher.matchVersion current required in
  targetVersion result = Some r
  /\ (c = r -> matches result = true)
  /\ (c <> r ->
      (matches result = true
       <-> forall (i : nat) (p : string),
             Js.split "." r !! i = Some p ->
             component (Matcher.parseVersion c) i = Js.or_else p "0"))
  /\ (forall w w0,
        Cache.get Cache.NODE_VERSIONS
          ("version_match_" +:+ current +:+ "_" +:+ required) w = (inr VNull, w0) ->
        fst (Matcher.isVersionMatch current required w) = inr (VMatch result))
  /\ Matcher.matchVersion "18.2.1" "18" = {| matches := true; targetVersion := Some "18" |}
  /\ matches (Matcher.matchVersion "18.2.1" "18.3") = false.
Proof.
  intros Hpin c r result. subst c r result.
  split; [by apply partial_pin_target|].
  split; [intros Heq; by rewrite matchVersion_exact|].
  split; [|split; [apply isVersionMatch_miss | by vm_compute]].
  intros Hne. rewrite (matchVersion_partial _ _ Hpin Hne). cbn [matches].
  apply isPartialVersionMatch_given.
  unfold partial_pin in Hpin. apply andb_true_iff in Hpin as [_ Hlen].
  by apply Nat.ltb_lt in Hlen.
Qed.

(** C1 (amended) on "18" against "18.2.1": "18" is a partial pin, and
    the theorem gives the match with target "18". *)
Lemma partial_pin_match_witness :
  partial_pin (Js.strip_v "18") = true
  /\ targetVersion (Matcher.matchVersion "18.2.1" "18") = Some "18"
  /\ matches (Matcher.matchVersion "18.2.1" "18") = true.
Proof.
  split; [reflexivity|].
  destruct (partial_pin_match "18.2.1" "18") as (Htarget & _ & Hiff & _); [reflexivity|].
  split; [exact Htarget|].
  apply Hiff; [discriminate|].
  intros [|[|i]] p Hp; vm_compute in Hp; try discriminate.
  injection Hp as <-. reflexivity.
Defined.

(** C9, as stated, fails on a spec that begins with a range marker or
    a comparison operator: "^18" and ">=18" have a single dot-separated
    component, yet when they do not match the current version the
    result carries no target. *)
Lemma range_spec_without_match_has_no_target :
  length (Js.split "." (Js.strip_v "^18")) = 1%nat
  /\ Matcher.matchVersion "17.0.0" "^18" = {| matches := false; targetVersion := None |}
  /\ targetVersion (Matcher.matchVersion "17.0.0" "^18") <> Some (Js.strip_v "^18")
  /\ length (Js.split "." (Js.strip_v ">=18")) = 1%nat
  /\ Matcher.matchVersion "16.0.0" ">=18" = {| matches := false; targetVersion := None |}.
Proof. repeat apply conj; vm_compute; congruence. Qed.

(** C9 (amended): for a required spec with fewer than three
    dot-separated components that begins with none of ">=", "<=", ">",
    "<", "=", "^" and "~" (a partial pin; the alias tokens "lts",
    "stable" and "latest" are such specs), the result carries the
    normalized spec as its target even when it does not match: "18.3"
    against "18.2.1" gives no match with target "18.3", and "lts"
    against "18.17.0" gives no match with target "lts". *)
Theorem partial_pin_target_without_match (current required : string) :
  partial_pin (Js.strip_v required) = true ->
  (matches (Matcher.matchVersion current required) = false ->
   targetVersion (Matcher.matchVersion current required) = Some (Js.strip_v required))
  /\ Forall (fun alias => partial_pin (Js.strip_v alias) = true) ["lts"; "stable"; "latest"]
  /\ Matcher.matchVersion "18.2.1" "18.3"
     = {| matches := false; targetVersion := Some "18.3" |}
  /\ Matcher.matchVersion "18.17.0" "lts"
     = {| matches := false; targetVersion := Some "lts" |}.
Proof.
  intros Hpin.
  split; [intros _; by apply partial_pin_target|].
  split; [|by vm_compute].
  repeat constructor.
Qed.

(** C9 (amended) at the alias "lts". *)
Lemma partial_pin_target_without_match_witness :
  partial_pin (Js.strip_v "lts") = true
  /\ matches (Matcher.matchVersion "18.17.0" "lts") = false
  /\ targetVersion (Matcher.matchVersion "18.17.0" "lts") = Some "lts".
Proof.
  split; [reflexivity|]. split; [reflexivity|].
  destruct (partial_pin_target_without_match "18.17.0" "lts") as [Htarget _];
    [reflexivity | apply Htarget; reflexivity].
Defined.

Section NumberFacts.
Import Js.

(** Below 2^53 nothing is cut off. *)
Lemma round_pos_small (a : Z) : 0 <= a < 2 ^ 53 -> round_pos a = a.
Proof.
  intros [H0 H]. unfold round_pos.
  destruct (Z.eq_dec a 0) as [->|Hne]; [reflexivity|].
  assert (Z.log2 a < 53) by (apply Z.log2_lt_pow2; lia).
  destruct (Z.leb_spec (Z.log2 a - 52) 0); [reflexivity | lia].
Qed.

(** Rounding keeps the leading bit or carries beyond it. *)
Lemma round_pos_lower (a : Z) : 0 < a -> 2 ^ Z.log2 a <= round_pos a.
Proof.
  intros Ha. unfold round_pos.
  pose proof (Z.log2_spec a Ha) as [Hlo Hhi].
  destruct (Z.leb_spec (Z.log2 a - 52) 0) as [He|He]; [lia|].
  set (e := Z.log2 a - 52) in *.
  assert (0 < 2 ^ e) by (apply Z.pow_pos_nonneg; lia).
  assert (2 ^ Z.log2 a = 2 ^ 52 * 2 ^ e) as Hpow.
  { rewrite <- Z.pow_add_r by lia. f_equal. lia. }
  assert (2 ^ 52 <= a / 2 ^ e) as Hq.
  { apply Z.div_le_lower_bound; lia. }
  destruct (_ || _); nia.
Qed.

Lemma round_pos_pos (a : Z) : 0 < a -> 0 < round_pos a.
Proof.
  intros Ha. pose proof (round_pos_lower a Ha).
  assert (0 < 2 ^ Z.log2 a) by (apply Z.pow_pos_nonneg; [lia | apply Z.log2_nonneg]).
  lia.
Qed.

(** An integer below 2^53 in magnitude is its own number value. *)
Lemma to_number_exact (z : Z) : Z.abs z < 2 ^ 53 -> to_number z = Num z.
Proof.
  intros Hz. unfold to_number.
  rewrite round_pos_small by lia.
  destruct (Z.leb_spec (2 ^ 1024) (Z.abs z)) as [Hbig|_].
  - assert (2 ^ 53 < 2 ^ 1024) by (apply Z.pow_lt_mono_r; lia). lia.
  - f_equal. lia.
Qed.

(** Rounding is symmetric about zero. *)
Lemma to_number_opp (z : Z) :
  to_number (- z)
  = match to_number z with
    | NaN => NaN
    | Infinity negative => Infinity (negb negative)
    | Num x => Num (- x)
    end.
Proof.
  unfold to_number. rewrite Z.abs_opp.
  destruct (Z.leb_spec (2 ^ 1024) (round_pos (Z.abs z))) as [Hbig|Hsmall].
  - f_equal.
    assert (z <> 0) as Hz.
    { intros ->. change (round_pos (Z.abs 0)) with 0 in Hbig.
      assert (0 < 2 ^ 1024) by (apply Z.pow_pos_nonneg; lia). lia. }
    destruct (Z.ltb_spec (- z) 0), (Z.ltb_spec z 0); try reflexivity; lia.
  - f_equal. rewrite Z.sgn_opp. lia.
Qed.

(** Rounding keeps the sign: only zero rounds to zero. *)
Lemma to_number_sign (z : Z) : sign_of (to_number z) = Some (z ?= 0).
Proof.
  unfold to_number.
  destruct (Z.eq_dec z 0) as [->|Hne]; [reflexivity|].
  pose proof (round_pos_pos (Z.abs z) ltac:(lia)) as Hpos.
  destruct (Z.leb_spec (2 ^ 1024) (round_pos (Z.abs z))); cbn [sign_of].
  - f_equal. destruct (Z.ltb_spec z 0), (Z.compare_spec z 0); try reflexivity; lia.
  - f_equal.
    destruct (Z.compare_spec z 0), (Z.compare_spec (Z.sgn z * round_pos (Z.abs z)) 0);
      try reflexivity; nia.
Qed.

Lemma to_number_not_NaN (z : Z) : to_number z <> NaN.
Proof. unfold to_number. by destruct (_ <=? _). Qed.

(** What rounding does above 2^53: the result is one of the two
    neighbouring multiples of the unit in the last place, at most half
    a unit away. *)
Lemma round_pos_cases (a : Z) :
  2 ^ 53 <= a ->
  let e := Z.log2 a - 52 in
  let q := a / 2 ^ e in
  0 < e /\ 2 ^ 52 <= q < 2 ^ 53 /\ q * 2 ^ e <= a < (q + 1) * 2 ^ e
  /\ (round_pos a = q * 2 ^ e \/ round_pos a = (q + 1) * 2 ^ e)
  /\ 2 * Z.abs (round_pos a - a) <= 2 ^ e.
Proof.
  intros Ha. cbv zeta.
  assert (0 < a) as Hpos by (assert (0 < 2 ^ 53) by (apply Z.pow_pos_nonneg; lia); lia).
  pose proof (Z.log2_spec a Hpos) as [Hlo Hhi].
  assert (53 <= Z.log2 a) as Hn by (apply Z.log2_le_pow2; lia).
  set (e := Z.log2 a - 52) in *.
  assert (0 < e) as He by lia.
  assert (0 < 2 ^ e) as Hpe by (apply Z.pow_pos_nonneg; lia).
  assert (2 ^ Z.log2 a = 2 ^ 52 * 2 ^ e) as Hpow.
  { rewrite <- Z.pow_add_r by lia. f_equal. lia. }
  assert (2 ^ Z.succ (Z.log2 a) = 2 ^ 53 * 2 ^ e) as Hpow'.
  { rewrite <- Z.pow_add_r by lia. f_equal. lia. }
  assert (2 ^ e = 2 * 2 ^ (e - 1)) as Hhalf.
  { replace e with (Z.succ (e - 1)) at 1 by lia. apply Z.pow_succ_r. lia. }
  pose proof (Z.div_mod a (2 ^ e) ltac:(lia)) as Hdm.
  pose proof (Z.mod_pos_bound a (2 ^ e) Hpe) as Hr.
  set (q := a / 2 ^ e) in *. set (r := a mod 2 ^ e) in *.
  assert (2 ^ 52 <= q) as Hq1 by (apply Z.div_le_lower_bound; lia).
  assert (q < 2 ^ 53) as Hq2 by (apply Z.div_lt_upper_bound; lia).
  split; [exact He|]. split; [lia|]. split; [nia|].
  unfold round_pos. fold e. destruct (Z.leb_spec e 0); [lia|].
  fold q r.
  destruct (Z.ltb_spec (2 ^ (e - 1)) r) as [Hgt|Hle]; cbn [orb].
  - split; [right; reflexivity | nia].
  - destruct (Z.eqb_spec r (2 ^ (e - 1))) as [Heq|Hne]; cbn [andb].
    + destruct (Z.odd q); [split; [right; reflexivity | nia] | split; [left; reflexivity | nia]].
    + split; [left; reflexivity | nia].
Qed.

Lemma is_double_opp (m : Z) : is_double m -> is_double (- m).
Proof.
  intros (q & e & He & Hq & ->). exists (- q), e.
  split; [exact He|]. split; [rewrite Z.abs_opp; exact Hq | lia].
Qed.

Lemma round_pos_is_double (a : Z) : 0 <= a -> is_double (round_pos a).
Proof.
  intros Ha. destruct (Z.lt_ge_cases a (2 ^ 53)) as [Hsmall|Hbig].
  - unfold round_pos.
    destruct (Z.eq_dec a 0) as [->|Hne].
    { exists 0, 0. split; [lia|]. split; [reflexivity | reflexivity]. }
    assert (Z.log2 a < 53) by (apply Z.log2_lt_pow2; lia).
    destruct (Z.leb_spec (Z.log2 a - 52) 0); [|lia].
    exists a, 0. split; [lia|]. split; [lia | cbn; lia].
  - destruct (round_pos_cases a Hbig) as (He & [Hq1 Hq2] & _ & [-> | ->] & _).
    + eexists _, _. split; [|split; [|reflexivity]]; lia.
    + set (e := Z.log2 a - 52) in *. set (q := a / 2 ^ e) in *.
      destruct (Z.eq_dec (q + 1) (2 ^ 53)) as [Heq|Hne].
      * exists (2 ^ 52), (e + 1). split; [lia|]. split; [reflexivity|].
        rewrite Heq, Z.pow_add_r by lia. change (2 ^ 53) with (2 ^ 52 * 2). lia.
      * exists (q + 1), e. split; [lia|]. split; [lia | reflexivity].
Qed.

(** No double lies strictly between two neighbouring multiples of the
    unit in the last place. *)
Lemma no_double_between (a m' : Z) :
  2 ^ 53 <= a ->
  let e := Z.log2 a - 52 in
  let q := a / 2 ^ e in
  is_double m' -> ~ (q * 2 ^ e < m' < (q + 1) * 2 ^ e).
Proof.
  intros Ha e q (q' & e' & He' & Hq' & ->) [Hlo Hhi].
  destruct (round_pos_cases a Ha) as (He & [Hq1 Hq2] & _).
  fold e q in He, Hq1, Hq2.
  assert (0 < 2 ^ e) as Hpe by (apply Z.pow_pos_nonneg; lia).
  assert (0 < 2 ^ e') as Hpe' by (apply Z.pow_pos_nonneg; lia).
  assert (0 < q') as Hq'pos by nia.
  destruct (Z.lt_ge_cases e' e) as [Hlt|Hge].
  - assert (2 ^ e = 2 ^ e' * 2 ^ (e - e')) as Hsplit.
    { rewrite <- Z.pow_add_r by lia. f_equal. lia. }
    assert (2 <= 2 ^ (e - e')) as Htwo.
    { change 2 with (2 ^ 1) at 1. apply Z.pow_le_mono_r; lia. }
    rewrite Hsplit in Hlo. nia.
  - assert (2 ^ e' = 2 ^ e * 2 ^ (e' - e)) as Hsplit.
    { rewrite <- Z.pow_add_r by lia. f_equal. lia. }
    rewrite Hsplit in Hlo, Hhi.
    assert (q < q' * 2 ^ (e' - e) < q + 1); [|lia].
    split; nia.
Qed.

(** The rounded value is a double, and no double is nearer. *)
Lemma round_pos_nearest (a : Z) : 0 <= a -> nearest_double a (round_pos a).
Proof.
  intros Ha. split; [apply round_pos_is_double; exact Ha|].
  intros m' Hm'. destruct (Z.lt_ge_cases a (2 ^ 53)) as [Hsmall|Hbig].
  - assert (round_pos a = a) as ->; [|lia].
    unfold round_pos. destruct (Z.eq_dec a 0) as [->|Hne]; [reflexivity|].
    assert (Z.log2 a < 53) by (apply Z.log2_lt_pow2; lia).
    destruct (Z.leb_spec (Z.log2 a - 52) 0); [reflexivity|lia].
  - destruct (round_pos_cases a Hbig) as (He & _ & Hbetween & Hround & Hhalf).
    pose proof (no_double_between a m' Hbig Hm') as Hnone. cbv zeta in Hnone.
    set (e := Z.log2 a - 52) in *. set (q := a / 2 ^ e) in *.
    destruct Hround as [Hr | Hr]; rewrite Hr in *; lia.
Qed.

(** A number value that is not an infinity is the nearest double. *)
Lemma to_number_nearest (z m : Z) :
  to_number z = Num m -> nearest_double z m /\ Z.abs m < 2 ^ 1024.
Proof.
  unfold to_number.
  destruct (Z.leb_spec (2 ^ 1024) (round_pos (Z.abs z))) as [|Hfin]; [discriminate|].
  intros [= <-].
  destruct (round_pos_nearest (Z.abs z) (Z.abs_nonneg z)) as [Hd Hnear].
  assert (0 <= round_pos (Z.abs z)) as Hpos.
  { destruct (Z.eq_dec z 0) as [->|Hne]; [reflexivity|].
    pose proof (round_pos_lower (Z.abs z) ltac:(lia)).
    assert (0 < 2 ^ Z.log2 (Z.abs z))
      by (apply Z.pow_pos_nonneg; [lia | apply Z.log2_nonneg]).
    lia. }
  destruct (Z.lt_trichotomy z 0) as [Hneg | [-> | Hposz]].
  - rewrite Z.sgn_neg by exact Hneg.
    assert (Z.abs z = - z) as Habs by lia. rewrite Habs in *.
    split; [|lia]. split.
    + replace (-1 * round_pos (- z)) with (- round_pos (- z)) by lia.
      apply is_double_opp, Hd.
    + intros m' Hm'. pose proof (Hnear (- m') (is_double_opp m' Hm')). lia.
  - cbn. split; [|reflexivity]. split.
    + exists 0, 0. split; [lia|]. split; reflexivity.
    + intros m' _. lia.
  - rewrite Z.sgn_pos by exact Hposz.
    assert (Z.abs z = z) as Habs by lia. rewrite Habs in *.
    split; [|lia]. split.
    + replace (1 * round_pos z) with (round_pos z) by lia. exact Hd.
    + intros m' Hm'. pose proof (Hnear m' Hm'). lia.
Qed.

(** The number value is an infinity from 2^1024 - 2^970 on. *)
Lemma to_number_overflow (z : Z) :
  to_number z = Infinity (z <? 0) <-> 2 ^ 1024 - 2 ^ 970 <= Z.abs z.
Proof.
  unfold to_number. set (a := Z.abs z).
  assert (0 <= a) as Ha by apply Z.abs_nonneg.
  assert (2 ^ 1024 <= round_pos a <-> 2 ^ 1024 - 2 ^ 970 <= a) as Hiff.
  { destruct (Z.lt_ge_cases a (2 ^ 53)) as [Hsmall|Hbig].
    { rewrite round_pos_small by lia.
      assert (2 ^ 53 < 2 ^ 1024 - 2 ^ 970) by (vm_compute; reflexivity). lia. }
    destruct (round_pos_cases a Hbig) as (He & [Hq1 Hq2] & [Hlo Hhi] & Hround & Hhalf).
    assert (0 < a) as Hpos by lia.
    pose proof (Z.log2_spec a Hpos) as [Hl1 Hl2].
    set (e := Z.log2 a - 52) in *. set (q := a / 2 ^ e) in *.
    assert (0 < 2 ^ e) as Hpe by (apply Z.pow_pos_nonneg; lia).
    split.
    - intros Hinf.
      destruct (Z.lt_ge_cases a (2 ^ 1024 - 2 ^ 970)) as [Hlt|]; [exfalso | assumption].
      assert (Z.log2 a < 1024) as Hlog.
      { apply Z.log2_lt_pow2; [lia|].
        assert (0 < 2 ^ 970) by (apply Z.pow_pos_nonneg; lia). lia. }
      assert (2 ^ e <= 2 ^ 971) as Hule by (apply Z.pow_le_mono_r; lia).
      change (2 ^ 971) with (2 * 2 ^ 970) in Hule.
      destruct Hround as [Hr|Hr]; rewrite Hr in *; lia.
    - intros Hge.
      destruct (Z.lt_ge_cases (Z.log2 a) 1024) as [Hlog|Hlog].
      + assert (2 ^ 1023 <= a).
        { assert (2 ^ 1023 <= 2 ^ 1024 - 2 ^ 970) by (vm_compute; discriminate). lia. }
        assert (1023 <= Z.log2 a) by (apply Z.log2_le_pow2; lia).
        assert (e = 971) as Hev by lia.
        unfold round_pos. fold e. fold q.
        destruct (Z.leb_spec e 0); [lia|].
        pose proof (Z.div_mod a (2 ^ e) ltac:(lia)) as Hdm.
        pose proof (Z.mod_pos_bound a (2 ^ e) Hpe) as Hrb.
        fold q in Hdm. set (r := a mod 2 ^ e) in *.
        rewrite Hev in *.
        change (2 ^ (971 - 1)) with (2 ^ 970).
        assert (2 ^ 1024 = 2 ^ 53 * 2 ^ 971) as H1024 by (vm_compute; reflexivity).
        assert (2 ^ 971 = 2 * 2 ^ 970) as H971 by (vm_compute; reflexivity).
        assert (0 < 2 ^ 970) by (vm_compute; reflexivity).
        assert (q = 2 ^ 53 - 1) as Hq by nia.
        assert (2 ^ 970 <= r) as Hr by nia.
        destruct (Z.ltb_spec (2 ^ 970) r); cbn [orb]; [nia|].
        destruct (Z.eqb_spec r (2 ^ 970)); [|lia]. cbn [andb].
        rewrite Hq. change (Z.odd (2 ^ 53 - 1)) with true. cbv iota. nia.
      + pose proof (round_pos_lower a Hpos).
        assert (2 ^ 1024 <= 2 ^ Z.log2 a) by (apply Z.pow_le_mono_r; lia). lia. }
  destruct (Z.leb_spec (2 ^ 1024) (round_pos a)) as [Hinf|Hfin].
  - split; [intros _; apply Hiff; exact Hinf | reflexivity].
  - split; [discriminate | intros Hge; apply Hiff in Hge; lia].
Qed.

(** The sign of a difference of two integers is their comparison. *)
Lemma sub_sign (x y : Z) : sign_of (sub (Num x) (Num y)) = Some (x ?= y).
Proof. cbn [sub]. by rewrite to_number_sign, <- Z.compare_sub. Qed.

(** Exchanging the operands of a subtraction changes the sign of the
    result. *)
Lemma sub_swap (a b : number) :
  sub b a
  = match sub a b with
    | NaN => NaN
    | Infinity negative => Infinity (negb negative)
    | Num d => Num (- d)
    end.
Proof.
  destruct a as [|s|x], b as [|t|y]; cbn [sub]; try reflexivity.
  - by destruct s, t.
  - by rewrite negb_involutive.
  - replace (y - x) with (- (x - y)) by lia. apply to_number_opp.
Qed.

Lemma strict_neq_sym (a b : number) : strict_neq b a = strict_neq a b.
Proof.
  destruct a as [|s|x], b as [|t|y]; cbn; try reflexivity.
  - by destruct s, t.
  - by rewrite Z.eqb_sym.
Qed.

(** Two numbers that are not [!==] are the same number, and not [NaN]. *)
Lemma strict_neq_false (a b : number) : strict_neq a b = false <-> a = b /\ a <> NaN.
Proof.
  destruct a as [|s|x], b as [|t|y]; cbn; try (split; [done | intros [? ?]; congruence]).
  - destruct s, t; cbn; split; try done; intros [? _]; congruence.
  - rewrite negb_false_iff, Z.eqb_eq. split; [by intros -> | intros [[= ->] _]; done].
Qed.

Lemma sub_NaN_iff (a b : number) :
  sub a b = NaN
  <-> a = NaN \/ b = NaN \/ exists negative, a = Infinity negative /\ b = Infinity negative.
Proof.
  destruct a as [|s|x], b as [|t|y]; cbn [sub].
  - split; [auto | done].
  - split; [auto | done].
  - split; [auto | done].
  - split; [auto | done].
  - destruct s, t; cbn; split; try done; eauto.
    all: intros [?|[?|(? & ? & ?)]]; congruence.
  - split; [done | intros [?|[?|(? & ? & ?)]]; congruence].
  - split; [auto | done].
  - split; [done | intros [?|[?|(? & ? & ?)]]; congruence].
  - split; [intros H; by destruct (to_number_not_NaN _ H)|].
    intros [?|[?|(? & ? & ?)]]; congruence.
Qed.

Lemma strict_neq_refl (a : number) : strict_neq a a = true -> a = NaN.
Proof.
  destruct a as [|s|x]; cbn; [done | by destruct s | by rewrite Z.eqb_refl].
Qed.

(** Where [!==] holds, the difference is [NaN] only for a [NaN]
    operand. *)
Lemma sub_NaN_neq (a b : number) :
  strict_neq a b = true -> sub a b = NaN <-> a = NaN \/ b = NaN.
Proof.
  intros Hneq. rewrite sub_NaN_iff. split.
  - intros [H|[H|(s & -> & ->)]]; [by left | by right |].
    by apply strict_neq_refl in Hneq.
  - intros [H|H]; [by left | by right; left].
Qed.

(** The first difference of three pairs of numbers. *)
Lemma first_difference_NaN_iff (M1 M2 m1 m2 p1 p2 : number) :
  (if strict_neq M1 M2 then sub M1 M2
   else if strict_neq m1 m2 then sub m1 m2 else sub p1 p2) = NaN
  <-> (M1 = NaN \/ M2 = NaN)
      \/ (M1 = M2
          /\ ((m1 = NaN \/ m2 = NaN)
              \/ (m1 = m2
                  /\ (p1 = NaN \/ p2 = NaN
                      \/ exists negative,
                           p1 = Infinity negative /\ p2 = Infinity negative)))).
Proof.
  destruct (strict_neq M1 M2) eqn:HM.
  { rewrite (sub_NaN_neq _ _ HM). split; [by left|].
    intros [H|[-> _]]; [done|]. left. by apply strict_neq_refl in HM. }
  apply strict_neq_false in HM as [-> HM].
  destruct (strict_neq m1 m2) eqn:Hm.
  { rewrite (sub_NaN_neq _ _ Hm). split.
    - intros H. right. split; [done|]. by left.
    - intros [[H|H]|[_ [H|[-> _]]]]; [done | done | done |].
      left. by apply strict_neq_refl in Hm. }
  apply strict_neq_false in Hm as [-> Hm].
  rewrite sub_NaN_iff. split.
  - intros H. right. split; [done|]. right. by split.
  - intros [[H|H]|[_ [[H|H]|[_ H]]]]; done.
Qed.

(** The model of the number value and of subtraction agrees with the
    binary64 arithmetic of the Standard Library on integers around
    every threshold: zero, 2^53 and its first ties, and the overflow at
    2^1024. *)
Lemma to_number_agrees_with_binary64 :
  Forall (fun z => to_number z = of_spec_float (binary64_of_Z z)
                   /\ to_number (- z) = of_spec_float (binary64_of_Z (- z)))
    [0; 1; 18; 2 ^ 53 - 1; 2 ^ 53; 2 ^ 53 + 1; 2 ^ 53 + 2; 2 ^ 53 + 3; 2 ^ 54 + 2;
     2 ^ 54 + 6; 2 ^ 64 + 2 ^ 11; 2 ^ 64 + 2 ^ 11 + 1; 10 ^ 21 + 1; 10 ^ 30;
     2 ^ 1024 - 2 ^ 971; 2 ^ 1024 - 2 ^ 970 - 1; 2 ^ 1024 - 2 ^ 970; 2 ^ 1024; 10 ^ 400]
  /\ Forall (fun xy => sub (to_number (fst xy)) (to_number (snd xy))
                       = of_spec_float (binary64_sub (fst xy) (snd xy)))
       [(18, 17); (17, 18); (2 ^ 53, 1); (2 ^ 53, -1); (2 ^ 53 + 2, -1);
        (2 ^ 60, 2 ^ 53 + 3); (2 ^ 1023, - 2 ^ 1023); (- 2 ^ 1023, 2 ^ 1023);
        (10 ^ 400, 1); (1, 10 ^ 400); (10 ^ 400, - 10 ^ 400)].
Proof. split; repeat constructor; vm_compute; reflexivity. Qed.

End NumberFacts.

Section ParsingFacts.
Import Js Matcher.

Lemma digit_not_white (c : ascii) : is_digit c = true -> is_white c = false.
Proof.
  unfold is_digit, is_white. intros Hd.
  apply andb_true_iff in Hd as [Hlo Hhi].
  apply Nat.leb_le in Hlo, Hhi.
  destruct (Nat.leb_spec (code c) 13); [lia|].
  destruct (Nat.eqb_spec (code c) 32); [lia|].
  destruct (Nat.eqb_spec (code c) 160); [lia|].
  by rewrite andb_false_r.
Qed.

Lemma digit_not_sign (c : ascii) :
  is_digit c = true -> Ascii.eqb c "-" = false /\ Ascii.eqb c "+" = false.
Proof.
  intros Hd. split.
  - destruct (Ascii.eqb_spec c "-") as [->|]; [by vm_compute in Hd|done].
  - destruct (Ascii.eqb_spec c "+") as [->|]; [by vm_compute in Hd|done].
Qed.

(** Reading goes through a run of digits and accumulates its value. *)
Lemma digits_app (ds rest : string) (acc : Z) (seen : bool) :
  all_digits ds = true ->
  digits (ds +:+ rest) acc seen
  = digits rest (decimal_from acc ds) (seen || negb (is_empty ds)).
Proof.
  revert acc seen. induction ds as [|c ds IH]; intros acc seen Hall.
  - rewrite app_empty_l. cbn. by rewrite orb_false_r.
  - cbn in Hall. apply andb_true_iff in Hall as [Hc Hds].
    rewrite app_cons. cbn [digits decimal_from is_empty negb].
    rewrite Hc, (IH _ _ Hds). by rewrite orb_true_r.
Qed.

(** Reading stops at anything that is not a digit. *)
Lemma digits_stop (rest : string) (acc : Z) (seen : bool) :
  starts_with_digit rest = false ->
  digits rest acc seen = if seen then Some acc else None.
Proof. destruct rest as [|c rest]; [done|]. cbn. by intros ->. Qed.

(** Once a digit has been read, there is a result. *)
Lemma digits_seen (s : string) (acc : Z) : is_Some (digits s acc true).
Proof.
  revert acc. induction s as [|c s IH]; intros acc; [by eexists|].
  cbn. destruct (is_digit c); [apply IH | by eexists].
Qed.

(** Reading a run of digits accumulates its decimal value. *)
Lemma digits_all (s : string) (acc : Z) (seen : bool) :
  all_digits s = true ->
  digits s acc seen
  = if seen || negb (is_empty s) then Some (decimal_from acc s) else None.
Proof.
  intros Hall. rewrite <- (app_empty_r s) at 1. rewrite (digits_app _ _ _ _ Hall).
  done.
Qed.

Lemma trimStart_app_white (ws t : string) :
  all_white ws = true -> trimStart (ws +:+ t) = trimStart t.
Proof.
  induction ws as [|c ws IH]; [done|]. cbn.
  intros H. apply andb_true_iff in H as [Hc Hws].
  rewrite app_cons. cbn. by rewrite Hc, IH.
Qed.

(** A string is white space followed by what [trimStart] leaves, and
    that does not begin with white space. *)
Lemma trimStart_split (s : string) :
  exists ws, all_white ws = true /\ s = ws +:+ trimStart s
             /\ match trimStart s with
                | String c _ => is_white c = false
                | EmptyString => True
                end.
Proof.
  induction s as [|c s (ws & Hws & Hs & Hhead)]; [by exists ""|].
  cbn [trimStart]. destruct (is_white c) eqn:Hc.
  - exists (String c ws). split; [cbn; by rewrite Hc|].
    split; [rewrite app_cons; by f_equal | done].
  - by exists "".
Qed.

(** [parseInt] reads white space, an optional sign and the longest run
    of digits, and ignores the rest. *)
Lemma parseInt_numeral (ws sign ds rest : string) :
  all_white ws = true -> is_sign sign ->
  all_digits ds = true -> ds <> "" ->
  starts_with_digit rest = false ->
  parseInt (ws +:+ sign +:+ ds +:+ rest) = to_number (signed sign (decimal ds)).
Proof.
  intros Hws Hsign Hds Hne Hrest. unfold parseInt.
  rewrite (trimStart_app_white _ _ Hws).
  assert (digits (ds +:+ rest) 0 false = Some (decimal ds)) as Hread.
  { rewrite (digits_app _ _ _ _ Hds), (digits_stop _ _ _ Hrest).
    by rewrite (is_empty_false _ Hne). }
  destruct Hsign as [-> | [-> | ->]].
  - rewrite app_empty_l. destruct ds as [|d ds']; [done|].
    pose proof Hds as Hd. cbn in Hd. apply andb_true_iff in Hd as [Hd _].
    rewrite app_cons. cbn [trimStart]. rewrite (digit_not_white d Hd).
    destruct (digit_not_sign d Hd) as [-> ->].
    rewrite <- app_cons. by rewrite Hread.
  - change ("+" +:+ ds +:+ rest) with (String "+" (ds +:+ rest)).
    cbn [trimStart]. change (is_white "+") with false. cbv iota.
    change (Ascii.eqb "+" "-") with false. change (Ascii.eqb "+" "+") with true.
    cbv iota. by rewrite Hread.
  - change ("-" +:+ ds +:+ rest) with (String "-" (ds +:+ rest)).
    cbn [trimStart]. change (is_white "-") with false. cbv iota.
    change (Ascii.eqb "-" "-") with true. cbv iota. by rewrite Hread.
Qed.

(** [parseInt] gives [NaN] exactly when, past the white space and an
    optional sign, there is no digit. *)
Lemma parseInt_NaN_iff (s : string) : parseInt s = NaN <-> ~ numeric_head s.
Proof.
  split.
  - intros Hnan (ws & sign & d & rest & Hws & Hsign & Hd & ->).
    revert Hnan. unfold parseInt. rewrite (trimStart_app_white _ _ Hws).
    destruct (digits_seen rest (10 * 0 + digit_val d)) as [z Hz].
    destruct Hsign as [-> | [-> | ->]].
    + rewrite app_empty_l. cbn [trimStart]. rewrite (digit_not_white d Hd).
      destruct (digit_not_sign d Hd) as [-> ->].
      cbn [digits]. rewrite Hd, Hz. apply to_number_not_NaN.
    + change ("+" +:+ String d rest) with (String "+" (String d rest)).
      cbn [trimStart]. change (is_white "+") with false. cbv iota.
      change (Ascii.eqb "+" "-") with false. change (Ascii.eqb "+" "+") with true.
      cbv iota. cbn [digits]. rewrite Hd, Hz. apply to_number_not_NaN.
    + change ("-" +:+ String d rest) with (String "-" (String d rest)).
      cbn [trimStart]. change (is_white "-") with false. cbv iota.
      change (Ascii.eqb "-" "-") with true. cbv iota.
      cbn [digits]. rewrite Hd, Hz. apply to_number_not_NaN.
  - intros Hnone. unfold parseInt.
    destruct (trimStart_split s) as (ws & Hws & Hs & Hhead).
    destruct (trimStart s) as [|c rest]; [done|].
    assert (forall sign, is_sign sign -> forall t, String c rest = sign +:+ t ->
              starts_with_digit t = false) as Hno.
    { intros sign Hsign t Ht. destruct t as [|d t']; [done|]. cbn.
      apply not_true_is_false. intros Hd. apply Hnone.
      exists ws, sign, d, t'. rewrite Hs, Ht. done. }
    destruct (Ascii.eqb_spec c "-") as [->|Hminus].
    { rewrite (digits_stop rest 0 false); [done|].
      apply (Hno "-"); [right; by right | done]. }
    destruct (Ascii.eqb_spec c "+") as [->|Hplus].
    { rewrite (digits_stop rest 0 false); [done|].
      apply (Hno "+"); [right; by left | done]. }
    rewrite (digits_stop (String c rest) 0 false); [done|].
    apply (Hno ""); [by left | done].
Qed.

(** On integer components [compareVersions] is the first difference,
    whose sign is the lexicographic comparison of the triples. *)
Lemma compareVersions_numeric (v1 v2 : ParsedVersion) (a1 b1 c1 a2 b2 c2 : Z) :
  parseInt (major v1) = Num a1 -> parseInt (minor v1) = Num b1 ->
  parseInt (patch v1) = Num c1 ->
  parseInt (major v2) = Num a2 -> parseInt (minor v2) = Num b2 ->
  parseInt (patch v2) = Num c2 ->
  sign_of (compareVersions v1 v2) = Some (lex_compare (a1, b1, c1) (a2, b2, c2)).
Proof.
  intros Ha1 Hb1 Hc1 Ha2 Hb2 Hc2. unfold compareVersions, lex_compare.
  rewrite Ha1, Hb1, Hc1, Ha2, Hb2, Hc2. cbn [strict_neq].
  destruct (Z.eqb_spec a1 a2) as [->|Ha]; cbn [negb].
  - rewrite Z.compare_refl.
    destruct (Z.eqb_spec b1 b2) as [->|Hb]; cbn [negb].
    + rewrite Z.compare_refl. apply sub_sign.
    + rewrite sub_sign. by destruct (Z.compare_spec b1 b2).
  - rewrite sub_sign. by destruct (Z.compare_spec a1 a2).
Qed.

(** The comparison is [NaN] exactly when a component that is not a
    number is reached before a difference is found, or when no
    difference is found and the patch components are the same
    infinity. *)
Lemma compareVersions_NaN_iff (v1 v2 : ParsedVersion) :
  compareVersions v1 v2 = NaN
  <-> (parseInt (major v1) = NaN \/ parseInt (major v2) = NaN)
      \/ (parseInt (major v1) = parseInt (major v2)
          /\ ((parseInt (minor v1) = NaN \/ parseInt (minor v2) = NaN)
              \/ (parseInt (minor v1) = parseInt (minor v2)
                  /\ (parseInt (patch v1) = NaN \/ parseInt (patch v2) = NaN
                      \/ exists negative,
                           parseInt (patch v1) = Infinity negative
                           /\ parseInt (patch v2) = Infinity negative)))).
Proof. apply first_difference_NaN_iff. Qed.


End ParsingFacts.

Section SplitFacts.
Import Js Matcher.

Lemma split_dot_free (s : string) : dot_free s = true -> split "." s = [s].
Proof.
  induction s as [|c rest IH]; [done|]. cbn.
  intros H. apply andb_true_iff in H as [Hc Hrest].
  apply negb_true_iff in Hc. rewrite Hc, (IH Hrest). done.
Qed.

Lemma split_app_dot (s rest : string) :
  dot_free s = true -> split "." (s +:+ "." +:+ rest) = s :: split "." rest.
Proof.
  induction s as [|c s' IH]; [done|].
  intros H. cbn in H. apply andb_true_iff in H as [Hc Hs'].
  apply negb_true_iff in Hc.
  change (String c s' +:+ "." +:+ rest) with (String c (s' +:+ "." +:+ rest)).
  cbn [split]. by rewrite Hc, (IH Hs').
Qed.

(** Splitting undoes joining with dots. *)
Lemma split_concat (p : string) (ps : list string) :
  Forall (fun q => dot_free q = true) (p :: ps) ->
  split "." (String.concat "." (p :: ps)) = p :: ps.
Proof.
  revert p. induction ps as [|q qs IH]; intros p Hall.
  - cbn. apply split_dot_free. by inversion Hall.
  - inversion Hall as [|? ? Hp Hrest]; subst.
    change (String.concat "." (p :: q :: qs))
      with (p +:+ "." +:+ String.concat "." (q :: qs)).
    by rewrite (split_app_dot _ _ Hp), (IH q Hrest).
Qed.

Lemma strip_v_concat (p : string) (ps : list string) :
  strip_v (String.concat "." (p :: ps)) = String.concat "." (strip_v p :: ps).
Proof.
  destruct ps as [|q qs]; [done|].
  change (String.concat "." (p :: q :: qs))
    with (p +:+ "." +:+ String.concat "." (q :: qs)).
  change (String.concat "." (strip_v p :: q :: qs))
    with (strip_v p +:+ "." +:+ String.concat "." (q :: qs)).
  destruct p as [|c p']; [done|].
  change (String c p' +:+ "." +:+ String.concat "." (q :: qs))
    with (String c (p' +:+ "." +:+ String.concat "." (q :: qs))).
  cbn [strip_v]. by destruct (Ascii.eqb c "v").
Qed.

Lemma dot_free_strip_v (p : string) : dot_free p = true -> dot_free (strip_v p) = true.
Proof.
  destruct p as [|c p']; [done|]. cbn.
  intros H. apply andb_true_iff in H as [Hc Hp'].
  destruct (Ascii.eqb c "v"); [done|]. cbn. by rewrite Hc, Hp'.
Qed.

(** [parseVersion] reads the first three dot-separated components and
    nothing else; a missing or empty one reads as "0". *)
Lemma parseVersion_components (p : string) (ps : list string) :
  Forall (fun q => dot_free q = true) (p :: ps) ->
  parseVersion (String.concat "." (p :: ps))
  = {| major := or_else (strip_v p) "0";
       minor := part_or ps 0 "0";
       patch := part_or ps 1 "0" |}.
Proof.
  intros Hall. unfold parseVersion.
  rewrite strip_v_concat, split_concat; [done|].
  inversion Hall; subst. constructor; [by apply dot_free_strip_v|done].
Qed.

End SplitFacts.

(** C6, as stated, fails on a component that is not a number: "lts"
    parses to [NaN], not to 0, and comparing it with "0.0.0" gives
    [NaN], which is none of the three outcomes of a comparison; the spec
    "=0.0.0", which an all-zero reading of "lts" would satisfy, is not
    matched.  Likewise the component "x" of the range operand "18.x":
    comparing "18.17.0" with it gives [NaN], and the range ">=18.x" is
    not satisfied by "18.17.0" although ">=18.0" is. *)
Lemma non_numeric_component_parses_to_NaN :
  Js.parseInt (Matcher.major (Matcher.parseVersion "lts")) = Js.NaN
  /\ Js.parseInt (Matcher.major (Matcher.parseVersion "lts")) <> Js.Num 0
  /\ Matcher.compareVersions (Matcher.parseVersion "lts") (Matcher.parseVersion "0.0.0")
     = Js.NaN
  /\ (forall d, Matcher.compareVersions (Matcher.parseVersion "lts")
                  (Matcher.parseVersion "0.0.0") <> Js.Num d)
  /\ Matcher.compareVersionWithOperator "lts" "=0.0.0" = false
  /\ Matcher.compareVersionWithOperator "0" "=0.0.0" = true
  /\ Matcher.parseVersion "18.x" = Matcher.mkParsed "18" "x" "0"
  /\ Js.parseInt "x" = Js.NaN
  /\ Matcher.compareVersions (Matcher.parseVersion "18.17.0") (Matcher.parseVersion "18.x")
     = Js.NaN
  /\ Matcher.compareVersionWithOperator "18.17.0" ">=18.x" = false
  /\ Matcher.compareVersionWithOperator "18.17.0" ">=18.0" = true.
Proof.
  repeat apply conj; vm_compute; congruence.
Qed.

(** C6 (amended): parsing never fails.  [parseVersion] strips a leading
    "v", splits on ".", reads the first three components only and reads
    a missing or empty component as "0".  [parseInt] reads a component
    as follows: it skips leading white space and one optional sign,
    reads the longest run of decimal digits that follows as an integer
    and ignores whatever comes after the digits; the result is the
    number value of that integer: the integer itself below 2^53, the
    nearest double otherwise, and an infinity from 2^1024 - 2^970 on.
    The result is [NaN], not 0, exactly when no digit stands at that
    place.  For two versions whose components all read as
    integers, the sign of [compareVersions] is the lexicographic
    comparison of the two triples.  [compareVersions] is [NaN] exactly
    when a component that reads as [NaN] is reached before a difference
    is found (or when no difference is found and both patch components
    are the same infinity), and a comparison without a sign satisfies
    none of the five tests against zero. *)
Theorem parsing_and_comparison (p : string) (ps : list string)
    (v1 v2 : Matcher.ParsedVersion) :
  (Forall (fun q => dot_free q = true) (p :: ps) ->
   Matcher.parseVersion (String.concat "." (p :: ps))
   = {| Matcher.major := Js.or_else (Js.strip_v p) "0";
        Matcher.minor := Js.part_or ps 0 "0";
        Matcher.patch := Js.part_or ps 1 "0" |})
  /\ (forall ws sign ds rest,
        all_white ws = true -> is_sign sign -> numeral ds ->
        starts_with_digit rest = false ->
        Js.parseInt (ws +:+ sign +:+ ds +:+ rest)
        = Js.to_number (signed sign (decimal ds)))
  /\ (forall z, Z.abs z < 2 ^ 53 -> Js.to_number z = Js.Num z)
  /\ (forall z m, Js.to_number z = Js.Num m -> nearest_double z m /\ Z.abs m < 2 ^ 1024)
  /\ (forall z, Js.to_number z = Js.Infinity (z <? 0) <-> 2 ^ 1024 - 2 ^ 970 <= Z.abs z)
  /\ (forall s, Js.parseInt s = Js.NaN <-> ~ numeric_head s)
  /\ (forall a1 b1 c1 a2 b2 c2,
        Js.parseInt (Matcher.major v1) = Js.Num a1 ->
        Js.parseInt (Matcher.minor v1) = Js.Num b1 ->
        Js.parseInt (Matcher.patch v1) = Js.Num c1 ->
        Js.parseInt (Matcher.major v2) = Js.Num a2 ->
        Js.parseInt (Matcher.minor v2) = Js.Num b2 ->
        Js.parseInt (Matcher.patch v2) = Js.Num c2 ->
        sign_of (Matcher.compareVersions v1 v2)
        = Some (lex_compare (a1, b1, c1) (a2, b2, c2)))
  /\ (Matcher.compareVersions v1 v2 = Js.NaN
      <-> (Js.parseInt (Matcher.major v1) = Js.NaN
           \/ Js.parseInt (Matcher.major v2) = Js.NaN)
          \/ (Js.parseInt (Matcher.major v1) = Js.parseInt (Matcher.major v2)
              /\ ((Js.parseInt (Matcher.minor v1) = Js.NaN
                   \/ Js.parseInt (Matcher.minor v2) = Js.NaN)
                  \/ (Js.parseInt (Matcher.minor v1) = Js.parseInt (Matcher.minor v2)
                      /\ (Js.parseInt (Matcher.patch v1) = Js.NaN
                          \/ Js.parseInt (Matcher.patch v2) = Js.NaN
                          \/ exists negative,
                               Js.parseInt (Matcher.patch v1) = Js.Infinity negative
                               /\ Js.parseInt (Matcher.patch v2)
                                  = Js.Infinity negative)))))
  /\ (forall cmp, sign_of cmp = None ->
        Js.ge0 cmp = false /\ Js.le0 cmp = false /\ Js.gt0 cmp = false
        /\ Js.lt0 cmp = false /\ Js.eq0 cmp = false).
Proof.
  split; [apply parseVersion_components|].
  split; [intros ws sign ds rest Hws Hsign [Hds Hne]; by apply parseInt_numeral|].
  split; [apply to_number_exact|].
  split; [apply to_number_nearest|].
  split; [apply to_number_overflow|].
  split; [apply parseInt_NaN_iff|].
  split; [apply compareVersions_numeric|].
  split; [apply compareVersions_NaN_iff|].
  intros [|s|x]; [done | by destruct s | done].
Qed.

(** C6 (amended) on "v18.17" against "18.2.1.9": the missing patch reads
    as "0", the fourth component is ignored, and 17 is above 2; on
    "18abc" and "0-rc", whose digits are read and whose tail is ignored;
    on "9007199254740993", which is 2^53 + 1 and reads as 2^53; and on
    "lts", where no digit is found. *)
Lemma parsing_and_comparison_witness :
  Matcher.parseVersion "v18.17" = Matcher.mkParsed "18" "17" "0"
  /\ Matcher.parseVersion "18.2.1.9" = Matcher.mkParsed "18" "2" "1"
  /\ Js.parseInt "17" = Js.Num 17
  /\ Js.parseInt "18abc" = Js.Num 18
  /\ Js.parseInt "0-rc" = Js.Num 0
  /\ Js.parseInt " -7" = Js.Num (-7)
  /\ Js.parseInt "9007199254740993" = Js.Num 9007199254740992
  /\ Js.parseInt "lts" = Js.NaN
  /\ sign_of (Matcher.compareVersions (Matcher.parseVersion "v18.17")
                (Matcher.parseVersion "18.2.1.9")) = Some Gt.
Proof.
  pose proof (parsing_and_comparison "v18" ["17"] (Matcher.parseVersion "v18.17")
                (Matcher.parseVersion "18.2.1.9"))
    as (Hparse & Hread & Hexact & _ & _ & Hnan & Hcmp & _).
  assert (forall ws sign ds rest z,
            all_white ws = true -> is_sign sign -> numeral ds ->
            starts_with_digit rest = false ->
            signed sign (decimal ds) = z -> Z.abs z < 2 ^ 53 ->
            Js.parseInt (ws +:+ sign +:+ ds +:+ rest) = Js.Num z) as Hint.
  { intros ws sign ds rest z Hws Hsign Hds Hrest <- Hz.
    rewrite (Hread ws sign ds rest Hws Hsign Hds Hrest). exact (Hexact _ Hz). }
  split; [apply Hparse; repeat constructor|].
  split.
  { destruct (parsing_and_comparison "18" ["2"; "1"; "9"] (Matcher.parseVersion "v18.17")
                (Matcher.parseVersion "18.2.1.9")) as (Hparse' & _).
    apply Hparse'. repeat constructor. }
  split.
  { apply (Hint "" "" "17" ""); try reflexivity; [by left | by split]. }
  split.
  { apply (Hint "" "" "18" "abc"); try reflexivity; [by left | by split]. }
  split.
  { apply (Hint "" "" "0" "-rc"); try reflexivity; [by left | by split]. }
  split.
  { apply (Hint " " "-" "7" ""); try reflexivity; [right; by right | by split]. }
  split.
  { change (Js.parseInt ("" +:+ "" +:+ "9007199254740993" +:+ "")
            = Js.Num 9007199254740992).
    rewrite Hread; [by vm_compute | reflexivity | by left | by split | reflexivity]. }
  split.
  { apply Hnan. intros (ws & sign & d & rest & Hws & Hsign & Hd & Heq).
    destruct ws as [|c ws].
    - destruct Hsign as [-> | [-> | ->]]; [|done|done].
      injection Heq as <- _. by vm_compute in Hd.
    - injection Heq as <- _. by vm_compute in Hws. }
  apply (Hcmp 18 17 0 18 2 1);
    first [ apply (Hint "" "" "18" ""); try reflexivity; [by left | by split]
          | apply (Hint "" "" "17" ""); try reflexivity; [by left | by split]
          | apply (Hint "" "" "0" ""); try reflexivity; [by left | by split]
          | apply (Hint "" "" "2" ""); try reflexivity; [by left | by split]
          | apply (Hint "" "" "1" ""); try reflexivity; [by left | by split] ].
Defined.

Section RangeFacts.
Import Js Matcher.



End RangeFacts.

Section Operators.
Import Js Matcher.

Lemma startsWith_app (p s : string) : startsWith (p +:+ s) p = true.
Proof.
  induction p as [|c p IH]; [done|]. rewrite app_cons. cbn.
  by rewrite Ascii.eqb_refl, IH.
Qed.

Lemma skip_app (p s : string) : skip (String.length p) (p +:+ s) = s.
Proof. induction p as [|c p IH]; [by destruct s|]. by rewrite app_cons. Qed.

(** The operator of a comparison spec and its operand: the operand is
    not empty and holds no line terminator, and after ">" or "<" it
    does not begin with "=", which would make the operator ">=" or
    "<=". *)
Lemma operatorMatch_longest (op x : string) :
  In op operators ->
  dot_plus x = true ->
  (op = ">" \/ op = "<" -> startsWith x "=" = false) ->
  operatorMatch (op +:+ x) = Some (op, x).
Proof.
  intros Hop Hx Heq. unfold operatorMatch, operators in *.
  assert (forall op', startsWith (op' +:+ x) op' && dot_plus (skip (String.length op') (op' +:+ x))
                      = true) as Hhit.
  { intros op'. by rewrite startsWith_app, skip_app, Hx. }
  destruct x as [|d x']; [done|].
  cbn in Hop.
  destruct Hop as [<- | [<- | [<- | [<- | [<- | []]]]]].
  - cbn [operatorMatch_from]. by rewrite Hhit.
  - cbn [operatorMatch_from].
    replace (startsWith ("<=" +:+ String d x') ">=") with false by reflexivity.
    cbn [andb]. by rewrite Hhit.
  - cbn [operatorMatch_from].
    specialize (Heq (or_introl eq_refl)). cbn in Heq. rewrite andb_true_r in Heq.
    replace (startsWith (">" +:+ String d x') ">=") with false
      by (change (">" +:+ String d x') with (String ">" (String d x')); cbn;
          by rewrite Heq).
    replace (startsWith (">" +:+ String d x') "<=") with false by reflexivity.
    cbn [andb]. by rewrite Hhit.
  - cbn [operatorMatch_from].
    specialize (Heq (or_intror eq_refl)). cbn in Heq. rewrite andb_true_r in Heq.
    replace (startsWith ("<" +:+ String d x') ">=") with false by reflexivity.
    replace (startsWith ("<" +:+ String d x') "<=") with false
      by (change ("<" +:+ String d x') with (String "<" (String d x')); cbn;
          by rewrite Heq).
    replace (startsWith ("<" +:+ String d x') ">") with false by reflexivity.
    cbn [andb]. by rewrite Hhit.
  - cbn [operatorMatch_from].
    replace (startsWith ("=" +:+ String d x') ">=") with false by reflexivity.
    replace (startsWith ("=" +:+ String d x') "<=") with false by reflexivity.
    replace (startsWith ("=" +:+ String d x') ">") with false by reflexivity.
    replace (startsWith ("=" +:+ String d x') "<") with false by reflexivity.
    cbn [andb]. by rewrite Hhit.
Qed.

(** The operator of a comparison spec and its operand, for an operand
    that does not itself begin with "=". *)
Lemma operatorMatch_operand (op x : string) :
  In op operators ->
  dot_plus x = true ->
  startsWith x "=" = false ->
  operatorMatch (op +:+ x) = Some (op, x).
Proof. intros Hop Hx Heq. by apply operatorMatch_longest. Qed.







End Operators.

(** ** Manager detection *)

Section Steps.

Lemma steps_refl (w : World) : steps w w [].
Proof. unfold steps. by rewrite app_nil_r. Qed.

Lemma steps_trans (w1 w2 w3 : World) (e1 e2 : list Event) :
  steps w1 w2 e1 -> steps w2 w3 e2 -> steps w1 w3 (e1 ++ e2)%list.
Proof.
  unfold steps. intros (Ht1 & He1 & Hs1 & Hx1 & Hr1) (Ht2 & He2 & Hs2 & Hx2 & Hr2).
  rewrite Ht2, Ht1, He2, He1, Hs2, Hs1, Hx2, Hx1, Hr2, Hr1.
  by rewrite app_assoc.
Qed.

Lemma get_steps (namespace key : string) (w : World) :
  exists v w', Cache.get namespace key w = (inr v, w') /\ steps w w' [] /\ now w' = now w.
Proof.
  unfold Cache.get, steps.
  destruct (caches w !! namespace) as [cache|].
  - destruct (cache !! key) as [e|].
    + destruct (ttl e <? now w - timestamp e);
        eexists _, _; (split; [done|]); cbn; by rewrite app_nil_r.
    + eexists _, _; (split; [done|]); by rewrite app_nil_r.
  - eexists _, _; (split; [done|]); by rewrite app_nil_r.
Qed.

Lemma set_steps (namespace key : string) (v : Value) (t : option Z) (w : World) :
  exists w', Cache.set namespace key v t w = (inr tt, w') /\ steps w w' [] /\ now w' = now w.
Proof.
  eexists; split; [done|]. unfold steps. cbn. by rewrite app_nil_r.
Qed.

Lemma log_steps (e : Event) (w : World) :
  exists w', log e w = (inr tt, w') /\ steps w w' [e] /\ caches w' = caches w.
Proof. eexists; split; [done|]. by unfold steps. Qed.

(** [cached] around a producer that never throws never throws, and its
    events are those of the producer, if it ran. *)
Lemma cached_steps (namespace key : string) (fn : M Value) (t : option Z)
    (P : list Event -> Prop) (w : World) :
  P [] ->
  (forall w0, exists v w1 evs, fn w0 = (inr v, w1) /\ steps w0 w1 evs /\ P evs) ->
  exists v w' evs,
    Cache.cached namespace key fn t w = (inr v, w') /\ steps w w' evs /\ P evs.
Proof.
  intros Hnil Hfn. unfold Cache.cached, bind.
  destruct (get_steps namespace key w) as (hit & w0 & -> & Hs0 & _).
  destruct (not_null hit).
  - exists hit, w0, []. split; [done|]. by split.
  - destruct (Hfn w0) as (v & w1 & evs & -> & Hs1 & HP).
    destruct (set_steps namespace key v t w1) as (w2 & -> & Hs2 & _).
    exists v, w2, evs. split; [done|]. split; [|done].
    pose proof (steps_trans _ _ _ _ _ (steps_trans _ _ _ _ _ Hs0 Hs1) Hs2) as Hs.
    by rewrite app_nil_l, app_nil_r in Hs.
Qed.

Lemma spawn_promise_steps (command : string) (args : list string) (w : World) :
  exists r w', Detector.spawn_promise command args w = (r, w')
               /\ steps w w' [EvSpawn command args] /\ caches w' = caches w.
Proof.
  unfold Detector.spawn_promise.
  destruct (spawn w command args) as [[e|code out err|message out err] elapsed];
    eexists _, _; (split; [done|]); by unfold steps.
Qed.

Lemma executeShellCommand_steps (command : string) (w : World) :
  exists r w' evs, Detector.executeShellCommand command w = (r, w')
                   /\ steps w w' evs /\ only_spawns evs /\ caches w' = caches w.
Proof.
  unfold Detector.executeShellCommand, bind.
  destruct (getShellCommand (env w)) as [e|shellConfig].
  - exists (inl e), w, []. split; [done|]. split; [apply steps_refl|]. split; [constructor|done].
  - destruct (spawn_promise_steps (fst shellConfig) (snd shellConfig ++ [command])%list w)
      as (r & w' & -> & Hs & Hc).
    exists r, w', [EvSpawn (fst shellConfig) (snd shellConfig ++ [command])%list].
    split; [done|]. split; [done|]. split; [by repeat constructor|done].
Qed.

End Steps.

Section Probes.
Import Detector.

Lemma only_spawns_one (command : string) (args : list string) :
  only_spawns [EvSpawn command args].
Proof. by repeat constructor. Qed.

Lemma only_spawns_app (e1 e2 : list Event) :
  only_spawns e1 -> only_spawns e2 -> only_spawns (e1 ++ e2)%list.
Proof. unfold only_spawns. intros H1 H2. by apply Forall_app. Qed.

(** The [try] block of [detectN]: it spawns processes and does nothing
    else, and leaves the cache alone. *)
Lemma detectN_block_steps (r : ManagerDetectionResult) (w : World) :
  version_before_available r ->
  exists o r' w' evs,
    detectN_block r w = ((o, r'), w')
    /\ steps w w' evs /\ only_spawns evs /\ caches w' = caches w
    /\ mdr_type r' = mdr_type r /\ version_before_available r'.
Proof.
  intros Hr. unfold detectN_block, measure, executeCommand.
  destruct (spawn_promise_steps "n" ["--version"] w) as (r1 & w1 & -> & Hs1 & Hc1).
  pose proof (only_spawns_one "n" ["--version"]) as Ho1.
  destruct r1 as [e|nCommand].
  { by eexists _, _, _, _. }
  destruct (success nCommand).
  - destruct (spawn_promise_steps (if isWindows (env w1) then "where" else "which") ["n"] w1)
      as (r2 & w2 & -> & Hs2 & Hc2).
    pose proof (steps_trans _ _ _ _ _ Hs1 Hs2) as Hs.
    pose proof (only_spawns_app _ _ Ho1 (only_spawns_one
                  (if isWindows (env w1) then "where" else "which") ["n"])) as Ho.
    assert (caches w2 = caches w) as Hc by congruence.
    destruct r2 as [e|whichResult]; [|destruct (success whichResult)];
      eexists _, _, _, _; (split; [done|]); (split; [exact Hs|]);
      (split; [exact Ho|]); (split; [exact Hc|]); (split; [done|]);
      intros _; by eexists.
  - eexists _, _, _, _. split; [done|]. split; [exact Hs1|]. by repeat split.
Qed.

(** The [try] block of [detectNVM], likewise. *)
Lemma detectNVM_block_steps (r : ManagerDetectionResult) (w : World) :
  version_before_available r ->
  exists o r' w' evs,
    detectNVM_block r w = ((o, r'), w')
    /\ steps w w' evs /\ only_spawns evs /\ caches w' = caches w
    /\ mdr_type r' = mdr_type r /\ version_before_available r'.
Proof.
  intros Hr. unfold detectNVM_block, measure, executeCommand.
  destruct (isWindows (env w)).
  - destruct (spawn_promise_steps "nvm" ["version"] w) as (r1 & w1 & -> & Hs1 & Hc1).
    pose proof (only_spawns_one "nvm" ["version"]) as Ho1.
    destruct r1 as [e|nvmCommand]; [by eexists _, _, _, _|].
    destruct (success nvmCommand); [|by eexists _, _, _, _].
    destruct (windows_nvm_path (env w1)) as [e|p];
      eexists _, _, _, _; (split; [done|]); (split; [exact Hs1|]);
      (split; [exact Ho1|]); (split; [exact Hc1|]); (split; [done|]);
      intros _; by eexists.
  - destruct (spawn_promise_steps "nvm" ["--version"] w) as (r1 & w1 & -> & Hs1 & Hc1).
    pose proof (only_spawns_one "nvm" ["--version"]) as Ho1.
    destruct r1 as [e|nvmCommand]; [by eexists _, _, _, _|].
    destruct (success nvmCommand).
    { eexists _, _, _, _. split; [done|]. split; [exact Hs1|].
      split; [exact Ho1|]. split; [exact Hc1|]. split; [done|]. intros _; by eexists. }
    destruct (executeShellCommand_steps
                ("source " +:+ nvmDir (env w) +:+ "/nvm.sh && nvm --version") w1)
      as (r2 & w2 & evs2 & -> & Hs2 & Ho2 & Hc2).
    pose proof (steps_trans _ _ _ _ _ Hs1 Hs2) as Hs.
    pose proof (only_spawns_app _ _ Ho1 Ho2) as Ho.
    assert (caches w2 = caches w) as Hc by congruence.
    destruct r2 as [e|sourceResult]; [|destruct (success sourceResult)];
      eexists _, _, _, _; (split; [done|]); (split; [exact Hs|]);
      (split; [exact Ho|]); (split; [exact Hc|]); (split; [done|]);
      try done; intros _; by eexists.
Qed.

Lemma set_error_fields (s : string) (r : ManagerDetectionResult) :
  mdr_error (set_error s r) = Some s
  /\ mdr_available (set_error s r) = mdr_available r
  /\ mdr_version (set_error s r) = mdr_version r
  /\ mdr_type (set_error s r) = mdr_type r.
Proof. done. Qed.

(** [try ... catch] around a block never throws: it returns a descriptor. *)
Lemma catch_into_result_total (block : Block) (w : World) :
  exists m w', catch_into_result block w = (inr (VManager m), w')
               /\ snd (block w) = w'
               /\ m = match fst (fst (block w)) with
                      | None => snd (fst (block w))
                      | Some e => set_error (error_message e) (snd (fst (block w)))
                      end.
Proof.
  unfold catch_into_result. destruct (block w) as [[[e|] r] w']; by eexists _, _.
Qed.

End Probes.

Section DetectAll.
Import Detector.

Lemma call_count_app (method : string) (w w' : World) (evs : list Event) :
  trace w' = (trace w ++ evs)%list ->
  call_count method w'
  = (call_count method w + length (filter (fun e => is_call method e = true) evs))%nat.
Proof.
  unfold call_count. intros ->. by rewrite filter_app, length_app.
Qed.

Lemma only_spawns_no_call (method : string) (evs : list Event) :
  only_spawns evs -> filter (fun e => is_call method e = true) evs = [].
Proof.
  induction 1 as [|e evs He _ IH]; [done|].
  rewrite filter_cons. by destruct e.
Qed.

Lemma spawn_count_app (w w' : World) (evs : list Event) :
  trace w' = (trace w ++ evs)%list ->
  spawn_count w'
  = (spawn_count w + length (filter (fun e => is_spawn e = true) evs))%nat.
Proof.
  unfold spawn_count. intros ->. by rewrite filter_app, length_app.
Qed.

(** [detectN()] never throws; it records its invocation and then at most
    spawns processes. *)
Lemma detectN_runs (w : World) :
  exists v w' evs,
    detectN w = (inr v, w') /\ steps w w' (EvCall "detectN" :: evs) /\ only_spawns evs.
Proof.
  unfold detectN, bind at 1.
  destruct (log_steps (EvCall "detectN") w) as (w0 & -> & Hs0 & _).
  destruct (cached_steps Cache.MANAGER_DETECTION "n_manager"
              (measure "environmentDetector.detectN"
                 (catch_into_result (detectN_block (initial_result n_manager))))
              (Some cacheExpiry) only_spawns w0) as (v & w' & evs & Hrun & Hs & Ho).
  - constructor.
  - intros w1. unfold measure.
    destruct (detectN_block_steps (initial_result n_manager) w1)
      as (o & r' & w2 & evs & Hb & Hs & Ho & _); [done|].
    destruct (catch_into_result_total
                (detectN_block (initial_result n_manager)) w1)
      as (m & w2' & Hc & Hw & _).
    rewrite Hb in Hw. cbn in Hw. subst w2'.
    by exists (VManager m), w2, evs.
  - exists v, w', evs. split; [done|]. split; [|done].
    exact (steps_trans _ _ _ _ _ Hs0 Hs).
Qed.

(** [detectNVM()], likewise. *)
Lemma detectNVM_runs (w : World) :
  exists v w' evs,
    detectNVM w = (inr v, w') /\ steps w w' (EvCall "detectNVM" :: evs) /\ only_spawns evs.
Proof.
  unfold detectNVM, bind at 1.
  destruct (log_steps (EvCall "detectNVM") w) as (w0 & -> & Hs0 & _).
  unfold bind at 1, read_world.
  destruct (cached_steps Cache.MANAGER_DETECTION
              ("nvm_" +:+ (if isWindows (env w0) then "windows" else "unix"))
              (catch_into_result (detectNVM_block (initial_result nvm)))
              (Some cacheExpiry) only_spawns w0) as (v & w' & evs & Hrun & Hs & Ho).
  - constructor.
  - intros w1.
    destruct (detectNVM_block_steps (initial_result nvm) w1)
      as (o & r' & w2 & evs & Hb & Hs & Ho & _); [done|].
    destruct (catch_into_result_total
                (detectNVM_block (initial_result nvm)) w1)
      as (m & w2' & Hc & Hw & _).
    rewrite Hb in Hw. cbn in Hw. subst w2'.
    by exists (VManager m), w2, evs.
  - exists v, w', evs. split; [done|]. split; [|done].
    exact (steps_trans _ _ _ _ _ Hs0 Hs).
Qed.

End DetectAll.

(** C2: in a run of [detectAllManagers] that finds no cached aggregate,
    the primary probe [detectNVM] runs first and returns a descriptor.
    If that descriptor reports available, the result is the list with
    this one descriptor and [detectN] is not invoked: the trace ends
    where the primary probe left it and the count of [detectN]
    invocations has not moved.  If it reports unavailable, [detectN] is
    invoked once, after the primary probe, and the result is the list
    of the two descriptors in probe order. *)
Theorem detectAllManagers_short_circuit (w w1 : World) (hit : Value) :
  Cache.get Cache.ENVIRONMENT_DETECTION "all_managers" w = (inr hit, w1) ->
  truthy hit = false ->
  exists primary w2 evs1,
    Detector.detectNVM w1 = (inr primary, w2)
    /\ trace w2 = (trace w ++ EvCall "detectNVM" :: evs1)%list
    /\ only_spawns evs1
    /\ (forall a, get_prop primary "available" = inr a -> truthy a = true ->
          exists w3,
            Detector.detectAllManagers w = (inr (VArr [primary]), w3)
            /\ trace w3 = trace w2
            /\ call_count "detectN" w3 = call_count "detectN" w)
    /\ (forall a, get_prop primary "available" = inr a -> truthy a = false ->
          exists secondary w3 evs2 w4,
            Detector.detectN w2 = (inr secondary, w3)
            /\ Detector.detectAllManagers w = (inr (VArr [primary; secondary]), w4)
            /\ trace w4
               = (trace w ++ EvCall "detectNVM" :: evs1 ++ EvCall "detectN" :: evs2)%list
            /\ only_spawns evs2
            /\ call_count "detectN" w4 = S (call_count "detectN" w)).
Proof.
  intros Hget Hfalsy.
  destruct (get_steps Cache.ENVIRONMENT_DETECTION "all_managers" w)
    as (hit' & w1' & Hget' & Hs0 & _).
  rewrite Hget in Hget'. injection Hget' as <- <-.
  destruct (detectNVM_runs w1) as (primary & w2 & evs1 & Hnvm & Hs1 & Ho1).
  pose proof (steps_trans _ _ _ _ _ Hs0 Hs1) as Hs01. rewrite app_nil_l in Hs01.
  destruct Hs01 as [Ht2 _].
  exists primary, w2, evs1. split; [done|]. split; [done|]. split; [done|].
  split.
  - intros a Ha Hav.
    destruct (set_steps Cache.ENVIRONMENT_DETECTION "all_managers" (VArr [primary])
                (Some Detector.cacheExpiry) w2) as (w3 & Hset & [Ht3 _] & _).
    exists w3. rewrite app_nil_r in Ht3. split; [|split; [done|]].
    + unfold Detector.detectAllManagers, bind, measure, lift.
      by rewrite Hget, Hfalsy, Hnvm, Ha, Hav, Hset.
    + rewrite (call_count_app "detectN" w w3 (EvCall "detectNVM" :: evs1)); [|congruence].
      rewrite filter_cons_False by (vm_compute; congruence).
      rewrite (only_spawns_no_call _ _ Ho1). cbn. lia.
  - intros a Ha Hunav.
    destruct (detectN_runs w2) as (secondary & w3 & evs2 & Hn & [Ht3 _] & Ho2).
    destruct (set_steps Cache.ENVIRONMENT_DETECTION "all_managers"
                (VArr [primary; secondary]) (Some Detector.cacheExpiry) w3)
      as (w4 & Hset & [Ht4 _] & _).
    rewrite app_nil_r in Ht4.
    exists secondary, w3, evs2, w4. split; [done|].
    assert (trace w4 = (trace w ++ EvCall "detectNVM" :: evs1 ++ EvCall "detectN" :: evs2)%list)
      as Htrace.
    { rewrite Ht4, Ht3, Ht2. by rewrite <- app_assoc. }
    split; [|split; [done|split; [done|]]].
    + unfold Detector.detectAllManagers, bind, measure, lift.
      by rewrite Hget, Hfalsy, Hnvm, Ha, Hunav, Hn, Hset.
    + rewrite (call_count_app "detectN" w w4 _ Htrace).
      rewrite filter_cons_False by (vm_compute; congruence).
      rewrite filter_app, (only_spawns_no_call _ _ Ho1).
      rewrite filter_cons_True by reflexivity.
      rewrite (only_spawns_no_call _ _ Ho2). cbn. lia.
Qed.

(** C2 on a machine with nvm installed: one descriptor, and no
    invocation of [detectN]. *)
Lemma detectAllManagers_short_circuit_witness :
  exists primary w3,
    Detector.detectAllManagers nvm_installed_world = (inr (VArr [primary]), w3)
    /\ call_count "detectN" w3 = 0%nat.
Proof.
  destruct (detectAllManagers_short_circuit nvm_installed_world nvm_installed_world VNull)
    as (primary & w2 & evs1 & Hnvm & _ & _ & Havailable & _);
    [reflexivity | reflexivity |].
  destruct (Havailable (VBool true)) as (w3 & Hrun & _ & Hcount).
  - vm_compute in Hnvm. injection Hnvm as <- _. reflexivity.
  - reflexivity.
  - exists primary, w3. split; [exact Hrun | exact Hcount].
Defined.

Section NegativeCaching.
Import Detector.

(** A throw out of the [try] block of a probe becomes the error of the
    descriptor built so far. *)
Lemma block_throw_descriptor (block : Block) (w w' : World) (e : Thrown)
    (r : ManagerDetectionResult) :
  block w = ((Some e, r), w') ->
  catch_into_result block w = (inr (VManager (set_error (error_message e) r)), w').
Proof. intros Hb. unfold catch_into_result. by rewrite Hb. Qed.

(** A miss of the aggregate: the list that is returned is stored for
    [cacheExpiry], and it is a list. *)
Lemma detectAllManagers_stores (w w1 w' : World) (hit l : Value) :
  Cache.get Cache.ENVIRONMENT_DETECTION "all_managers" w = (inr hit, w1) ->
  truthy hit = false ->
  detectAllManagers w = (inr l, w') ->
  lookup_entry w' Cache.ENVIRONMENT_DETECTION "all_managers"
  = Some (mkEntry l (now w') cacheExpiry)
  /\ truthy l = true.
Proof.
  intros Hget Hfalsy. unfold detectAllManagers, bind, measure, lift.
  rewrite Hget, Hfalsy.
  destruct (detectNVM_runs w1) as (primary & w2 & evs1 & -> & _ & _).
  destruct (get_prop primary "available") as [err|a]; [done|].
  destruct (truthy a).
  - destruct (set_lookup Cache.ENVIRONMENT_DETECTION "all_managers" (VArr [primary])
                (Some cacheExpiry) w2) as (w3 & -> & Hentry & Hnow & _).
    intros [= <- <-]. by rewrite Hentry, Hnow.
  - destruct (detectN_runs w2) as (secondary & w3 & evs2 & -> & _ & _).
    destruct (set_lookup Cache.ENVIRONMENT_DETECTION "all_managers"
                (VArr [primary; secondary]) (Some cacheExpiry) w3)
      as (w4 & -> & Hentry & Hnow & _).
    intros [= <- <-]. by rewrite Hentry, Hnow.
Qed.

(** A hit of the aggregate: the stored list is returned and the world
    is left as it is. *)
Lemma detectAllManagers_hit (w : World) (e : CacheEntry) :
  lookup_entry w Cache.ENVIRONMENT_DETECTION "all_managers" = Some e ->
  unexpired w e ->
  truthy (value e) = true ->
  detectAllManagers w = (inr (value e), w).
Proof.
  intros He Hle Ht. unfold detectAllManagers, bind.
  by rewrite (get_unexpired _ _ w e He Hle), Ht.
Qed.

(** A miss of a probe's own entry: the descriptor the probe builds is
    stored for [cacheExpiry], available or not. *)
Lemma detectN_stores (w w1 : World) :
  Cache.get Cache.MANAGER_DETECTION "n_manager" (with_event (EvCall "detectN") w)
  = (inr VNull, w1) ->
  exists m w',
    fst (probe_n w1) = inr (VManager m)
    /\ detectN w = (inr (VManager m), w')
    /\ lookup_entry w' Cache.MANAGER_DETECTION "n_manager"
       = Some (mkEntry (VManager m) (now w') cacheExpiry).
Proof.
  intros Hget. unfold detectN, bind at 1, log.
  rewrite (cached_miss _ _ _ _ _ _ Hget). unfold measure.
  destruct (catch_into_result_total (detectN_block (initial_result n_manager)) w1)
    as (m & w2 & Hrun & _).
  destruct (produce_and_store_ok Cache.MANAGER_DETECTION "n_manager" _
              (Some cacheExpiry) w1 w2 (VManager m) Hrun) as (w' & -> & Hentry & Hnow & _).
  exists m, w'. unfold probe_n. rewrite Hrun. split; [done|]. split; [done|].
  by rewrite Hentry, Hnow.
Qed.

Lemma detectNVM_stores (w w1 : World) :
  Cache.get Cache.MANAGER_DETECTION
    ("nvm_" +:+ (if isWindows (env w) then "windows" else "unix"))
    (with_event (EvCall "detectNVM") w)
  = (inr VNull, w1) ->
  exists m w',
    fst (probe_nvm w1) = inr (VManager m)
    /\ detectNVM w = (inr (VManager m), w')
    /\ lookup_entry w' Cache.MANAGER_DETECTION
         ("nvm_" +:+ (if isWindows (env w) then "windows" else "unix"))
       = Some (mkEntry (VManager m) (now w') cacheExpiry).
Proof.
  intros Hget. unfold detectNVM, bind at 1, log. unfold bind at 1, read_world.
  cbn [env with_event].
  rewrite (cached_miss _ _ _ _ _ _ Hget).
  destruct (catch_into_result_total (detectNVM_block (initial_result nvm)) w1)
    as (m & w2 & Hrun & _).
  destruct (produce_and_store_ok Cache.MANAGER_DETECTION
              ("nvm_" +:+ (if isWindows (env w) then "windows" else "unix")) _
              (Some cacheExpiry) w1 w2 (VManager m) Hrun) as (w' & -> & Hentry & Hnow & _).
  exists m, w'. unfold probe_nvm. rewrite Hrun. split; [done|]. split; [done|].
  by rewrite Hentry, Hnow.
Qed.

(** What [spawn_promise] gives for each outcome of [spawn]. *)
Lemma spawn_promise_throws (w : World) (command : string) (args : list string) (e : Thrown) :
  command_throws w command args e ->
  exists w', spawn_promise command args w = (inl e, w')
             /\ spawn w' = spawn w /\ env w' = env w.
Proof. intros [elapsed H]. unfold spawn_promise. rewrite H. by eexists. Qed.

Lemma spawn_promise_succeeds (w : World) (command : string) (args : list string)
    (out : string) :
  command_succeeds w command args out ->
  exists r w', spawn_promise command args w = (inr r, w')
               /\ success r = true /\ Js.trim (stdout r) = out
               /\ spawn w' = spawn w /\ env w' = env w.
Proof.
  intros (code & raw & err & elapsed & H & Hcode & ->).
  unfold spawn_promise. rewrite H. eexists _, _. split; [done|]. cbn.
  rewrite Hcode. split; [done|]. split; [apply trim_idem | done].
Qed.

Lemma spawn_promise_fails (w : World) (command : string) (args : list string) :
  command_fails w command args ->
  exists r w', spawn_promise command args w = (inr r, w')
               /\ success r = false /\ spawn w' = spawn w /\ env w' = env w.
Proof.
  unfold command_fails, spawn_promise.
  destruct (spawn w command args) as [[e|code raw err|message raw err] elapsed]; cbn.
  - done.
  - intros Hcode. eexists _, _. split; [done|]. cbn. split; [|done].
    by apply Z.eqb_neq.
  - intros _. by eexists _, _.
Qed.

(** The outcome of [spawn] on a command is one of the three. *)
Lemma command_cases (w : World) (command : string) (args : list string) :
  (exists e, command_throws w command args e)
  \/ (exists out, command_succeeds w command args out)
  \/ command_fails w command args.
Proof.
  unfold command_throws, command_succeeds, command_fails.
  destruct (spawn w command args) as [[e|code raw err|message raw err] elapsed] eqn:H; cbn.
  - left. by exists e, elapsed.
  - destruct (Z.eq_dec (default 0 code) 0) as [Hcode|Hcode].
    + right. left. by exists (Js.trim raw), code, raw, err, elapsed.
    + right. by right.
  - right. by right.
Qed.

(** The [try] block of [detectN] when [n --version] cannot be spawned. *)
Lemma detectN_block_early (r0 : ManagerDetectionResult) (w : World) (e : Thrown) :
  command_throws w "n" ["--version"] e ->
  exists w', detectN_block r0 w = ((Some e, r0), w').
Proof.
  intros Hthrow. unfold detectN_block, measure, executeCommand.
  destruct (spawn_promise_throws _ _ _ _ Hthrow) as (w1 & -> & _). by eexists.
Qed.

(** The same block when [n --version] has succeeded and the path lookup
    cannot be spawned. *)
Lemma detectN_block_late (r0 : ManagerDetectionResult) (w : World) (out : string)
    (e : Thrown) :
  command_succeeds w "n" ["--version"] out ->
  command_throws w (which_command w) ["n"] e ->
  exists w', detectN_block r0 w
             = ((Some e, set_version out (set_available true r0)), w').
Proof.
  intros Hok Hthrow. unfold detectN_block, measure, executeCommand.
  destruct (spawn_promise_succeeds _ _ _ _ Hok) as (r1 & w1 & -> & -> & -> & Hs & He).
  unfold which_command in Hthrow. rewrite <- He in Hthrow.
  destruct Hthrow as [elapsed Hthrow]. rewrite <- Hs in Hthrow.
  destruct (spawn_promise_throws w1 (if isWindows (env w1) then "where" else "which")
              ["n"] e) as (w2 & -> & _); [by exists elapsed|].
  by eexists.
Qed.

(** Every throw out of the block of [detectN] is one of these two. *)
Lemma detectN_block_throw_inv (r0 r : ManagerDetectionResult) (w w' : World) (e : Thrown) :
  detectN_block r0 w = ((Some e, r), w') ->
  (command_throws w "n" ["--version"] e /\ r = r0)
  \/ (exists out,
        command_succeeds w "n" ["--version"] out
        /\ command_throws w (which_command w) ["n"] e
        /\ r = set_version out (set_available true r0)).
Proof.
  destruct (command_cases w "n" ["--version"]) as [[e1 H1] | [[out H1] | H1]].
  - destruct (detectN_block_early r0 w e1 H1) as (w1 & ->).
    intros [= <- <- _]. by left.
  - destruct (command_cases w (which_command w) ["n"]) as [[e2 H2] | [[out2 H2] | H2]].
    + destruct (detectN_block_late r0 w out e2 H1 H2) as (w2 & ->).
      intros [= <- <- _]. right. by exists out.
    + unfold detectN_block, measure, executeCommand.
      destruct (spawn_promise_succeeds _ _ _ _ H1) as (r1 & w1 & -> & -> & _ & Hs & He).
      unfold which_command, command_succeeds in H2. rewrite <- He, <- Hs in H2.
      destruct (spawn_promise_succeeds w1 _ _ out2 H2) as (r2 & w2 & -> & -> & _). done.
    + unfold detectN_block, measure, executeCommand.
      destruct (spawn_promise_succeeds _ _ _ _ H1) as (r1 & w1 & -> & -> & _ & Hs & He).
      unfold which_command, command_fails in H2. rewrite <- He, <- Hs in H2.
      destruct (spawn_promise_fails w1 _ _ H2) as (r2 & w2 & -> & -> & _). done.
  - unfold detectN_block, measure, executeCommand.
    destruct (spawn_promise_fails _ _ _ H1) as (r1 & w1 & -> & -> & _). done.
Qed.

(** [executeShellCommand] when the shell command throws. *)
Lemma executeShellCommand_throws (w : World) (command : string) (e : Thrown) :
  shell_throws w command e ->
  exists w', executeShellCommand command w = (inl e, w').
Proof.
  unfold executeShellCommand, bind.
  intros [-> | (shell & args & -> & Hthrow)]; [by eexists|]. cbn [fst snd].
  destruct (spawn_promise_throws _ _ _ _ Hthrow) as (w1 & -> & _). by eexists.
Qed.

Lemma executeShellCommand_throw_inv (w w' : World) (command : string) (e : Thrown) :
  executeShellCommand command w = (inl e, w') -> shell_throws w command e.
Proof.
  unfold executeShellCommand, bind, shell_throws.
  destruct (getShellCommand (env w)) as [e0|[shell args]]; [intros [= <- _]; by left|].
  unfold spawn_promise. cbn [fst snd].
  destruct (spawn w shell (args ++ [command])%list)
    as [[e1|code raw err|message raw err] elapsed] eqn:H; [|done|done].
  intros [= <- _]. right. exists shell, args. split; [done|]. by exists elapsed.
Qed.

(** The [try] block of [detectNVM] when the version command cannot be
    spawned. *)
Lemma detectNVM_block_early (r0 : ManagerDetectionResult) (w : World) (e : Thrown) :
  command_throws w "nvm" (nvm_version_args w) e ->
  exists w', detectNVM_block r0 w = ((Some e, r0), w').
Proof.
  unfold nvm_version_args. intros Hthrow.
  unfold detectNVM_block, measure, executeCommand.
  destruct (isWindows (env w));
    destruct (spawn_promise_throws _ _ _ _ Hthrow) as (w1 & -> & _); by eexists.
Qed.

(** On Unix, when the version command has failed and the second attempt
    throws. *)
Lemma detectNVM_block_fallback (r0 : ManagerDetectionResult) (w : World) (e : Thrown) :
  isWindows (env w) = false ->
  command_fails w "nvm" ["--version"] ->
  shell_throws w (nvm_source_command w) e ->
  exists w', detectNVM_block r0 w = ((Some e, r0), w').
Proof.
  intros Hunix Hfail Hthrow. unfold detectNVM_block, measure, executeCommand.
  rewrite Hunix.
  destruct (spawn_promise_fails _ _ _ Hfail) as (r1 & w1 & -> & -> & Hs & He).
  assert (shell_throws w1 (nvm_source_command w) e) as Hthrow1.
  { unfold shell_throws, command_throws in *. by rewrite He, Hs. }
  destruct (executeShellCommand_throws _ _ _ Hthrow1) as (w2 & Hshell).
  unfold nvm_source_command in Hshell. rewrite Hshell. by eexists.
Qed.

(** On Windows, when the version command has succeeded and the home
    directory cannot be read. *)
Lemma detectNVM_block_late (r0 : ManagerDetectionResult) (w : World) (out : string)
    (e : Thrown) :
  isWindows (env w) = true ->
  command_succeeds w "nvm" ["version"] out ->
  windows_nvm_path (env w) = inl e ->
  exists w', detectNVM_block r0 w
             = ((Some e, set_version out (set_available true r0)), w').
Proof.
  intros Hwin Hok Hpath. unfold detectNVM_block, measure, executeCommand.
  rewrite Hwin.
  destruct (spawn_promise_succeeds _ _ _ _ Hok) as (r1 & w1 & -> & -> & -> & _ & ->).
  rewrite Hpath. by eexists.
Qed.

(** Every throw out of the block of [detectNVM] is one of these three. *)
Lemma detectNVM_block_throw_inv (r0 r : ManagerDetectionResult) (w w' : World)
    (e : Thrown) :
  detectNVM_block r0 w = ((Some e, r), w') ->
  (r = r0
   /\ (command_throws w "nvm" (nvm_version_args w) e
       \/ (isWindows (env w) = false
           /\ command_fails w "nvm" ["--version"]
           /\ shell_throws w (nvm_source_command w) e)))
  \/ (exists out,
        isWindows (env w) = true
        /\ command_succeeds w "nvm" ["version"] out
        /\ windows_nvm_path (env w) = inl e
        /\ r = set_version out (set_available true r0)).
Proof.
  destruct (command_cases w "nvm" (nvm_version_args w)) as [[e1 H1] | [[out H1] | H1]].
  - destruct (detectNVM_block_early r0 w e1 H1) as (w1 & ->).
    intros [= <- <- _]. left. split; [done|]. by left.
  - unfold nvm_version_args in H1.
    unfold detectNVM_block, measure, executeCommand.
    destruct (isWindows (env w)) eqn:Hwin.
    + destruct (spawn_promise_succeeds _ _ _ _ H1) as (r1 & w1 & -> & -> & -> & _ & ->).
      destruct (windows_nvm_path (env w)) as [e2|p] eqn:Hpath; [|done].
      intros [= <- <- _]. right. by exists out.
    + destruct (spawn_promise_succeeds _ _ _ _ H1) as (r1 & w1 & -> & -> & _). done.
  - unfold nvm_version_args in H1.
    unfold detectNVM_block, measure, executeCommand.
    destruct (isWindows (env w)) eqn:Hwin.
    + destruct (spawn_promise_fails _ _ _ H1) as (r1 & w1 & -> & -> & _). done.
    + destruct (spawn_promise_fails _ _ _ H1) as (r1 & w1 & -> & -> & Hs & He).
      change ("source " +:+ nvmDir (env w) +:+ "/nvm.sh && nvm --version")
        with (nvm_source_command w).
      destruct (executeShellCommand (nvm_source_command w) w1)
        as [[e2|sourceResult] w2] eqn:Hshell.
      * intros [= <- <- _]. left. split; [done|]. right. split; [done|].
        split; [done|]. apply executeShellCommand_throw_inv in Hshell.
        unfold shell_throws, command_throws in *. by rewrite <- He, <- Hs.
      * by destruct (success sourceResult).
Qed.

End NegativeCaching.

(** C8, as stated, fails when the exception comes after the version
    command has succeeded: in [which_throws_world] the probe [detectN]
    raises an exception (the [spawn] of the path lookup throws), the
    exception is caught and its message recorded, but the descriptor
    says available. *)
Lemma probe_exception_after_success_keeps_available :
  fst (Detector.executeCommand "n" ["--version"] which_throws_world)
  = inr (mkCommandResult true "9.2.0" "" 0)
  /\ fst (Detector.executeCommand "which" ["n"] which_throws_world)
     = inl (ErrorObj "spawn ENOMEM")
  /\ fst (Detector.detectN which_throws_world)
     = inr (VManager (mkManager n_manager true (Some "9.2.0") None (Some "spawn ENOMEM")))
  /\ fst (Detector.detectN which_throws_world)
     <> inr (VManager (mkManager n_manager false None None (Some "spawn ENOMEM"))).
Proof. repeat apply conj; vm_compute; congruence. Qed.

(** C8 (amended): no probe ever throws to its caller.  An exception
    raised inside a probe is caught and becomes the error of the
    descriptor: the message of an [Error], "Unknown error" for any other
    thrown value.  The descriptor says unavailable, with no version,
    when the exception is raised before a version command has
    succeeded: [spawn] throws on the version command of either probe,
    or, on Unix, the version command of nvm has failed and the second
    attempt through the shell throws.  It says available, with the
    version that was read, when the exception is raised after a version
    command has succeeded: [spawn] throws on the path lookup of
    [detectN], or the home directory cannot be read in the Windows
    branch of [detectNVM].  No exception arises in any other way.  On a
    miss of its own entry a probe returns what it has produced and
    stores it for [cacheExpiry], available or not; the list returned by
    [detectAllManagers] is stored for [cacheExpiry] under the aggregate
    key, and a call made while that entry is unexpired returns the same
    list and leaves the world, hence the number of spawned processes,
    as it is. *)
Theorem probe_exceptions_and_caching (w : World) :
  ((exists v w', Detector.detectNVM w = (inr v, w'))
   /\ (exists v w', Detector.detectN w = (inr v, w')))
  /\ (forall e,
        command_throws w "n" ["--version"] e ->
        fst (probe_n w)
        = inr (VManager (mkManager n_manager false None None
                           (Some (Detector.error_message e)))))
  /\ (forall out e,
        command_succeeds w "n" ["--version"] out ->
        command_throws w (which_command w) ["n"] e ->
        fst (probe_n w)
        = inr (VManager (mkManager n_manager true (Some out) None
                           (Some (Detector.error_message e)))))
  /\ (forall e,
        command_throws w "nvm" (nvm_version_args w) e ->
        fst (probe_nvm w)
        = inr (VManager (mkManager nvm false None None
                           (Some (Detector.error_message e)))))
  /\ (forall e,
        isWindows (env w) = false ->
        command_fails w "nvm" ["--version"] ->
        shell_throws w (nvm_source_command w) e ->
        fst (probe_nvm w)
        = inr (VManager (mkManager nvm false None None
                           (Some (Detector.error_message e)))))
  /\ (forall out e,
        isWindows (env w) = true ->
        command_succeeds w "nvm" ["version"] out ->
        Detector.windows_nvm_path (env w) = inl e ->
        fst (probe_nvm w)
        = inr (VManager (mkManager nvm true (Some out) None
                           (Some (Detector.error_message e)))))
  /\ (forall e r w',
        Detector.detectN_block (Detector.initial_result n_manager) w = ((Some e, r), w') ->
        (command_throws w "n" ["--version"] e
         /\ r = mkManager n_manager false None None None)
        \/ (exists out,
              command_succeeds w "n" ["--version"] out
              /\ command_throws w (which_command w) ["n"] e
              /\ r = mkManager n_manager true (Some out) None None))
  /\ (forall e r w',
        Detector.detectNVM_block (Detector.initial_result nvm) w = ((Some e, r), w') ->
        (r = mkManager nvm false None None None
         /\ (command_throws w "nvm" (nvm_version_args w) e
             \/ (isWindows (env w) = false
                 /\ command_fails w "nvm" ["--version"]
                 /\ shell_throws w (nvm_source_command w) e)))
        \/ (exists out,
              isWindows (env w) = true
              /\ command_succeeds w "nvm" ["version"] out
              /\ Detector.windows_nvm_path (env w) = inl e
              /\ r = mkManager nvm true (Some out) None None))
  /\ (forall hit w1 l w',
        Cache.get Cache.ENVIRONMENT_DETECTION "all_managers" w = (inr hit, w1) ->
        truthy hit = false ->
        Detector.detectAllManagers w = (inr l, w') ->
        lookup_entry w' Cache.ENVIRONMENT_DETECTION "all_managers"
        = Some (mkEntry l (now w') Detector.cacheExpiry)
        /\ forall w'',
             lookup_entry w'' Cache.ENVIRONMENT_DETECTION "all_managers"
             = lookup_entry w' Cache.ENVIRONMENT_DETECTION "all_managers" ->
             now w'' - now w' <= Detector.cacheExpiry ->
             Detector.detectAllManagers w'' = (inr l, w'')
             /\ spawn_count (snd (Detector.detectAllManagers w'')) = spawn_count w'')
  /\ (forall w1,
        Cache.get Cache.MANAGER_DETECTION
          ("nvm_" +:+ (if isWindows (env w) then "windows" else "unix"))
          (with_event (EvCall "detectNVM") w) = (inr VNull, w1) ->
        exists m w',
          fst (probe_nvm w1) = inr (VManager m)
          /\ Detector.detectNVM w = (inr (VManager m), w')
          /\ lookup_entry w' Cache.MANAGER_DETECTION
               ("nvm_" +:+ (if isWindows (env w) then "windows" else "unix"))
             = Some (mkEntry (VManager m) (now w') Detector.cacheExpiry))
  /\ (forall w1,
        Cache.get Cache.MANAGER_DETECTION "n_manager" (with_event (EvCall "detectN") w)
        = (inr VNull, w1) ->
        exists m w',
          fst (probe_n w1) = inr (VManager m)
          /\ Detector.detectN w = (inr (VManager m), w')
          /\ lookup_entry w' Cache.MANAGER_DETECTION "n_manager"
             = Some (mkEntry (VManager m) (now w') Detector.cacheExpiry)).
Proof.
  split.
  { split.
    - destruct (detectNVM_runs w) as (v & w' & _ & Hrun & _). by exists v, w'.
    - destruct (detectN_runs w) as (v & w' & _ & Hrun & _). by exists v, w'. }
  split.
  { intros e Hthrow. unfold probe_n.
    destruct (detectN_block_early (Detector.initial_result n_manager) w e Hthrow)
      as (w' & Hb).
    by rewrite (block_throw_descriptor _ _ _ _ _ Hb). }
  split.
  { intros out e Hok Hthrow. unfold probe_n.
    destruct (detectN_block_late (Detector.initial_result n_manager) w out e Hok Hthrow)
      as (w' & Hb).
    by rewrite (block_throw_descriptor _ _ _ _ _ Hb). }
  split.
  { intros e Hthrow. unfold probe_nvm.
    destruct (detectNVM_block_early (Detector.initial_result nvm) w e Hthrow)
      as (w' & Hb).
    by rewrite (block_throw_descriptor _ _ _ _ _ Hb). }
  split.
  { intros e Hunix Hfail Hthrow. unfold probe_nvm.
    destruct (detectNVM_block_fallback (Detector.initial_result nvm) w e Hunix Hfail Hthrow)
      as (w' & Hb).
    by rewrite (block_throw_descriptor _ _ _ _ _ Hb). }
  split.
  { intros out e Hwin Hok Hpath. unfold probe_nvm.
    destruct (detectNVM_block_late (Detector.initial_result nvm) w out e Hwin Hok Hpath)
      as (w' & Hb).
    by rewrite (block_throw_descriptor _ _ _ _ _ Hb). }
  split; [intros e r w'; apply detectN_block_throw_inv|].
  split; [intros e r w'; apply detectNVM_block_throw_inv|].
  split.
  { intros hit w1 l w' Hget Hfalsy Hrun.
    destruct (detectAllManagers_stores w w1 w' hit l Hget Hfalsy Hrun) as [Hentry Hlist].
    split; [done|]. intros w'' Hsame Hwithin. rewrite Hentry in Hsame.
    assert (Detector.detectAllManagers w'' = (inr l, w'')) as Hagain.
    { by apply (detectAllManagers_hit w'' _ Hsame). }
    split; [done|]. by rewrite Hagain. }
  split; [apply detectNVM_stores | apply detectN_stores].
Qed.

(** C8 (amended) on a machine where every [spawn] throws: both probes
    report unavailable with the message of the exception, and the list
    is returned again by a call made a second later, with no further
    process spawned; and on [which_throws_world], where [n --version]
    succeeds and the path lookup throws: [detectN] reports available,
    with the version and the message. *)
Lemma probe_exceptions_and_caching_witness :
  (exists l w',
     Detector.detectAllManagers spawn_throws_world = (inr l, w')
     /\ l = VArr [VManager (mkManager nvm false None None (Some "spawn ENOMEM"));
                  VManager (mkManager n_manager false None None (Some "spawn ENOMEM"))]
     /\ Detector.detectAllManagers (with_now (now w' + 1000) w')
        = (inr l, with_now (now w' + 1000) w')
     /\ spawn_count w' = 2%nat
     /\ spawn_count (snd (Detector.detectAllManagers (with_now (now w' + 1000) w'))) = 2%nat)
  /\ fst (probe_n spawn_throws_world)
     = inr (VManager (mkManager n_manager false None None (Some "spawn ENOMEM")))
  /\ fst (Detector.detectN which_throws_world)
     = inr (VManager (mkManager n_manager true (Some "9.2.0") None (Some "spawn ENOMEM"))).
Proof.
  split.
  { destruct (probe_exceptions_and_caching spawn_throws_world)
      as (_ & _ & _ & _ & _ & _ & _ & _ & Hcache & _).
    destruct (Detector.detectAllManagers spawn_throws_world) as [[err|l] w'] eqn:Hrun;
      [vm_compute in Hrun; discriminate|].
    destruct (Hcache VNull spawn_throws_world l w') as [_ Hlater];
      [reflexivity | reflexivity | reflexivity |].
    destruct (Hlater (with_now (now w' + 1000) w')) as [Hagain Hcount].
    - reflexivity.
    - cbn. unfold Detector.cacheExpiry. lia.
    - exists l, w'. split; [reflexivity|].
      vm_compute in Hrun. injection Hrun as <- <-.
      split; [reflexivity|]. split; [exact Hagain|].
      split; [reflexivity|]. rewrite Hcount. reflexivity. }
  split.
  { destruct (probe_exceptions_and_caching spawn_throws_world) as (_ & Hearly & _).
    apply (Hearly (ErrorObj "spawn ENOMEM")). by exists 0. }
  destruct (probe_exceptions_and_caching which_throws_world)
    as (_ & _ & _ & _ & _ & _ & _ & _ & _ & _ & Hstores).
  destruct (Hstores (with_event (EvCall "detectN") which_throws_world))
    as (m & w' & Hprobe & Hrun & _); [reflexivity|].
  destruct (probe_exceptions_and_caching (with_event (EvCall "detectN") which_throws_world))
    as (_ & _ & Hlate & _).
  rewrite (Hlate "9.2.0" (ErrorObj "spawn ENOMEM")) in Hprobe.
  - injection Hprobe as <-. by rewrite Hrun.
  - by exists (Some 0), "9.2.0", "", 5.
  - by exists 0.
Defined.

(** ** Configuration resolution *)

Section TripleFacts.
Import Js ConfigReader.

(** [take_digits] cuts the string in two, digits first. *)
Lemma take_digits_split (s ds tl : string) :
  take_digits s = (ds, tl) -> s = ds +:+ tl /\ all_digits ds = true.
Proof.
  revert ds tl. induction s as [|c rest IH]; intros ds tl.
  - cbn. by intros [= <- <-].
  - cbn. destruct (is_digit c) eqn:Hc.
    + destruct (take_digits rest) as [ds' tl'].
      intros [= <- <-]. destruct (IH ds' tl' eq_refl) as [-> Hall].
      split; [done|]. cbn. by rewrite Hc.
    + by intros [= <- <-].
Qed.

(** After a numeral, [take_digits] goes on into what follows. *)
Lemma take_digits_app (a rest : string) :
  all_digits a = true ->
  take_digits (a +:+ rest)
  = (a +:+ fst (take_digits rest), snd (take_digits rest)).
Proof.
  induction a as [|c a IH]; intros Hall.
  - rewrite !app_empty_l. by destruct (take_digits rest).
  - cbn in Hall. apply andb_true_iff in Hall as [Hc Ha].
    rewrite app_cons. cbn [take_digits]. rewrite Hc, (IH Ha). by rewrite app_cons.
Qed.

Lemma take_digits_dot (a rest : string) :
  all_digits a = true ->
  take_digits (a +:+ String "." rest) = (a, String "." rest).
Proof.
  intros Hall. rewrite (take_digits_app _ _ Hall). cbn. by rewrite app_empty_r.
Qed.

(** A match found at the head is a triple and a prefix. *)
Lemma triple_at_sound (s t : string) :
  triple_at s = Some t -> is_triple t /\ exists post, s = t +:+ post.
Proof.
  unfold triple_at.
  destruct (take_digits s) as [a r1] eqn:Ha.
  destruct (is_empty a) eqn:Hea; [done|].
  destruct r1 as [|c1 r1']; [done|].
  destruct (Ascii.eqb_spec c1 ".") as [->|]; [|done].
  destruct (take_digits r1') as [b r2] eqn:Hb.
  destruct (is_empty b) eqn:Heb; [done|].
  destruct r2 as [|c2 r2']; [done|].
  destruct (Ascii.eqb_spec c2 ".") as [->|]; [|done].
  destruct (take_digits r2') as [c r3] eqn:Hc.
  destruct (is_empty c) eqn:Hec; [done|].
  intros [= <-].
  destruct (take_digits_split _ _ _ Ha) as [-> Hda].
  destruct (take_digits_split _ _ _ Hb) as [-> Hdb].
  destruct (take_digits_split _ _ _ Hc) as [-> Hdc].
  split.
  - exists a, b, c. repeat split; try done; by intros ->.
  - exists r3.
    change (String "." (b +:+ String "." (c +:+ r3)))
      with ("." +:+ b +:+ "." +:+ c +:+ r3).
    by rewrite !app_assoc'.
Qed.

(** Where a triple begins, a match is found. *)
Lemma triple_at_complete (t post : string) :
  is_triple t -> is_Some (triple_at (t +:+ post)).
Proof.
  intros (a & b & c & [Hda Hna] & [Hdb Hnb] & [Hdc Hnc] & ->).
  rewrite !app_assoc'. unfold triple_at.
  change ("." +:+ b +:+ "." +:+ c +:+ post) with (String "." (b +:+ "." +:+ c +:+ post)).
  rewrite (take_digits_dot _ _ Hda), (is_empty_false _ Hna). cbn [Ascii.eqb Bool.eqb].
  change ("." +:+ c +:+ post) with (String "." (c +:+ post)).
  rewrite (take_digits_dot _ _ Hdb), (is_empty_false _ Hnb). cbn [Ascii.eqb Bool.eqb].
  rewrite (take_digits_app _ _ Hdc), (is_empty_app _ _ Hnc). by eexists.
Qed.

(** The match of [find_triple] is a triple that occurs in the string,
    and no triple begins before it. *)
Lemma find_triple_sound (s t : string) :
  find_triple s = Some t ->
  is_triple t
  /\ exists pre post,
       s = pre +:+ t +:+ post
       /\ forall pre' t' post',
            s = pre' +:+ t' +:+ post' -> is_triple t' ->
            (String.length pre <= String.length pre')%nat.
Proof.
  revert t. induction s as [|ch rest IH]; intros t.
  - cbn. done.
  - cbn [find_triple]. destruct (triple_at (String ch rest)) as [t0|] eqn:Hat.
    + intros [= <-]. destruct (triple_at_sound _ _ Hat) as [Htriple [post Hpost]].
      split; [done|]. exists "", post. split; [by rewrite app_empty_l|].
      intros. cbn. lia.
    + intros Hfind. destruct (IH t Hfind) as (Htriple & pre & post & -> & Hleft).
      split; [done|]. exists (String ch pre), post. split; [by rewrite app_cons|].
      intros pre' t' post' Hs Ht'.
      destruct pre' as [|ch' pre''].
      * rewrite app_empty_l in Hs.
        destruct (triple_at_complete t' post' Ht') as [x Hx].
        rewrite <- Hs, Hat in Hx. done.
      * rewrite app_cons in Hs. injection Hs as _ Hs.
        pose proof (Hleft pre'' t' post' Hs Ht'). cbn. lia.
Qed.

(** When [find_triple] finds nothing, no triple occurs in the string. *)
Lemma find_triple_complete (s : string) :
  find_triple s = None ->
  forall pre t post, s = pre +:+ t +:+ post -> ~ is_triple t.
Proof.
  induction s as [|ch rest IH]; intros Hfind pre t post Hs Ht.
  - destruct (triple_at_complete t post Ht) as [x Hx].
    destruct pre; [|done]. rewrite app_empty_l in Hs. rewrite <- Hs in Hx. done.
  - cbn [find_triple] in Hfind.
    destruct (triple_at (String ch rest)) as [t0|] eqn:Hat; [done|].
    destruct pre as [|ch' pre'].
    + rewrite app_empty_l in Hs.
      destruct (triple_at_complete t post Ht) as [x Hx].
      rewrite <- Hs, Hat in Hx. done.
    + rewrite app_cons in Hs. injection Hs as _ Hs.
      exact (IH Hfind pre' t post Hs Ht).
Qed.

(** A triple begins with a digit. *)
Lemma triple_head (t : string) :
  is_triple t -> exists d rest, t = String d rest /\ is_digit d = true.
Proof.
  intros (a & b & c & [Hda Hna] & _ & _ & ->).
  destruct a as [|d a']; [done|]. cbn in Hda.
  apply andb_true_iff in Hda as [Hd _].
  exists d, (a' +:+ "." +:+ b +:+ "." +:+ c). by rewrite app_cons.
Qed.

(** What [take_digits] leaves does not begin with a digit. *)
Lemma take_digits_rest (s ds tl : string) :
  take_digits s = (ds, tl) -> starts_with_digit tl = false.
Proof.
  revert ds tl. induction s as [|c rest IH]; intros ds tl.
  - cbn. by intros [= <- <-].
  - cbn [take_digits]. destruct (is_digit c) eqn:Hc.
    + destruct (take_digits rest) as [ds' tl']. intros [= <- <-]. by apply (IH ds').
    + intros [= <- <-]. exact Hc.
Qed.

(** A match at the head takes all the digits of its last numeral. *)
Lemma triple_at_greedy (s t : string) :
  triple_at s = Some t -> exists post, s = t +:+ post /\ starts_with_digit post = false.
Proof.
  unfold triple_at.
  destruct (take_digits s) as [a r1] eqn:Ha.
  destruct (is_empty a) eqn:Hea; [done|].
  destruct r1 as [|c1 r1']; [done|].
  destruct (Ascii.eqb_spec c1 ".") as [->|]; [|done].
  destruct (take_digits r1') as [b r2] eqn:Hb.
  destruct (is_empty b) eqn:Heb; [done|].
  destruct r2 as [|c2 r2']; [done|].
  destruct (Ascii.eqb_spec c2 ".") as [->|]; [|done].
  destruct (take_digits r2') as [c r3] eqn:Hc.
  destruct (is_empty c) eqn:Hec; [done|].
  intros [= <-].
  destruct (take_digits_split _ _ _ Ha) as [-> _].
  destruct (take_digits_split _ _ _ Hb) as [-> _].
  destruct (take_digits_split _ _ _ Hc) as [-> _].
  exists r3. split; [|by apply (take_digits_rest _ _ _ Hc)].
  change (String "." (b +:+ String "." (c +:+ r3)))
    with ("." +:+ b +:+ "." +:+ c +:+ r3).
  by rewrite !app_assoc'.
Qed.

(** Where a triple stands with no digit after it, it is the match. *)
Lemma triple_at_maximal (t post : string) :
  is_triple t -> starts_with_digit post = false -> triple_at (t +:+ post) = Some t.
Proof.
  intros Ht Hpost.
  destruct (triple_at_complete t post Ht) as [t' Hat].
  destruct (triple_at_greedy _ _ Hat) as (post' & Heq & Hpost').
  destruct Ht as (a & b & c & [Hda Hna] & [Hdb Hnb] & [Hdc Hnc] & ->).
  rewrite Hat. f_equal.
  revert Hat. rewrite !app_assoc'. unfold triple_at.
  change ("." +:+ b +:+ "." +:+ c +:+ post) with (String "." (b +:+ "." +:+ c +:+ post)).
  rewrite (take_digits_dot _ _ Hda), (is_empty_false _ Hna). cbn [Ascii.eqb Bool.eqb].
  change ("." +:+ c +:+ post) with (String "." (c +:+ post)).
  rewrite (take_digits_dot _ _ Hdb), (is_empty_false _ Hnb). cbn [Ascii.eqb Bool.eqb].
  rewrite (take_digits_app _ _ Hdc), (is_empty_app _ _ Hnc).
  assert (fst (take_digits post) = "") as ->.
  { destruct post as [|d tail]; [done|]. cbn in Hpost. cbn. by rewrite Hpost. }
  rewrite app_empty_r. by intros [= <-].
Qed.

(** Two ways of cutting a string at the same place are the same. *)
Lemma app_inj_length (p1 r1 p2 r2 : string) :
  p1 +:+ r1 = p2 +:+ r2 -> String.length p1 = String.length p2 ->
  p1 = p2 /\ r1 = r2.
Proof.
  revert p2. induction p1 as [|c p1 IH]; intros [|d p2] Heq Hlen; try done.
  rewrite !app_cons in Heq. injection Heq as -> Heq. cbn in Hlen.
  destruct (IH p2 Heq) as [-> ->]; [lia | done].
Qed.

(** The match of [find_triple] is the leftmost triple of the string. *)
Lemma find_triple_leftmost (s t : string) :
  find_triple s = Some t -> leftmost_triple s t.
Proof.
  revert t. induction s as [|ch rest IH]; intros t.
  - cbn. done.
  - cbn [find_triple]. destruct (triple_at (String ch rest)) as [t0|] eqn:Hat.
    + intros [= <-]. destruct (triple_at_sound _ _ Hat) as [Htriple _].
      destruct (triple_at_greedy _ _ Hat) as (post & Hpost & Hstop).
      exists "", post. split; [by rewrite app_empty_l|]. split; [done|].
      split; [done|]. intros. cbn. lia.
    + intros Hfind. destruct (IH t Hfind) as (pre & post & -> & Htriple & Hstop & Hleft).
      exists (String ch pre), post. split; [by rewrite app_cons|]. split; [done|].
      split; [done|].
      intros pre' t' post' Hs Ht'.
      destruct pre' as [|ch' pre''].
      * rewrite app_empty_l in Hs.
        destruct (triple_at_complete t' post' Ht') as [x Hx].
        rewrite <- Hs, Hat in Hx. done.
      * rewrite app_cons in Hs. injection Hs as _ Hs.
        pose proof (Hleft pre'' t' post' Hs Ht'). cbn. lia.
Qed.

(** A string has at most one leftmost triple. *)
Lemma leftmost_triple_unique (s t1 t2 : string) :
  leftmost_triple s t1 -> leftmost_triple s t2 -> t1 = t2.
Proof.
  intros (pre1 & post1 & Hs1 & Ht1 & Hstop1 & Hleft1)
         (pre2 & post2 & Hs2 & Ht2 & Hstop2 & Hleft2).
  pose proof (Hleft1 pre2 t2 post2 Hs2 Ht2) as Hle1.
  pose proof (Hleft2 pre1 t1 post1 Hs1 Ht1) as Hle2.
  rewrite Hs1 in Hs2.
  destruct (app_inj_length _ _ _ _ Hs2) as [_ Hrest]; [lia|].
  pose proof (triple_at_maximal t1 post1 Ht1 Hstop1) as Hat1.
  rewrite Hrest, (triple_at_maximal t2 post2 Ht2 Hstop2) in Hat1.
  by injection Hat1.
Qed.

End TripleFacts.

Section Resolution.
Import Js ConfigReader.

Lemma truthy_VStr (s : string) : truthy (VStr s) = true <-> s <> "".
Proof. destruct s; cbn; split; done. Qed.

(** A source that yields wins. *)
Lemma run_checks_hit (method : M Value) (source : string)
    (rest : list (M Value * string)) (otherwise : M Value)
    (w w1 : World) (s : string) :
  yields method w s w1 ->
  run_checks ((method, source) :: rest) otherwise w
  = (inr (VProjectVersion (normalizeVersion s) source), w1).
Proof.
  intros [Hm Hs]. cbn [run_checks]. unfold bind at 1. rewrite Hm.
  apply truthy_VStr in Hs. by rewrite Hs.
Qed.

(** A source that yields nothing hands over to the next one. *)
Lemma run_checks_skip (method : M Value) (source : string)
    (rest : list (M Value * string)) (otherwise : M Value) (w w1 : World) :
  yields_nothing method w w1 ->
  run_checks ((method, source) :: rest) otherwise w = run_checks rest otherwise w1.
Proof.
  intros (v & Hm & Hv). cbn [run_checks]. unfold bind at 1. by rewrite Hm, Hv.
Qed.

(** The resolution computes the selection by priority. *)
Lemma resolve_selects (root : string) (w w' : World) (r : option (string * string)) :
  selects root w r w' ->
  resolveProjectNodeVersion root w = (inr (config_of r), w').
Proof.
  unfold resolveProjectNodeVersion, checks, measure.
  destruct 1 as [s w1 H1 | s w1 w2 H1 H2 | s w1 w2 w3 H1 H2 H3
                 | s config w1 w2 w3 w4 H1 H2 H3 H4 Ht [Hv Hs]
                 | s config w1 w2 w3 w4 H1 H2 H3 H4 Ht (vv & Hv & Hvf) [He Hs]
                 | config w1 w2 w3 w4 H1 H2 H3 H4 Ht (vv & Hv & Hvf) (ve & He & Hef)
                 | w1 w2 w3 w4 H1 H2 H3 (config & H4 & Ht)].
  - by rewrite (run_checks_hit _ _ _ _ _ _ _ H1).
  - by rewrite (run_checks_skip _ _ _ _ _ _ H1), (run_checks_hit _ _ _ _ _ _ _ H2).
  - by rewrite (run_checks_skip _ _ _ _ _ _ H1), (run_checks_skip _ _ _ _ _ _ H2),
      (run_checks_hit _ _ _ _ _ _ _ H3).
  - rewrite (run_checks_skip _ _ _ _ _ _ H1), (run_checks_skip _ _ _ _ _ _ H2),
      (run_checks_skip _ _ _ _ _ _ H3). cbn [run_checks].
    unfold check_package, measure, bind, lift. rewrite H4, Ht, Hv.
    apply truthy_VStr in Hs. by rewrite Hs.
  - rewrite (run_checks_skip _ _ _ _ _ _ H1), (run_checks_skip _ _ _ _ _ _ H2),
      (run_checks_skip _ _ _ _ _ _ H3). cbn [run_checks].
    unfold check_package, measure, bind, lift. rewrite H4, Ht, Hv, Hvf, He.
    apply truthy_VStr in Hs. by rewrite Hs.
  - rewrite (run_checks_skip _ _ _ _ _ _ H1), (run_checks_skip _ _ _ _ _ _ H2),
      (run_checks_skip _ _ _ _ _ _ H3). cbn [run_checks].
    unfold check_package, measure, bind, lift. by rewrite H4, Ht, Hv, Hvf, He, Hef.
  - rewrite (run_checks_skip _ _ _ _ _ _ H1), (run_checks_skip _ _ _ _ _ _ H2),
      (run_checks_skip _ _ _ _ _ _ H3). cbn [run_checks].
    unfold check_package, measure, bind. by rewrite H4, Ht.
Qed.

End Resolution.

Section ResolutionConverse.
Import Js ConfigReader.

(** One turn of the loop, read backwards. *)
Lemma run_checks_inv (method : M Value) (source : string)
    (rest : list (M Value * string)) (otherwise : M Value)
    (w w' : World) (v : Value) :
  run_checks ((method, source) :: rest) otherwise w = (inr v, w') ->
  (exists s, yields method w s w' /\ v = VProjectVersion (normalizeVersion s) source)
  \/ (exists w1, yields_nothing method w w1
                 /\ run_checks rest otherwise w1 = (inr v, w')).
Proof.
  cbn [run_checks]. unfold bind at 1.
  destruct (method w) as [[e|x] w1] eqn:Hm; [done|].
  destruct (truthy x) eqn:Ht.
  - destruct x; try done. cbn. intros [= <- <-]. left. exists s.
    split; [|done]. split; [done|]. by apply truthy_VStr.
  - intros Hrest. right. exists w1. split; [by exists x|done].
Qed.

(** The manifest part, read backwards. *)
Lemma check_package_inv (root : string) (w w' : World) (v : Value) :
  check_package root w = (inr v, w') ->
  (exists config, readPackageJson root w = (inr config, w') /\ truthy config = true
     /\ ((exists s, field_yields config "volta" s
                    /\ v = VProjectVersion (normalizeVersion s) "package.json (volta.node)")
         \/ (exists s, field_yields_nothing config "volta"
                       /\ field_yields config "engines" s
                       /\ v = VProjectVersion (normalizeVersion s)
                                "package.json (engines.node)")
         \/ (field_yields_nothing config "volta"
             /\ field_yields_nothing config "engines" /\ v = VNull)))
  \/ (yields_nothing (readPackageJson root) w w' /\ v = VNull).
Proof.
  unfold check_package, measure, bind at 1.
  destruct (readPackageJson root w) as [[e|config] w1] eqn:Hread; [done|].
  destruct (truthy config) eqn:Ht.
  - unfold bind at 1, lift.
    destruct (get_prop config "volta") as [e|volta] eqn:Hvolta; [done|].
    destruct (truthy volta) eqn:Htv.
    + destruct volta; try done. cbn. intros [= <- <-]. left.
      exists config. split; [done|]. split; [done|]. left. exists s.
      split; [|done]. split; [done|]. by apply truthy_VStr.
    + unfold bind at 1.
      destruct (get_prop config "engines") as [e|engines] eqn:Hengines; [done|].
      destruct (truthy engines) eqn:Hte.
      * destruct engines; try done. cbn. intros [= <- <-]. left.
        exists config. split; [done|]. split; [done|]. right. left. exists s.
        split; [by exists volta|]. split; [|done]. split; [done|]. by apply truthy_VStr.
      * intros [= <- <-]. left. exists config. split; [done|]. split; [done|].
        right. right. split; [by exists volta|]. split; [by exists engines|done].
  - intros [= <- <-]. right. split; [by exists config|done].
Qed.

(** Whatever the resolution returns is the configuration of a selection
    by priority. *)
Lemma resolve_returns_selection (root : string) (w w' : World) (v : Value) :
  resolveProjectNodeVersion root w = (inr v, w') ->
  exists r, selects root w r w' /\ v = config_of r.
Proof.
  unfold resolveProjectNodeVersion, checks, measure. intros Hrun.
  apply run_checks_inv in Hrun as [(s & H1 & ->) | (w1 & H1 & Hrun)].
  { exists (Some (s, ".nvmrc")). split; [by constructor|done]. }
  apply run_checks_inv in Hrun as [(s & H2 & ->) | (w2 & H2 & Hrun)].
  { exists (Some (s, ".node-version")). split; [by econstructor|done]. }
  apply run_checks_inv in Hrun as [(s & H3 & ->) | (w3 & H3 & Hrun)].
  { exists (Some (s, ".tool-versions")). split; [by econstructor|done]. }
  cbn [run_checks] in Hrun.
  apply check_package_inv in Hrun
    as [(config & H4 & Ht & [(s & Hv & ->) | [(s & Hv & He & ->) | (Hv & He & ->)]])
       | [H4 ->]].
  - exists (Some (s, "package.json (volta.node)")). split; [|done].
    by eapply select_volta.
  - exists (Some (s, "package.json (engines.node)")). split; [|done].
    by eapply select_engines.
  - exists None. split; [|done]. by eapply select_no_field.
  - exists None. split; [|done]. by eapply select_no_manifest.
Qed.

(** [getProjectNodeVersion] after a miss of its own entry: the
    resolution, stored for two minutes. *)
Lemma getProjectNodeVersion_miss (root : string) (w w0 : World) :
  Cache.get Cache.CONFIG_FILES ("project_version_" +:+ root) w = (inr VNull, w0) ->
  getProjectNodeVersion root w
  = produce_and_store Cache.CONFIG_FILES ("project_version_" +:+ root)
      (resolveProjectNodeVersion root) (Some (2 * 60 * 1000)) w0.
Proof. intros Hget. unfold getProjectNodeVersion, measure. by apply cached_miss. Qed.

Lemma produce_and_store_inv (namespace key : string) (fn : M Value) (t : option Z)
    (w w' : World) (v : Value) :
  produce_and_store namespace key fn t w = (inr v, w') ->
  exists w1, fn w = (inr v, w1) /\ Cache.set namespace key v t w1 = (inr tt, w').
Proof.
  unfold produce_and_store, bind.
  destruct (fn w) as [[e|x] w1]; [done|]. cbn. intros [= <- <-]. by exists w1.
Qed.

End ResolutionConverse.

Section PinFiles.
Import Js ConfigReader.

(** A pin file that is on disk with a non-blank content, read through a
    cache that holds nothing for it, yields its trimmed content. *)
Lemma readVersionFile_cold (filePath fileName raw : string) (w : World) :
  lookup_entry w Cache.CONFIG_FILES ("file_" +:+ filePath +:+ "_" +:+ fileName) = None ->
  existsSync w filePath = true ->
  readFileSync w filePath = inr raw ->
  trim raw <> "" ->
  exists w', yields (readVersionFile filePath fileName) w (trim raw) w'.
Proof.
  intros Hcold Hexists Hread Hcontent.
  unfold yields, readVersionFile.
  rewrite (cached_miss _ _ _ _ w w (get_absent _ _ w Hcold)).
  unfold produce_and_store, measure, try_catch, fs_existsSync, fs_readFileSync,
    bind, log, read_world, ret.
  cbn. rewrite Hexists. cbn. rewrite Hread.
  rewrite (is_empty_false _ Hcontent). cbn. by eexists.
Qed.

Lemma getProjectNodeVersion_nvmrc (root raw : string) (w : World) :
  lookup_entry w Cache.CONFIG_FILES ("project_version_" +:+ root) = None ->
  lookup_entry w Cache.CONFIG_FILES
    ("file_" +:+ path_join (env w) [root; ".nvmrc"] +:+ "_" +:+ ".nvmrc") = None ->
  existsSync w (path_join (env w) [root; ".nvmrc"]) = true ->
  readFileSync w (path_join (env w) [root; ".nvmrc"]) = inr raw ->
  trim raw <> "" ->
  fst (getProjectNodeVersion root w)
  = inr (VProjectVersion (normalizeVersion (trim raw)) ".nvmrc").
Proof.
  intros Hagg Hcold Hexists Hread Hcontent.
  rewrite (getProjectNodeVersion_miss root w w (get_absent _ _ w Hagg)).
  destruct (readVersionFile_cold _ ".nvmrc" raw w Hcold Hexists Hread Hcontent)
    as (w1 & Hyield).
  assert (selects root w (Some (trim raw, ".nvmrc")) w1) as Hsel.
  { constructor. destruct Hyield as [Hrun Hne]. split; [|done].
    unfold readNvmrc, join, bind, read_world. exact Hrun. }
  destruct (produce_and_store_ok Cache.CONFIG_FILES ("project_version_" +:+ root)
              (resolveProjectNodeVersion root) (Some (2 * 60 * 1000)) w w1 _
              (resolve_selects root w w1 _ Hsel)) as (w' & -> & _).
  done.
Qed.

End PinFiles.

(** C3: when [getProjectNodeVersion] misses its own cache entry, it
    returns exactly the configuration of the source selected by the
    priority order .nvmrc > .node-version > .tool-versions >
    package.json volta.node > package.json engines.node ([selects]): the
    normalized version of the first source that yields a non-empty
    version, with the name of that source, the sources after it not
    being consulted; and nothing else is ever returned.  In particular a
    pin file .nvmrc whose content is "16" gives version "16" with source
    ".nvmrc" whatever the manifest says, as in the project of
    [pinned_world], whose manifest has the engines range ">=18" and is
    not even read. *)
Theorem config_priority_order (root : string) (w w0 : World) :
  Cache.get Cache.CONFIG_FILES ("project_version_" +:+ root) w = (inr VNull, w0) ->
  (forall r w1, selects root w0 r w1 ->
     exists w', ConfigReader.getProjectNodeVersion root w = (inr (config_of r), w')
                /\ trace w' = trace w1)
  /\ (forall v w', ConfigReader.getProjectNodeVersion root w = (inr v, w') ->
        exists r w1, selects root w0 r w1 /\ v = config_of r /\ trace w' = trace w1)
  /\ (forall w2 raw,
        lookup_entry w2 Cache.CONFIG_FILES ("project_version_" +:+ root) = None ->
        lookup_entry w2 Cache.CONFIG_FILES
          ("file_" +:+ path_join (env w2) [root; ".nvmrc"] +:+ "_" +:+ ".nvmrc") = None ->
        existsSync w2 (path_join (env w2) [root; ".nvmrc"]) = true ->
        readFileSync w2 (path_join (env w2) [root; ".nvmrc"]) = inr raw ->
        Js.trim raw = "16" ->
        fst (ConfigReader.getProjectNodeVersion root w2)
        = inr (VProjectVersion "16" ".nvmrc"))
  /\ fst (ConfigReader.getProjectNodeVersion "/proj" pinned_world)
     = inr (VProjectVersion "16" ".nvmrc")
  /\ trace (snd (ConfigReader.getProjectNodeVersion "/proj" pinned_world))
     = [EvExists "/proj/.nvmrc"; EvReadFile "/proj/.nvmrc"]
  /\ fst (ConfigReader.getProjectNodeVersion "/proj" manifest_only_world)
     = inr (VProjectVersion ">=18" "package.json (engines.node)").
Proof.
  intros Hget. rewrite (getProjectNodeVersion_miss root w w0 Hget).
  split.
  { intros r w1 Hsel.
    destruct (produce_and_store_ok Cache.CONFIG_FILES ("project_version_" +:+ root)
                (ConfigReader.resolveProjectNodeVersion root) (Some (2 * 60 * 1000))
                w0 w1 _ (resolve_selects root w0 w1 r Hsel))
      as (w' & Hrun & _ & _ & Htrace).
    by exists w'. }
  split.
  { intros v w' Hrun.
    apply produce_and_store_inv in Hrun as (w1 & Hres & Hset).
    destruct (resolve_returns_selection root w0 w1 v Hres) as (r & Hsel & ->).
    exists r, w1. split; [done|]. split; [done|].
    destruct (set_steps Cache.CONFIG_FILES ("project_version_" +:+ root) (config_of r)
                (Some (2 * 60 * 1000)) w1) as (w'' & Hset' & [Ht _] & _).
    rewrite Hset in Hset'. injection Hset' as <-. by rewrite app_nil_r in Ht. }
  split.
  { intros w2 raw Hagg Hcold Hexists Hread Htrim.
    rewrite (getProjectNodeVersion_nvmrc root raw w2 Hagg Hcold Hexists Hread).
    - by rewrite Htrim.
    - by rewrite Htrim. }
  repeat apply conj; vm_compute; reflexivity.
Qed.

(** C3 on the project of [pinned_world]: the selection is the pin file,
    and the theorem gives the result of [getProjectNodeVersion]. *)
Lemma config_priority_order_witness :
  exists w',
    ConfigReader.getProjectNodeVersion "/proj" pinned_world
    = (inr (VProjectVersion "16" ".nvmrc"), w').
Proof.
  destruct (config_priority_order "/proj" pinned_world pinned_world) as [Hsel _];
    [reflexivity|].
  destruct (Hsel (Some ("16", ".nvmrc"))
              (snd (ConfigReader.readNvmrc "/proj" pinned_world)))
    as (w' & Hrun & _).
  - constructor. split; [reflexivity | discriminate].
  - exists w'. exact Hrun.
Defined.

Section Normalization.
Import Js ConfigReader.

Lemma normalizeVersion_unfold (s : string) :
  normalizeVersion s
  = if has_range_marker (strip_v s)
    then match find_triple (strip_v s) with
         | Some m => m
         | None => strip_v s
         end
    else strip_v s.
Proof. reflexivity. Qed.

(** Without a range marker only the leading "v" goes. *)
Lemma normalizeVersion_plain (s : string) :
  has_range_marker (strip_v s) = false -> normalizeVersion s = strip_v s.
Proof. intros H. by rewrite normalizeVersion_unfold, H. Qed.

(** With a range marker and a triple somewhere, the result is the
    leftmost triple of the string. *)
Lemma normalizeVersion_collapse (s : string) :
  has_range_marker (strip_v s) = true ->
  (exists pre t post, strip_v s = pre +:+ t +:+ post /\ is_triple t) ->
  leftmost_triple (strip_v s) (normalizeVersion s).
Proof.
  intros Hmarker (pre0 & t0 & post0 & Hs & Ht0).
  rewrite normalizeVersion_unfold, Hmarker.
  destruct (find_triple (strip_v s)) as [m|] eqn:Hfind.
  - by apply find_triple_leftmost.
  - by destruct (find_triple_complete _ Hfind pre0 t0 post0 Hs).
Qed.

(** With a range marker, the leftmost triple of the string is the
    result. *)
Lemma normalizeVersion_leftmost (s t : string) :
  has_range_marker (strip_v s) = true ->
  leftmost_triple (strip_v s) t -> normalizeVersion s = t.
Proof.
  intros Hmarker Hleft.
  apply (leftmost_triple_unique (strip_v s)); [|done].
  apply normalizeVersion_collapse; [done|].
  destruct Hleft as (pre & post & Hs & Ht & _). by exists pre, t, post.
Qed.

(** With a range marker but no triple, only the leading "v" goes. *)
Lemma normalizeVersion_no_triple (s : string) :
  has_range_marker (strip_v s) = true ->
  (forall pre t post, strip_v s = pre +:+ t +:+ post -> ~ is_triple t) ->
  normalizeVersion s = strip_v s.
Proof.
  intros Hmarker Hnone. rewrite normalizeVersion_unfold, Hmarker.
  destruct (find_triple (strip_v s)) as [m|] eqn:Hfind; [|done].
  destruct (find_triple_sound _ _ Hfind) as (Htriple & pre & post & Hs & _).
  by destruct (Hnone pre m post Hs).
Qed.

Lemma is_triple_18_0_0 : is_triple "18.0.0".
Proof. exists "18", "0", "0". by repeat split. Qed.

End Normalization.

(** C5, as stated, fails on the markers "<=", ">", "<" and "=": the
    spec "<=18.0.0" contains the marker "<=" and the three-part version
    "18.0.0", yet [normalizeVersion] returns it unchanged, and
    [getProjectNodeVersion] returns it as it stands from a pin file; the
    same holds for ">18.0.0", "<18.0.0" and "=18.0.0". *)
Lemma comparison_markers_are_not_collapsed :
  Js.includes "<=18.0.0" "<=" = true
  /\ is_triple "18.0.0"
  /\ "<=18.0.0" = "<=" +:+ "18.0.0" +:+ ""
  /\ ConfigReader.normalizeVersion "<=18.0.0" = "<=18.0.0"
  /\ ConfigReader.normalizeVersion "<=18.0.0" <> "18.0.0"
  /\ ConfigReader.normalizeVersion ">18.0.0" = ">18.0.0"
  /\ ConfigReader.normalizeVersion "<18.0.0" = "<18.0.0"
  /\ ConfigReader.normalizeVersion "=18.0.0" = "=18.0.0"
  /\ fst (ConfigReader.getProjectNodeVersion "/proj" range_pin_world)
     = inr (VProjectVersion "<=18.0.0" ".nvmrc").
Proof.
  split; [reflexivity|]. split; [apply is_triple_18_0_0|].
  repeat apply conj; vm_compute; congruence.
Qed.

(** C5 (amended): a configuration returned by [getProjectNodeVersion]
    after a miss of its own entry carries the normalized form of the raw
    spec of the selected source, whichever source that is.  Normalizing
    strips one leading "v"; then, if what remains contains one of the
    markers ">=", "^" or "~" and also contains a three-part numeric
    version, the result is just that version: the leftmost one, with
    all the digits of its last numeral, and nothing else; otherwise what
    remains is returned as it is. *)
Theorem returned_specs_are_normalized (root : string) (w w0 : World) (s : string) :
  Cache.get Cache.CONFIG_FILES ("project_version_" +:+ root) w = (inr VNull, w0) ->
  (forall version source w',
     ConfigReader.getProjectNodeVersion root w
     = (inr (VProjectVersion version source), w') ->
     exists raw w1,
       selects root w0 (Some (raw, source)) w1
       /\ version = ConfigReader.normalizeVersion raw)
  /\ (has_range_marker (Js.strip_v s) = false ->
      ConfigReader.normalizeVersion s = Js.strip_v s)
  /\ (has_range_marker (Js.strip_v s) = true ->
      (exists pre t post, Js.strip_v s = pre +:+ t +:+ post /\ is_triple t) ->
      leftmost_triple (Js.strip_v s) (ConfigReader.normalizeVersion s))
  /\ (forall t,
        has_range_marker (Js.strip_v s) = true ->
        leftmost_triple (Js.strip_v s) t ->
        ConfigReader.normalizeVersion s = t)
  /\ (has_range_marker (Js.strip_v s) = true ->
      (forall pre t post, Js.strip_v s = pre +:+ t +:+ post -> ~ is_triple t) ->
      ConfigReader.normalizeVersion s = Js.strip_v s).
Proof.
  intros Hget. split.
  { intros version source w' Hrun.
    rewrite (getProjectNodeVersion_miss root w w0 Hget) in Hrun.
    apply produce_and_store_inv in Hrun as (w1 & Hres & _).
    destruct (resolve_returns_selection root w0 w1 _ Hres) as (r & Hsel & Hv).
    destruct r as [[raw source']|]; [|done].
    cbn in Hv. injection Hv as -> ->. by exists raw, w1. }
  split; [apply normalizeVersion_plain|].
  split; [apply normalizeVersion_collapse|].
  split; [intros t; apply normalizeVersion_leftmost | apply normalizeVersion_no_triple].
Qed.

(** C5 (amended) on the range ">=18.17.10": the marker ">=" is there,
    the version "18.17.10" follows it with nothing after, and no version
    begins at ">" or at "=", so the result is "18.17.10", with both
    digits of the patch; and on "v18", which only loses its "v". *)
Lemma returned_specs_are_normalized_witness :
  ConfigReader.normalizeVersion ">=18.17.10" = "18.17.10"
  /\ ConfigReader.normalizeVersion "v18" = "18".
Proof.
  destruct (returned_specs_are_normalized "/proj" bare_world bare_world ">=18.17.10")
    as (_ & _ & _ & Hleftmost & _); [reflexivity|].
  split.
  - apply Hleftmost; [reflexivity|].
    exists ">=", "". split; [reflexivity|].
    split; [exists "18", "17", "10"; by repeat split|].
    split; [reflexivity|].
    intros pre' t' post' Hs (a & b & c & [Hda Hna] & _ & _ & ->).
    destruct a as [|d a']; [done|].
    apply andb_true_iff in Hda as [Hd _].
    destruct pre' as [|c1 [|c2 pre'']]; [| |cbn; lia].
    + injection Hs as <-. by vm_compute in Hd.
    + injection Hs as _ <-. by vm_compute in Hd.
  - destruct (returned_specs_are_normalized "/proj" bare_world bare_world "v18")
      as (_ & Hplain & _); [reflexivity|].
    apply Hplain. reflexivity.
Defined.

(** ** The matcher on comparison and range specs *)

Section ComparisonSpecs.
Import Js Matcher ConfigReader.









End ComparisonSpecs.




(* ===================================================================== *)
(** * Further properties *)
(* ===================================================================== *)

(** ** The cache: writing, removing, sweeping *)

Section CacheFrame.

(** [set] leaves every other entry alone. *)
Lemma set_frame (namespace key : string) (v : Value) (t : option Z) (w w1 : World)
    (namespace' key' : string) :
  Cache.set namespace key v t w = (inr tt, w1) ->
  (namespace', key') <> (namespace, key) ->
  lookup_entry w1 namespace' key' = lookup_entry w namespace' key'.
Proof.
  intros Hset Hne. injection Hset as <-. unfold lookup_entry. cbn.
  destruct (decide (namespace' = namespace)) as [->|Hns].
  - rewrite lookup_insert_eq.
    assert (key' <> key) as Hk by congruence.
    rewrite lookup_insert_ne by done.
    by destruct (caches w !! namespace).
  - by rewrite lookup_insert_ne.
Qed.

Lemma delete_namespace_lookup (namespace : string) (w : World) (namespace' key' : string) :
  lookup_entry (with_caches (base.delete namespace (caches w)) w) namespace' key'
  = if decide (namespace' = namespace) then None else lookup_entry w namespace' key'.
Proof.
  unfold lookup_entry. cbn. destruct (decide (namespace' = namespace)) as [->|Hns].
  - by rewrite lookup_delete_eq.
  - by rewrite lookup_delete_ne.
Qed.

Lemma is_empty_true (s : string) : Js.is_empty s = true <-> s = "".
Proof. by destruct s. Qed.

End CacheFrame.

(** X1: a value written with [set(namespace, key, value, ttl)] is read
    back by [get] in every later world that still holds the entry, up to
    and including the instant [ttl] milliseconds after the write, and
    the read changes nothing; one millisecond later [get] returns [null]
    and removes the entry.  A [ttl] that is omitted or 0 stands for five
    minutes.  The write leaves every other entry as it was. *)
Theorem set_get_round_trip (namespace key : string) (v : Value) (t : option Z)
    (w w1 w2 : World) :
  Cache.set namespace key v t w = (inr tt, w1) ->
  lookup_entry w2 namespace key = lookup_entry w1 namespace key ->
  (now w2 - now w <= Cache.ttl_or_default t ->
   Cache.get namespace key w2 = (inr v, w2))
  /\ (Cache.ttl_or_default t < now w2 - now w ->
      exists w3, Cache.get namespace key w2 = (inr VNull, w3)
                 /\ lookup_entry w3 namespace key = None)
  /\ (t = None \/ t = Some 0 -> Cache.ttl_or_default t = 300000)
  /\ (forall namespace' key', (namespace', key') <> (namespace, key) ->
        lookup_entry w1 namespace' key' = lookup_entry w namespace' key').
Proof.
  intros Hset Hsame.
  destruct (set_lookup namespace key v t w) as (w1' & Hset' & Hentry & _).
  rewrite Hset in Hset'. injection Hset' as <-.
  rewrite Hentry in Hsame.
  split; [|split; [|split]].
  - intros Hle. by apply (get_unexpired namespace key w2 _ Hsame).
  - intros Hgt.
    destruct (get_expired namespace key w2 _ Hsame) as (w3 & Hget & Hnone & _).
    { unfold unexpired. cbn. lia. }
    by exists w3.
  - by intros [-> | ->].
  - intros namespace' key' Hne. by apply (set_frame namespace key v t).
Qed.

(** X1 on a write with [ttl] 0 at time 0: the value is still read at
    time 300000. *)
Lemma set_get_round_trip_witness :
  let w1 := snd (Cache.set "ns" "k" (VStr "x") (Some 0) bare_world) in
  Cache.get "ns" "k" (with_now 300000 w1) = (inr (VStr "x"), with_now 300000 w1)
  /\ fst (Cache.get "ns" "k" (with_now 300001 w1)) = inr VNull.
Proof.
  cbv zeta.
  destruct (set_get_round_trip "ns" "k" (VStr "x") (Some 0) bare_world
              (snd (Cache.set "ns" "k" (VStr "x") (Some 0) bare_world))
              (with_now 300000 (snd (Cache.set "ns" "k" (VStr "x") (Some 0) bare_world))))
    as (Hlive & _); [reflexivity | reflexivity |].
  split.
  - apply Hlive. vm_compute. discriminate.
  - reflexivity.
Defined.

(** X2: [delete(namespace, key)] removes that entry and no other;
    [delete(namespace)] removes every entry of the namespace and leaves
    the other namespaces alone; a key that is the empty string counts as
    omitted, so that [delete(namespace, "")] removes the whole
    namespace; [clear()] removes everything.  None of them throws or
    touches the clock or the trace. *)
Theorem delete_and_clear (namespace : string) (key : option string) (w : World) :
  (exists w',
     Cache.delete namespace key w = (inr tt, w')
     /\ now w' = now w /\ trace w' = trace w
     /\ (forall namespace' key', namespace' <> namespace ->
           lookup_entry w' namespace' key' = lookup_entry w namespace' key')
     /\ (key = None \/ key = Some "" ->
         forall key', lookup_entry w' namespace key' = None)
     /\ (forall k, key = Some k -> k <> "" ->
           lookup_entry w' namespace k = None
           /\ forall key', key' <> k ->
                lookup_entry w' namespace key' = lookup_entry w namespace key'))
  /\ (exists w',
        Cache.clear w = (inr tt, w')
        /\ now w' = now w /\ trace w' = trace w
        /\ forall namespace' key', lookup_entry w' namespace' key' = None).
Proof.
  split.
  - destruct key as [k|].
    + destruct (Js.is_empty k) eqn:Hk.
      * exists (with_caches (base.delete namespace (caches w)) w).
        unfold Cache.delete. rewrite Hk.
        split; [done|]. split; [done|]. split; [done|].
        split; [|split].
        -- intros namespace' key' Hne. rewrite delete_namespace_lookup.
           by destruct (decide (namespace' = namespace)).
        -- intros _ key'. rewrite delete_namespace_lookup.
           by destruct (decide (namespace = namespace)).
        -- intros k' [= <-] Hne. apply is_empty_true in Hk. done.
      * unfold Cache.delete. rewrite Hk.
        destruct (caches w !! namespace) as [cache|] eqn:Hns.
        -- eexists. split; [done|]. split; [done|]. split; [done|].
           split; [|split].
           ++ intros namespace' key' Hne. unfold lookup_entry. cbn.
              by rewrite lookup_insert_ne.
           ++ intros [Hnone | [= ->]]; done.
           ++ intros k' [= <-] _. unfold lookup_entry. cbn.
              rewrite lookup_insert_eq, Hns. split.
              ** by rewrite lookup_delete_eq.
              ** intros key' Hne. by rewrite lookup_delete_ne.
        -- exists w. split; [done|]. split; [done|]. split; [done|].
           split; [done|]. split.
           ++ intros [Hnone | [= ->]]; done.
           ++ intros k' [= <-] _. unfold lookup_entry. by rewrite Hns.
    + exists (with_caches (base.delete namespace (caches w)) w).
      split; [done|]. split; [done|]. split; [done|].
      split; [|split].
      * intros namespace' key' Hne. rewrite delete_namespace_lookup.
        by destruct (decide (namespace' = namespace)).
      * intros _ key'. rewrite delete_namespace_lookup.
        by destruct (decide (namespace = namespace)).
      * done.
  - eexists. split; [done|]. split; [done|]. split; [done|].
    intros namespace' key'. unfold lookup_entry. cbn. by rewrite lookup_empty.
Qed.

(** X2 on a cache with two keys in one namespace: deleting the key ""
    removes both. *)
Lemma delete_and_clear_witness :
  let w := snd (Cache.set "ns" "b" (VStr "y") None
                  (snd (Cache.set "ns" "a" (VStr "x") None bare_world))) in
  exists w', Cache.delete "ns" (Some "") w = (inr tt, w')
             /\ lookup_entry w "ns" "a" <> None
             /\ lookup_entry w' "ns" "a" = None
             /\ lookup_entry w' "ns" "b" = None.
Proof.
  cbv zeta.
  destruct (delete_and_clear "ns" (Some "")
              (snd (Cache.set "ns" "b" (VStr "y") None
                      (snd (Cache.set "ns" "a" (VStr "x") None bare_world)))))
    as [(w' & Hdel & _ & _ & _ & Hall & _) _].
  exists w'. split; [exact Hdel|]. split; [vm_compute; discriminate|].
  split; apply Hall; right; reflexivity.
Defined.

(** X3: [has(namespace, key)] never throws; it answers [true] exactly
    when the entry is there, unexpired, and holds a value other than
    [null], and then it changes nothing.  In particular it answers
    [false] for an entry that holds [null]. *)
Theorem has_iff_live_value (namespace key : string) (w : World) :
  exists b w',
    Cache.has namespace key w = (inr b, w')
    /\ (b = true <->
        exists e, lookup_entry w namespace key = Some e
                  /\ unexpired w e /\ value e <> VNull)
    /\ (b = true -> w' = w).
Proof.
  unfold Cache.has, bind.
  destruct (get_cases namespace key w)
    as (v & w' & Hget & _ & _ & _ & _ & Hv).
  rewrite Hget. exists (not_null v), w'. split; [done|].
  destruct Hv as [-> | (-> & e & He & Hle & ->)].
  - split; [|done]. split; [done|].
    intros (e & He & Hle & Hnn). exfalso.
    rewrite (get_unexpired namespace key w e He Hle) in Hget.
    injection Hget as Hval _. done.
  - split; [|done]. split.
    + intros Hb. exists e. split; [done|]. split; [done|].
      intros Hnull. by rewrite Hnull in Hb.
    + intros (e' & He' & _ & Hnn). rewrite He in He'. injection He' as <-.
      by destruct (value e).
Qed.

(** X3 on the two example caches: a stored string is there, a stored
    [null] is not. *)
Lemma has_iff_live_value_witness :
  Cache.has "ns" "k" warm_world = (inr true, warm_world)
  /\ Cache.has "ns" "k" null_entry_world = (inr false, null_entry_world).
Proof.
  destruct (has_iff_live_value "ns" "k" warm_world) as (b & w' & Hhas & Hiff & Hsame).
  assert (b = true) as ->.
  { apply Hiff. exists (mkEntry (VStr "kept") 0 1000).
    split; [reflexivity|]. split; [|discriminate].
    unfold unexpired. vm_compute. discriminate. }
  rewrite (Hsame eq_refl) in Hhas. split; [exact Hhas | reflexivity].
Defined.

Section Sweep.
Import CacheMaintenance.

Lemma cleanup_lookup (w : World) (namespace key : string) :
  lookup_entry (snd (cleanup w)) namespace key
  = match lookup_entry w namespace key with
    | Some e => if expired (now w) e then None else Some e
    | None => None
    end.
Proof.
  unfold lookup_entry, cleanup. cbn. rewrite lookup_omap.
  destruct (caches w !! namespace) as [cache|]; [|done]. cbn.
  destruct (Nat.eqb_spec (size (sweep (now w) cache)) 0) as [Hz|Hnz].
  - apply map_size_empty_iff in Hz.
    destruct (cache !! key) as [e|] eqn:He; [|done].
    destruct (expired (now w) e) eqn:Hexp; [done|].
    exfalso. assert (sweep (now w) cache !! key = Some e) as Hin.
    { apply map_lookup_filter_Some. by split. }
    rewrite Hz in Hin. by rewrite lookup_empty in Hin.
  - unfold sweep. rewrite map_lookup_filter.
    destruct (cache !! key) as [e|]; [|done]. cbn.
    destruct (expired (now w) e) eqn:Hexp; cbn.
    + by rewrite option_guard_False.
    + by rewrite option_guard_True.
Qed.

End Sweep.

(** X4: [cleanup()] never throws and leaves the clock and the trace
    alone; it removes exactly the entries that have expired, so that
    every [get] returns after it what it would have returned without it;
    and it leaves no empty namespace behind. *)
Theorem cleanup_is_transparent (w : World) :
  exists w',
    CacheMaintenance.cleanup w = (inr tt, w')
    /\ now w' = now w /\ trace w' = trace w
    /\ (forall namespace key e,
          lookup_entry w' namespace key = Some e <->
          lookup_entry w namespace key = Some e /\ unexpired w e)
    /\ (forall namespace key,
          fst (Cache.get namespace key w') = fst (Cache.get namespace key w))
    /\ (forall namespace cache, caches w' !! namespace = Some cache -> cache <> ∅).
Proof.
  exists (snd (CacheMaintenance.cleanup w)).
  split; [done|]. split; [done|]. split; [done|].
  assert (forall namespace key e,
            lookup_entry (snd (CacheMaintenance.cleanup w)) namespace key = Some e <->
            lookup_entry w namespace key = Some e /\ unexpired w e) as Hiff.
  { intros namespace key e. rewrite cleanup_lookup.
    unfold unexpired, CacheMaintenance.expired.
    destruct (lookup_entry w namespace key) as [e'|]; [|split; [done | by intros [? _]]].
    destruct (Z.ltb_spec (ttl e') (now w - timestamp e')).
    - split; [done|]. intros [[= ->] Hle]. lia.
    - split; [intros [= ->]; split; [done|lia] | by intros [[= ->] _]]. }
  split; [exact Hiff|]. split.
  - intros namespace key.
    destruct (get_cases namespace key (snd (CacheMaintenance.cleanup w)))
      as (v' & w' & Hget' & _ & _ & _ & _ & Hv').
    destruct (get_cases namespace key w) as (v & w0 & Hget & _ & _ & _ & _ & Hv).
    rewrite Hget', Hget. cbn. f_equal.
    destruct Hv' as [-> | (_ & e' & He' & Hle' & ->)].
    + destruct Hv as [-> | (_ & e & He & Hle & ->)]; [done|].
      assert (lookup_entry (snd (CacheMaintenance.cleanup w)) namespace key = Some e)
        as He' by by apply Hiff.
      assert (unexpired (snd (CacheMaintenance.cleanup w)) e) as Hle' by done.
      rewrite (get_unexpired namespace key _ e He' Hle') in Hget'.
      by injection Hget' as <- _.
    + apply Hiff in He' as [He Hle].
      rewrite (get_unexpired namespace key w e' He Hle) in Hget.
      by injection Hget as <- _.
  - intros namespace cache Hns. cbn in Hns.
    apply lookup_omap_Some in Hns as (cache0 & Hkept & _).
    destruct (Nat.eqb_spec (size (CacheMaintenance.sweep (now w) cache0)) 0) as [Hz|Hnz];
      [done|].
    injection Hkept as <-. intros Hempty. apply Hnz.
    by apply map_size_empty_iff.
Qed.

(** X4 on a cache with one entry, swept after its expiry: the entry and
    its namespace are gone. *)
Lemma cleanup_is_transparent_witness :
  exists w', CacheMaintenance.cleanup (with_now 2000 warm_world) = (inr tt, w')
             /\ lookup_entry w' "ns" "k" = None
             /\ caches w' !! "ns" = None.
Proof.
  destruct (cleanup_is_transparent (with_now 2000 warm_world))
    as (w' & Hrun & _ & _ & Hiff & _ & Hne).
  exists w'. split; [exact Hrun|].
  injection Hrun as <-. split; reflexivity.
Defined.

(** ** Queries on the detected managers *)

Section ManagerQueries.
Import Detector EnvironmentDetector.

Lemma filter_available_managers (ms : list ManagerDetectionResult) (w : World) :
  filter_available (map VManager ms) w
  = (inr (map VManager (List.filter mdr_available ms)), w).
Proof.
  induction ms as [|m ms IH]; [done|].
  cbn [map filter_available List.filter]. unfold bind, lift. cbn [get_prop].
  cbn. rewrite IH. by destruct (mdr_available m).
Qed.

Lemma find_type_managers (t : string) (ms : list ManagerDetectionResult) (w : World) :
  find_type t (map VManager ms) w
  = (inr (match List.find (fun m => String.eqb (type_name (mdr_type m)) t) ms with
          | Some m => VManager m
          | None => VUndefined
          end), w).
Proof.
  induction ms as [|m ms IH]; [done|].
  cbn [map find_type List.find]. unfold bind, lift, type_is. cbn.
  by destruct (String.eqb (type_name (mdr_type m)) t).
Qed.

Lemma type_name_nvm (t : NodeManagerType) :
  String.eqb (type_name t) "nvm" = true <-> t = nvm.
Proof. by destruct t. Qed.

(** When the primary probe reports available, the aggregate is the list
    with its descriptor alone, stored for [cacheExpiry]. *)
Lemma detectAllManagers_available (w w1 w2 : World) (hit : Value)
    (primary : ManagerDetectionResult) :
  Cache.get Cache.ENVIRONMENT_DETECTION "all_managers" w = (inr hit, w1) ->
  truthy hit = false ->
  detectNVM w1 = (inr (VManager primary), w2) ->
  mdr_available primary = true ->
  exists w3,
    detectAllManagers w = (inr (VArr [VManager primary]), w3)
    /\ lookup_entry w3 Cache.ENVIRONMENT_DETECTION "all_managers"
       = Some (mkEntry (VArr [VManager primary]) (now w2) cacheExpiry)
    /\ now w3 = now w2 /\ trace w3 = trace w2.
Proof.
  intros Hget Hfalsy Hnvm Hav.
  unfold detectAllManagers, bind, measure, lift.
  rewrite Hget, Hfalsy, Hnvm. cbn [get_prop String.eqb Ascii.eqb Bool.eqb].
  cbn. rewrite Hav. cbn.
  eexists. split; [done|]. unfold lookup_entry. cbn.
  rewrite lookup_insert_eq. by rewrite lookup_insert_eq.
Qed.

End ManagerQueries.

(** X5: when [detectAllManagers] hands over a list of descriptors,
    [getPreferredManager] never throws and does nothing more to the
    world; it returns [null] exactly when no descriptor of the list is
    available; otherwise it returns a descriptor of the list that is
    available, and one of type nvm whenever the list has an available
    descriptor of that type. *)
Theorem preferred_manager_is_available (w w' : World)
    (ms : list ManagerDetectionResult) :
  Detector.detectAllManagers w = (inr (VArr (map VManager ms)), w') ->
  exists r,
    EnvironmentDetector.getPreferredManager w = (inr r, w')
    /\ (r = VNull <-> forall m, In m ms -> mdr_available m = false)
    /\ (r = VNull \/ exists m, r = VManager m /\ In m ms /\ mdr_available m = true)
    /\ (forall m', In m' ms -> mdr_available m' = true -> mdr_type m' = nvm ->
          exists m, r = VManager m /\ mdr_type m = nvm).
Proof.
  intros Hall. unfold EnvironmentDetector.getPreferredManager.
  unfold bind at 1. rewrite Hall.
  unfold bind at 1. cbn [EnvironmentDetector.as_array ret].
  unfold bind at 1. rewrite filter_available_managers.
  pose proof (fun m => filter_In mdr_available m ms) as Hin.
  destruct (List.filter mdr_available ms) as [|m1 [|m2 rest]] eqn:Hf; cbn [map].
  - exists VNull. split; [done|]. split; [|split].
    + split; [|done]. intros _ m Hm.
      destruct (mdr_available m) eqn:Hav; [|done].
      by destruct (proj2 (Hin m) (conj Hm Hav)).
    + by left.
    + intros m' Hm' Hav _. by destruct (proj2 (Hin m') (conj Hm' Hav)).
  - destruct (proj1 (Hin m1) (or_introl eq_refl)) as [Hm1 Hav1].
    exists (VManager m1). split; [done|]. split; [|split].
    + split; [done|]. intros Hnone. rewrite (Hnone m1 Hm1) in Hav1. done.
    + right. by exists m1.
    + intros m' Hm' Hav Hty. destruct (proj2 (Hin m') (conj Hm' Hav)) as [->|[]].
      by exists m'.
  - destruct (proj1 (Hin m1) (or_introl eq_refl)) as [Hm1 Hav1].
    unfold bind.
    change (VManager m1 :: VManager m2 :: map VManager rest)
      with (map VManager (m1 :: m2 :: rest)).
    rewrite find_type_managers.
    destruct (List.find (fun m => String.eqb (type_name (mdr_type m)) "nvm")
                (m1 :: m2 :: rest)) as [m|] eqn:Hfind.
    + apply find_some in Hfind as [Hm Hty]. apply type_name_nvm in Hty.
      destruct (proj1 (Hin m) Hm) as [Hm' Hav].
      exists (VManager m). split; [done|]. split; [|split].
      * split; [done|]. intros Hnone. rewrite (Hnone m Hm') in Hav. done.
      * right. by exists m.
      * intros _ _ _ _. by exists m.
    + exists (VManager m1). split; [done|]. split; [|split].
      * split; [done|]. intros Hnone. rewrite (Hnone m1 Hm1) in Hav1. done.
      * right. by exists m1.
      * intros m' Hm' Hav Hty. exfalso.
        pose proof (find_none _ _ Hfind m' (proj2 (Hin m') (conj Hm' Hav))) as Hno.
        cbn in Hno. rewrite Hty in Hno. done.
Qed.

(** X5 on the machine with nvm installed: the preferred manager is the
    nvm descriptor. *)
Lemma preferred_manager_is_available_witness :
  exists m w',
    EnvironmentDetector.getPreferredManager nvm_installed_world = (inr (VManager m), w')
    /\ mdr_type m = nvm /\ mdr_available m = true.
Proof.
  destruct (preferred_manager_is_available nvm_installed_world
              (snd (Detector.detectAllManagers nvm_installed_world))
              [mkManager nvm true (Some "0.39.7") (Some "/home/dev/.nvm") None])
    as (r & Hrun & _ & _ & Hnvm); [vm_compute; reflexivity|].
  destruct (Hnvm (mkManager nvm true (Some "0.39.7") (Some "/home/dev/.nvm") None))
    as (m & -> & Hty); [by left | reflexivity | reflexivity |].
  exists m, (snd (Detector.detectAllManagers nvm_installed_world)).
  split; [exact Hrun|]. split; [exact Hty|].
  vm_compute in Hrun. injection Hrun as <-. reflexivity.
Defined.

(** X6: [isManagerAvailable("unknown")] is [false] and touches nothing.
    In a run that finds no cached aggregate and in which the primary
    probe reports nvm available, [isManagerAvailable("nvm")] is [true]
    and [isManagerAvailable("n")] is [false], whatever a probe of n
    would have found: the list holds the nvm descriptor alone.  The same
    answers come back, without any further action, from every later
    world that still holds the stored list, for five minutes. *)
Theorem n_is_reported_unavailable_when_nvm_is_found (w w1 w2 : World) (hit : Value)
    (primary : ManagerDetectionResult) :
  Cache.get Cache.ENVIRONMENT_DETECTION "all_managers" w = (inr hit, w1) ->
  truthy hit = false ->
  Detector.detectNVM w1 = (inr (VManager primary), w2) ->
  mdr_available primary = true ->
  mdr_type primary = nvm ->
  EnvironmentDetector.isManagerAvailable unknown w = (inr (VBool false), w)
  /\ exists w3,
       EnvironmentDetector.isManagerAvailable nvm w = (inr (VBool true), w3)
       /\ EnvironmentDetector.isManagerAvailable n_manager w = (inr (VBool false), w3)
       /\ trace w3 = trace w2
       /\ forall w4,
            lookup_entry w4 Cache.ENVIRONMENT_DETECTION "all_managers"
            = lookup_entry w3 Cache.ENVIRONMENT_DETECTION "all_managers" ->
            now w4 - now w2 <= 300000 ->
            EnvironmentDetector.isManagerAvailable nvm w4 = (inr (VBool true), w4)
            /\ EnvironmentDetector.isManagerAvailable n_manager w4
               = (inr (VBool false), w4).
Proof.
  intros Hget Hfalsy Hnvm Hav Hty. split; [done|].
  destruct (detectAllManagers_available w w1 w2 hit primary Hget Hfalsy Hnvm Hav)
    as (w3 & Hall & Hentry & Hnow & Htrace).
  assert (forall w0 w0',
            Detector.detectAllManagers w0 = (inr (VArr [VManager primary]), w0') ->
            EnvironmentDetector.isManagerAvailable nvm w0 = (inr (VBool true), w0')
            /\ EnvironmentDetector.isManagerAvailable n_manager w0
               = (inr (VBool false), w0')) as Hquery.
  { intros w0 w0' Hall0.
    unfold EnvironmentDetector.isManagerAvailable, bind. rewrite Hall0.
    cbn [EnvironmentDetector.as_array ret].
    change [VManager primary] with (map VManager [primary]).
    rewrite !find_type_managers. cbn [List.find type_name]. rewrite Hty.
    cbn. by rewrite Hav. }
  exists w3. destruct (Hquery w w3 Hall) as [Hq1 Hq2].
  split; [done|]. split; [done|]. split; [done|].
  intros w4 Hsame Hwithin. apply Hquery.
  rewrite Hentry in Hsame.
  apply (detectAllManagers_hit w4 _ Hsame); [|done].
  unfold unexpired, Detector.cacheExpiry. cbn. lia.
Qed.

(** X6 on a machine where both nvm and n are installed: n is reported
    unavailable. *)
Lemma n_is_reported_unavailable_witness :
  fst (EnvironmentDetector.isManagerAvailable n_manager both_installed_world)
  = inr (VBool false)
  /\ fst (Detector.detectN_block (Detector.initial_result n_manager)
            both_installed_world)
     = (None, mkManager n_manager true (Some "1.0.0") (Some "1.0.0") None).
Proof.
  destruct (n_is_reported_unavailable_when_nvm_is_found
              both_installed_world both_installed_world
              (snd (Detector.detectNVM both_installed_world)) VNull
              (mkManager nvm true (Some "1.0.0") (Some "/home/dev/.nvm") None))
    as (_ & w3 & _ & Hn & _);
    [reflexivity | reflexivity | vm_compute; reflexivity | reflexivity | reflexivity |].
  rewrite Hn. split; reflexivity.
Defined.

Section ClearCache.
Import Detector.

(** The [try] block of [detectNVM] begins by spawning the version
    command of nvm. *)
Lemma detectNVM_block_first_spawn (r : ManagerDetectionResult) (w : World) :
  exists o r' w' evs,
    detectNVM_block r w = ((o, r'), w')
    /\ steps w w' (EvSpawn "nvm" [if isWindows (env w) then "version" else "--version"]
                     :: evs).
Proof.
  unfold detectNVM_block, measure, executeCommand.
  destruct (isWindows (env w)).
  - destruct (spawn_promise_steps "nvm" ["version"] w) as (r1 & w1 & -> & Hs1 & _).
    destruct r1 as [e|nvmCommand]; [by eexists _, _, _, []|].
    destruct (success nvmCommand); [|by eexists _, _, _, []].
    destruct (windows_nvm_path (env w1)) as [e|p]; by eexists _, _, _, [].
  - destruct (spawn_promise_steps "nvm" ["--version"] w) as (r1 & w1 & -> & Hs1 & _).
    destruct r1 as [e|nvmCommand]; [by eexists _, _, _, []|].
    destruct (success nvmCommand); [by eexists _, _, _, []|].
    destruct (executeShellCommand_steps
                ("source " +:+ nvmDir (env w) +:+ "/nvm.sh && nvm --version") w1)
      as (r2 & w2 & evs2 & -> & Hs2 & _).
    pose proof (steps_trans _ _ _ _ _ Hs1 Hs2) as Hs.
    destruct r2 as [e|sourceResult]; [by eexists _, _, _, evs2|].
    destruct (success sourceResult); by eexists _, _, _, evs2.
Qed.

Lemma steps_caches (w w' w'' : World) (evs : list Event) :
  steps w w' evs -> trace w'' = trace w' -> env w'' = env w' -> spawn w'' = spawn w' ->
  existsSync w'' = existsSync w' -> readFileSync w'' = readFileSync w' ->
  steps w w'' evs.
Proof.
  unfold steps. intros (-> & -> & -> & -> & ->) -> -> -> -> ->. done.
Qed.

End ClearCache.

(** X7: [clearCache()] never throws; it empties the two namespaces of
    the detector, the aggregate and the per-tool probes, and leaves
    every other namespace, the clock and the trace alone.  The
    [detectAllManagers] that follows starts from scratch: it invokes the
    primary probe, and the probe spawns the version command of nvm. *)
Theorem clearCache_forces_a_fresh_detection (w : World) :
  exists w',
    EnvironmentDetector.clearCache w = (inr tt, w')
    /\ now w' = now w /\ trace w' = trace w
    /\ (forall key,
          lookup_entry w' Cache.ENVIRONMENT_DETECTION key = None
          /\ lookup_entry w' Cache.MANAGER_DETECTION key = None)
    /\ (forall namespace key,
          namespace <> Cache.ENVIRONMENT_DETECTION ->
          namespace <> Cache.MANAGER_DETECTION ->
          lookup_entry w' namespace key = lookup_entry w namespace key)
    /\ exists l w'' evs,
         Detector.detectAllManagers w' = (inr l, w'')
         /\ trace w''
            = (trace w ++
               EvCall "detectNVM"
               :: EvSpawn "nvm" [if isWindows (env w) then "version" else "--version"]
               :: evs)%list.
Proof.
  set (w' := with_caches
               (base.delete Cache.MANAGER_DETECTION
                  (base.delete Cache.ENVIRONMENT_DETECTION (caches w))) w).
  exists w'. split; [done|]. split; [done|]. split; [done|].
  assert (forall key,
            lookup_entry w' Cache.ENVIRONMENT_DETECTION key = None
            /\ lookup_entry w' Cache.MANAGER_DETECTION key = None) as Hgone.
  { intros key. unfold lookup_entry, w'. cbn. split.
    - rewrite lookup_delete_ne by done. by rewrite lookup_delete_eq.
    - by rewrite lookup_delete_eq. }
  split; [exact Hgone|]. split.
  { intros namespace key Hne1 Hne2. unfold lookup_entry, w'. cbn.
    by rewrite !lookup_delete_ne. }
  unfold Detector.detectAllManagers. unfold bind at 1.
  rewrite (get_absent _ _ w' (proj1 (Hgone "all_managers"))). cbn [truthy].
  unfold measure, bind at 1.
  unfold Detector.detectNVM. unfold bind at 1, log. unfold bind at 1, read_world.
  cbn [env with_event].
  set (key := "nvm_" +:+ (if isWindows (env w) then "windows" else "unix")).
  assert (Cache.get Cache.MANAGER_DETECTION key (with_event (EvCall "detectNVM") w')
          = (inr VNull, with_event (EvCall "detectNVM") w')) as Hmiss.
  { apply get_absent. apply (proj2 (Hgone key)). }
  change (env w') with (env w). fold key.
  rewrite (cached_miss _ _ _ _ _ _ Hmiss).
  destruct (detectNVM_block_first_spawn (Detector.initial_result nvm)
              (with_event (EvCall "detectNVM") w'))
    as (o & r' & w1 & evs1 & Hblock & Hs1).
  destruct (catch_into_result_total
              (Detector.detectNVM_block (Detector.initial_result nvm))
              (with_event (EvCall "detectNVM") w')) as (m & w1' & Hcatch & Hw1 & _).
  rewrite Hblock in Hw1. cbn in Hw1. subst w1'.
  destruct (produce_and_store_ok Cache.MANAGER_DETECTION key _
              (Some Detector.cacheExpiry) _ w1 (VManager m) Hcatch)
    as (w2 & -> & _ & _ & Htrace2).
  destruct Hs1 as (Htrace1 & Henv1 & _).
  cbn [env with_event trace] in Htrace1.
  unfold lift, bind at 1. cbn [get_prop String.eqb Ascii.eqb Bool.eqb].
  cbn [truthy].
  destruct (mdr_available m).
  - unfold bind. cbn. eexists _, _, evs1. split; [done|]. cbn.
    rewrite Htrace2, Htrace1. cbn. by rewrite <- app_assoc.
  - unfold bind at 1.
    destruct (detectN_runs w2) as (v & w3 & evs2 & -> & (Htrace3 & _) & _).
    unfold bind. cbn.
    eexists _, _, (evs1 ++ EvCall "detectN" :: evs2)%list. split; [done|]. cbn.
    rewrite Htrace3, Htrace2, Htrace1. cbn.
    rewrite <- !app_assoc. cbn. done.
Qed.

(** X7 on the machine with nvm installed: a detection spawns one
    process, a second one after [clearCache()] spawns another. *)
Lemma clearCache_forces_a_fresh_detection_witness :
  exists w',
    EnvironmentDetector.clearCache (snd (Detector.detectAllManagers nvm_installed_world))
    = (inr tt, w')
    /\ spawn_count (snd (Detector.detectAllManagers nvm_installed_world)) = 1%nat
    /\ spawn_count (snd (Detector.detectAllManagers w')) = 2%nat
    /\ spawn_count
         (snd (Detector.detectAllManagers
                 (snd (Detector.detectAllManagers nvm_installed_world)))) = 1%nat.
Proof.
  destruct (clearCache_forces_a_fresh_detection
              (snd (Detector.detectAllManagers nvm_installed_world)))
    as (w' & Hrun & _).
  exists w'. split; [exact Hrun|].
  injection Hrun as <-. repeat apply conj; vm_compute; reflexivity.
Defined.

(** ** The configuration reader: absent files and trimmed lines *)

Section TrimmedLines.
Import Js.

(** The version taken from a line of .tool-versions is never empty. *)
Lemma nodejs_line_version (line : string) :
  startsWith (trim line) "nodejs " = true ->
  trim (Matcher.skip 7 (trim line)) <> "".
Proof.
  intros Hstart Hempty.
  apply trim_empty_iff in Hempty.
  pose proof (startsWith_skip _ _ Hstart) as Hsplit.
  change (String.length "nodejs ") with 7%nat in Hsplit.
  set (rest := Matcher.skip 7 (trim line)) in *.
  assert (trimEnd (trim line) = trim line) as Hfix by apply trimEnd_idem.
  rewrite Hsplit in Hfix.
  change ("nodejs " +:+ rest) with ("nodejs" +:+ String " " rest) in Hfix at 1.
  rewrite trimEnd_app_white in Hfix by (cbn; exact Hempty).
  assert (trimEnd "nodejs" = "nodejs") as Hword by reflexivity.
  rewrite Hword in Hfix.
  apply (f_equal String.length) in Hfix. rewrite length_app' in Hfix.
  cbn [String.length] in Hfix. lia.
Qed.

Lemma first_nodejs_line_cases (lines : list string) :
  ConfigReader.first_nodejs_line lines = VNull
  \/ exists s, ConfigReader.first_nodejs_line lines = VStr s
               /\ s <> "" /\ trim s = s.
Proof.
  induction lines as [|line rest IH]; [by left|].
  cbn [ConfigReader.first_nodejs_line].
  destruct (startsWith (trim line) "nodejs ") eqn:Hstart; [|done].
  right. eexists. split; [done|]. split.
  - by apply nodejs_line_version.
  - apply trim_idem.
Qed.

End TrimmedLines.

(** X8: [readToolVersions] never throws and never reads or writes the
    cache; it checks that the file exists and, only if it does, reads
    it.  What it returns is [null] or a version that is not empty and
    carries no white space at either end, so that a version it returns
    is always taken by the resolution. *)
Theorem readToolVersions_result (root : string) (w : World) :
  exists v w',
    ConfigReader.readToolVersions root w = (inr v, w')
    /\ caches w' = caches w /\ now w' = now w
    /\ (v = VNull \/ exists s, v = VStr s /\ s <> "" /\ Js.trim s = s /\ truthy v = true)
    /\ (existsSync w (path_join (env w) [root; ".tool-versions"]) = false ->
        v = VNull
        /\ trace w' = (trace w ++ [EvExists (path_join (env w) [root; ".tool-versions"])])%list).
Proof.
  unfold ConfigReader.readToolVersions, join, try_catch, fs_existsSync, fs_readFileSync,
    bind, log, read_world, ret.
  cbn.
  destruct (existsSync w (path_join (env w) [root; ".tool-versions"])) eqn:Hex; cbn.
  - destruct (readFileSync w (path_join (env w) [root; ".tool-versions"])) as [e|content];
      cbn.
    + eexists _, _. split; [done|]. split; [done|]. split; [done|]. split; [by left|done].
    + eexists _, _. split; [done|]. split; [done|]. split; [done|]. split; [|done].
      destruct (first_nodejs_line_cases (Js.split "010" content))
        as [-> | (s & -> & Hne & Htrim)]; [by left|].
      right. exists s. split; [done|]. split; [done|]. split; [done|].
      by apply truthy_VStr.
  - eexists _, _. split; [done|]. split; [done|]. split; [done|]. split; [by left|done].
Qed.

(** X8 on a file with a comment line and a padded nodejs line. *)
Lemma readToolVersions_result_witness :
  fst (ConfigReader.readToolVersions "/proj"
         (with_files [("/proj/.tool-versions",
                       "python 3.12" +:+ String "010" "  nodejs   20.11.0  ")] bare_world))
  = inr (VStr "20.11.0")
  /\ fst (ConfigReader.readToolVersions "/proj" bare_world) = inr VNull.
Proof.
  split; [reflexivity|].
  destruct (readToolVersions_result "/proj" bare_world) as (v & w' & Hrun & _ & _ & _ & Habs).
  destruct Habs as [-> _]; [reflexivity|].
  by rewrite Hrun.
Defined.

Ltac last_checked :=
  let file := fresh "file" in
  let Hin := fresh "Hin" in
  let Hex := fresh "Hex" in
  intros file Hin Hex; cbn in Hin;
  repeat (destruct Hin as [<- | Hin]; [first [reflexivity | congruence]|]);
  done.

(** X9: [hasConfigFiles] never throws; it leaves the cache and the
    clock alone and does nothing but existence checks, in the order
    .nvmrc, .node-version, .tool-versions, package.json, stopping at the
    first file that exists; it answers [true] exactly when one of the
    four files exists. *)
Theorem hasConfigFiles_checks_existence_only (root : string) (w : World) :
  exists b w' checked,
    ConfigReader.hasConfigFiles root w = (inr b, w')
    /\ caches w' = caches w /\ now w' = now w
    /\ trace w'
       = (trace w ++ map (fun file => EvExists (path_join (env w) [root; file])) checked)%list
    /\ (exists rest, config_file_names = (checked ++ rest)%list)
    /\ (forall file, In file checked ->
          existsSync w (path_join (env w) [root; file]) = true ->
          List.last checked "" = file)
    /\ (b = true ->
        existsSync w (path_join (env w) [root; List.last checked ""]) = true)
    /\ (b = false -> checked = config_file_names)
    /\ (b = true <->
        exists file, In file config_file_names
                     /\ existsSync w (path_join (env w) [root; file]) = true).
Proof.
  unfold ConfigReader.hasConfigFiles, join, fs_existsSync, bind, log, read_world, ret.
  cbn.
  destruct (existsSync w (path_join (env w) [root; ".nvmrc"])) eqn:H1; cbn.
  { exists true, (with_event (EvExists (path_join (env w) [root; ".nvmrc"])) w), [".nvmrc"].
    split; [done|]. split; [done|]. split; [done|]. split; [done|].
    split; [by eexists|]. split; [last_checked|]. split; [done|]. split; [done|]. split; [|done].
    intros _. exists ".nvmrc". split; [by left|done]. }
  destruct (existsSync w (path_join (env w) [root; ".node-version"])) eqn:H2; cbn.
  { eexists true, _, [".nvmrc"; ".node-version"].
    split; [done|]. split; [done|]. split; [done|].
    split; [cbn; by rewrite <- app_assoc|].
    split; [by eexists|]. split; [last_checked|]. split; [done|]. split; [done|]. split; [|done].
    intros _. exists ".node-version". split; [right; by left|done]. }
  destruct (existsSync w (path_join (env w) [root; ".tool-versions"])) eqn:H3; cbn.
  { eexists true, _, [".nvmrc"; ".node-version"; ".tool-versions"].
    split; [done|]. split; [done|]. split; [done|].
    split; [cbn; by rewrite <- !app_assoc|].
    split; [by eexists|]. split; [last_checked|]. split; [done|]. split; [done|]. split; [|done].
    intros _. exists ".tool-versions". split; [right; right; by left|done]. }
  destruct (existsSync w (path_join (env w) [root; "package.json"])) eqn:H4; cbn.
  { eexists true, _, config_file_names.
    split; [done|]. split; [done|]. split; [done|].
    split; [cbn; by rewrite <- !app_assoc|].
    split; [by exists []|]. split; [last_checked|]. split; [done|]. split; [done|]. split; [|done].
    intros _. exists "package.json". split; [right; right; right; by left|done]. }
  eexists false, _, config_file_names.
  split; [done|]. split; [done|]. split; [done|].
  split; [cbn; by rewrite <- !app_assoc|].
  split; [by exists []|]. split; [last_checked|]. split; [done|]. split; [done|]. split; [done|].
  intros (file & Hin & Hex). cbn in Hin.
  destruct Hin as [<- | [<- | [<- | [<- | []]]]]; congruence.
Qed.

(** X9 on the project that has a manifest only: four checks, the last
    one succeeds. *)
Lemma hasConfigFiles_checks_existence_only_witness :
  exists w',
    ConfigReader.hasConfigFiles "/proj" manifest_only_world = (inr true, w')
    /\ length (trace w') = 4%nat
    /\ fst (ConfigReader.hasConfigFiles "/proj" bare_world) = inr false.
Proof.
  destruct (hasConfigFiles_checks_existence_only "/proj" manifest_only_world)
    as (b & w' & checked & Hrun & _ & _ & _ & _ & _ & _ & _ & Hiff).
  assert (b = true) as ->.
  { apply Hiff. exists "package.json". split; [|reflexivity].
    right; right; right; by left. }
  exists w'. split; [exact Hrun|].
  vm_compute in Hrun. injection Hrun as <-. split; reflexivity.
Defined.

Section BlankCache.
Import Js ConfigReader.

Lemma blank_caches (w w' : World) :
  caches w' = caches w -> config_cache_blank w -> config_cache_blank w'.
Proof.
  unfold config_cache_blank, lookup_entry. intros -> Hb. exact Hb.
Qed.

(** On a blank namespace every read is a miss, and leaves it blank. *)
Lemma get_blank (key : string) (w : World) :
  config_cache_blank w ->
  exists w1,
    Cache.get Cache.CONFIG_FILES key w = (inr VNull, w1)
    /\ config_cache_blank w1 /\ steps w w1 [].
Proof.
  intros Hb. unfold Cache.get.
  destruct (caches w !! Cache.CONFIG_FILES) as [cache|] eqn:Hns.
  - destruct (cache !! key) as [e|] eqn:He.
    + assert (value e = VNull) as Hnull.
      { apply (Hb key). unfold lookup_entry. by rewrite Hns. }
      destruct (ttl e <? now w - timestamp e).
      * eexists. split; [done|]. split; [|apply steps_caches with w; try done; apply steps_refl].
        intros key' e'. unfold lookup_entry. cbn. rewrite lookup_insert_eq.
        intros He'. apply lookup_delete_Some in He' as [_ He'].
        apply (Hb key'). unfold lookup_entry. by rewrite Hns.
      * rewrite Hnull. exists w. split; [done|]. split; [done|apply steps_refl].
    + exists w. split; [done|]. split; [done|apply steps_refl].
  - exists w. split; [done|]. split; [done|apply steps_refl].
Qed.

(** Storing [null] keeps the namespace blank. *)
Lemma set_blank (key : string) (t : option Z) (w : World) :
  config_cache_blank w ->
  exists w1,
    Cache.set Cache.CONFIG_FILES key VNull t w = (inr tt, w1)
    /\ config_cache_blank w1 /\ steps w w1 [].
Proof.
  intros Hb. eexists. split; [done|].
  split; [|apply steps_caches with w; try done; apply steps_refl].
  intros key' e'. unfold lookup_entry. cbn. rewrite lookup_insert_eq.
  destruct (decide (key' = key)) as [->|Hne].
  - rewrite lookup_insert_eq. by intros [= <-].
  - rewrite lookup_insert_ne by done. intros He'.
    apply (Hb key'). unfold lookup_entry.
    destruct (caches w !! Cache.CONFIG_FILES); [done|].
    cbn in He'. by rewrite lookup_empty in He'.
Qed.

(** A producer that finds nothing, behind the cache. *)
Lemma cached_blank (key : string) (fn : M Value) (t : option Z) (evs : list Event)
    (w : World) :
  config_cache_blank w ->
  (forall w0, config_cache_blank w0 -> steps w w0 [] ->
     exists w1, fn w0 = (inr VNull, w1) /\ config_cache_blank w1 /\ steps w0 w1 evs) ->
  exists w',
    Cache.cached Cache.CONFIG_FILES key fn t w = (inr VNull, w')
    /\ config_cache_blank w' /\ steps w w' evs.
Proof.
  intros Hb Hfn.
  destruct (get_blank key w Hb) as (w0 & Hget & Hb0 & Hs0).
  rewrite (cached_miss _ _ fn t w w0 Hget).
  destruct (Hfn w0 Hb0 Hs0) as (w1 & Hrun & Hb1 & Hs1).
  unfold produce_and_store, bind. rewrite Hrun.
  destruct (set_blank key t w1 Hb1) as (w2 & -> & Hb2 & Hs2).
  exists w2. split; [done|]. split; [done|].
  pose proof (steps_trans _ _ _ _ _ (steps_trans _ _ _ _ _ Hs0 Hs1) Hs2) as Hs.
  by rewrite app_nil_l, app_nil_r in Hs.
Qed.

Lemma exists_absent_steps (path : string) (w : World) :
  steps w (with_event (EvExists path) w) [EvExists path].
Proof. by unfold steps. Qed.

Lemma readVersionFile_absent (filePath fileName : string) (w : World) :
  config_cache_blank w ->
  existsSync w filePath = false ->
  exists w',
    readVersionFile filePath fileName w = (inr VNull, w')
    /\ config_cache_blank w' /\ steps w w' [EvExists filePath].
Proof.
  intros Hb Hex. unfold readVersionFile. apply cached_blank; [done|].
  intros w0 Hb0 (_ & _ & _ & Hx & _).
  exists (with_event (EvExists filePath) w0).
  unfold measure, try_catch, fs_existsSync, bind, log, read_world, ret. cbn.
  rewrite Hx, Hex. cbn. split; [done|].
  split; [by apply (blank_caches w0)|apply exists_absent_steps].
Qed.

Lemma readToolVersions_absent (root : string) (w : World) :
  config_cache_blank w ->
  existsSync w (path_join (env w) [root; ".tool-versions"]) = false ->
  exists w',
    readToolVersions root w = (inr VNull, w')
    /\ config_cache_blank w'
    /\ steps w w' [EvExists (path_join (env w) [root; ".tool-versions"])].
Proof.
  intros Hb Hex.
  exists (with_event (EvExists (path_join (env w) [root; ".tool-versions"])) w).
  unfold readToolVersions, join, try_catch, fs_existsSync, bind, log, read_world, ret.
  cbn. rewrite Hex. cbn. split; [done|].
  split; [by apply (blank_caches w)|apply exists_absent_steps].
Qed.

Lemma readPackageJson_absent (root : string) (w : World) :
  config_cache_blank w ->
  existsSync w (path_join (env w) [root; "package.json"]) = false ->
  exists w',
    readPackageJson root w = (inr VNull, w')
    /\ config_cache_blank w'
    /\ steps w w' [EvExists (path_join (env w) [root; "package.json"])].
Proof.
  intros Hb Hex. unfold readPackageJson, join, read_world. unfold bind at 1.
  apply cached_blank; [done|].
  intros w0 Hb0 (_ & _ & _ & Hx & _).
  exists (with_event (EvExists (path_join (env w) [root; "package.json"])) w0).
  unfold try_catch, fs_existsSync, bind, log, read_world, ret. cbn.
  rewrite Hx, Hex. cbn. split; [done|].
  split; [by apply (blank_caches w0)|apply exists_absent_steps].
Qed.

Lemma hasConfigFiles_false (root : string) (w : World) :
  fst (hasConfigFiles root w) = inr false ->
  forall file, In file config_file_names ->
    existsSync w (path_join (env w) [root; file]) = false.
Proof.
  unfold hasConfigFiles, join, fs_existsSync, bind, log, read_world, ret. cbn.
  destruct (existsSync w (path_join (env w) [root; ".nvmrc"])) eqn:H1; cbn; [done|].
  destruct (existsSync w (path_join (env w) [root; ".node-version"])) eqn:H2; cbn; [done|].
  destruct (existsSync w (path_join (env w) [root; ".tool-versions"])) eqn:H3; cbn; [done|].
  destruct (existsSync w (path_join (env w) [root; "package.json"])) eqn:H4; cbn; [done|].
  intros _ file Hin. cbn in Hin.
  destruct Hin as [<- | [<- | [<- | [<- | []]]]]; done.
Qed.

Lemma hasConfigFiles_absent (root : string) (w : World) :
  (forall file, In file config_file_names ->
     existsSync w (path_join (env w) [root; file]) = false) ->
  fst (hasConfigFiles root w) = inr false.
Proof.
  intros Habsent.
  pose proof (Habsent ".nvmrc" ltac:(cbn; auto)) as H1.
  pose proof (Habsent ".node-version" ltac:(cbn; auto)) as H2.
  pose proof (Habsent ".tool-versions" ltac:(cbn; auto)) as H3.
  pose proof (Habsent "package.json" ltac:(cbn; auto 6)) as H4.
  unfold hasConfigFiles, join, fs_existsSync, bind, log, read_world, ret. cbn.
  rewrite H1. cbn. rewrite H2. cbn. rewrite H3. cbn. by rewrite H4.
Qed.

End BlankCache.

(** X10: when the namespace of the configuration reader holds no value
    and [hasConfigFiles] answers [false], [getProjectNodeVersion]
    returns [null] after exactly four existence checks, one per file in
    priority order, without reading any file; and the namespace still
    holds no value afterwards, so that the next call does the same four
    checks again. *)
Theorem no_config_file_no_version (root : string) (w : World) :
  config_cache_blank w ->
  fst (ConfigReader.hasConfigFiles root w) = inr false ->
  exists w',
    ConfigReader.getProjectNodeVersion root w = (inr VNull, w')
    /\ trace w'
       = (trace w
          ++ map (fun file => EvExists (path_join (env w) [root; file]))
               config_file_names)%list
    /\ config_cache_blank w'
    /\ fst (ConfigReader.hasConfigFiles root w') = inr false.
Proof.
  intros Hb Hnone.
  pose proof (hasConfigFiles_false root w Hnone) as Habsent.
  assert (exists w',
            ConfigReader.getProjectNodeVersion root w = (inr VNull, w')
            /\ config_cache_blank w'
            /\ steps w w' (map (fun file => EvExists (path_join (env w) [root; file]))
                             config_file_names)) as (w' & Hrun & Hb' & Hs).
  { unfold ConfigReader.getProjectNodeVersion. apply cached_blank; [done|].
    intros w0 Hb0 (_ & He0 & _ & Hx0 & _).
    unfold measure, ConfigReader.resolveProjectNodeVersion, ConfigReader.checks, measure.
    destruct (readVersionFile_absent (path_join (env w) [root; ".nvmrc"]) ".nvmrc" w0 Hb0)
      as (w1 & Hr1 & Hb1 & Hs1).
    { rewrite Hx0. apply Habsent. by left. }
    pose proof Hs1 as (_ & He1 & _ & Hx1 & _).
    destruct (readVersionFile_absent (path_join (env w) [root; ".node-version"])
                ".node-version" w1 Hb1) as (w2 & Hr2 & Hb2 & Hs2).
    { rewrite Hx1, Hx0. apply Habsent. right. by left. }
    pose proof Hs2 as (_ & He2 & _ & Hx2 & _).
    destruct (readToolVersions_absent root w2 Hb2) as (w3 & Hr3 & Hb3 & Hs3).
    { rewrite He2, He1, He0, Hx2, Hx1, Hx0. apply Habsent. right. right. by left. }
    pose proof Hs3 as (_ & He3 & _ & Hx3 & _).
    destruct (readPackageJson_absent root w3 Hb3) as (w4 & Hr4 & Hb4 & Hs4).
    { rewrite He3, He2, He1, He0, Hx3, Hx2, Hx1, Hx0. apply Habsent.
      right. right. right. by left. }
    rewrite He2, He1, He0 in Hs3. rewrite He3, He2, He1, He0 in Hs4.
    exists w4. split.
    - rewrite (run_checks_skip _ _ _ _ w0 w1).
      2:{ exists VNull. split; [|done].
          unfold ConfigReader.readNvmrc, join, read_world. unfold bind at 1.
          by rewrite He0. }
      rewrite (run_checks_skip _ _ _ _ w1 w2).
      2:{ exists VNull. split; [|done].
          unfold ConfigReader.readNodeVersion, join, read_world. unfold bind at 1.
          by rewrite He1, He0. }
      rewrite (run_checks_skip _ _ _ _ w2 w3).
      2:{ exists VNull. by split. }
      cbn [ConfigReader.run_checks]. unfold ConfigReader.check_package, measure.
      unfold bind at 1. by rewrite Hr4.
    - split; [done|].
      exact (steps_trans _ _ _ _ _ Hs1
               (steps_trans _ _ _ _ _ Hs2 (steps_trans _ _ _ _ _ Hs3 Hs4))). }
  exists w'. split; [done|]. destruct Hs as (Htrace & Henv & _ & Hx & _).
  split; [done|]. split; [done|].
  apply hasConfigFiles_absent. intros file Hin. rewrite Henv, Hx. by apply Habsent.
Qed.

(** X10 on the machine without any file: two calls in a row return
    [null] and make eight existence checks. *)
Lemma no_config_file_no_version_witness :
  exists w',
    ConfigReader.getProjectNodeVersion "/proj" bare_world = (inr VNull, w')
    /\ length (trace w') = 4%nat
    /\ length (trace (snd (ConfigReader.getProjectNodeVersion "/proj" w'))) = 8%nat.
Proof.
  destruct (no_config_file_no_version "/proj" bare_world) as (w' & Hrun & _).
  - intros key e He. vm_compute in He. discriminate.
  - reflexivity.
  - exists w'. split; [exact Hrun|].
    vm_compute in Hrun. injection Hrun as <-. split; reflexivity.
Defined.

(** X11: [readPackageJson] never throws.  When it misses its cache
    entry, it returns [null] or a configuration with at least one of the
    fields [engines] and [volta], each field that is present being
    truthy; a manifest that is absent, cannot be read or cannot be
    parsed gives [null]. *)
Theorem readPackageJson_result (root : string) (w : World) :
  let path := path_join (env w) [root; "package.json"] in
  (exists v w', ConfigReader.readPackageJson root w = (inr v, w'))
  /\ forall w0,
       Cache.get Cache.CONFIG_FILES ("package_json_" +:+ path) w = (inr VNull, w0) ->
       exists v w',
         ConfigReader.readPackageJson root w = (inr v, w')
         /\ (v = VNull
             \/ exists engines volta,
                  v = VPackageConfig engines volta
                  /\ (is_Some engines \/ is_Some volta)
                  /\ (forall x, engines = Some x \/ volta = Some x -> truthy x = true))
         /\ (existsSync w path = false -> v = VNull)
         /\ (forall err, readFileSync w path = inl err -> v = VNull)
         /\ (forall content err,
               readFileSync w path = inr content ->
               JSON_parse (env w) content = inl err -> v = VNull).
Proof.
  cbv zeta.
  set (path := path_join (env w) [root; "package.json"]).
  assert (forall w0,
            Cache.get Cache.CONFIG_FILES ("package_json_" +:+ path) w = (inr VNull, w0) ->
            exists v w',
              ConfigReader.readPackageJson root w = (inr v, w')
              /\ (v = VNull
                  \/ exists engines volta,
                       v = VPackageConfig engines volta
                       /\ (is_Some engines \/ is_Some volta)
                       /\ (forall x, engines = Some x \/ volta = Some x -> truthy x = true))
              /\ (existsSync w path = false -> v = VNull)
              /\ (forall err, readFileSync w path = inl err -> v = VNull)
              /\ (forall content err,
                    readFileSync w path = inr content ->
                    JSON_parse (env w) content = inl err -> v = VNull)) as Hmiss.
  { intros w0 Hget.
    destruct (get_steps Cache.CONFIG_FILES ("package_json_" +:+ path) w)
      as (v0 & w0' & Hget' & (_ & He & _ & Hx & Hr) & _).
    rewrite Hget in Hget'. injection Hget' as <- <-.
    unfold ConfigReader.readPackageJson, join, read_world. unfold bind at 1.
    fold path. rewrite (cached_miss _ _ _ _ w w0 Hget).
    unfold produce_and_store, try_catch, fs_existsSync, fs_readFileSync, bind, log,
      read_world, ret, lift.
    cbn. rewrite ?Hx, ?Hr, ?He.
    destruct (existsSync w path) eqn:Hex; cbn; rewrite ?Hx, ?Hr, ?He.
    2:{ eexists _, _. split; [done|]. split; [by left|]. by repeat split. }
    destruct (readFileSync w path) as [err|content] eqn:Hread; cbn; rewrite ?Hx, ?Hr, ?He.
    { eexists _, _. split; [done|]. split; [by left|]. by repeat split. }
    destruct (JSON_parse (env w) content) as [err|packageJson] eqn:Hparse; cbn.
    { eexists _, _. split; [done|]. split; [by left|]. by repeat split. }
    destruct (ConfigReader.optional_node packageJson "engines") as [err|enginesNode]; cbn.
    { eexists _, _. split; [done|]. split; [by left|]. (split; [done|]; split; [done|]; intros content' err' [= <-]; by rewrite Hparse). }
    destruct (ConfigReader.optional_node packageJson "volta") as [err|voltaNode]; cbn.
    { eexists _, _. split; [done|]. split; [by left|]. (split; [done|]; split; [done|]; intros content' err' [= <-]; by rewrite Hparse). }
    destruct (truthy enginesNode) eqn:Hte; destruct (truthy voltaNode) eqn:Htv; cbn;
      eexists _, _; (split; [done|]); (split; [|(split; [done|]; split; [done|]; intros content' err' [= <-]; by rewrite Hparse)]); [| | |by left];
      right; eexists _, _; (split; [done|]).
    - split; [left; by eexists|]. by intros x [[= <-] | [= <-]].
    - split; [left; by eexists|]. by intros x [[= <-] | [=]].
    - split; [right; by eexists|]. by intros x [[=] | [= <-]]. }
  split; [|exact Hmiss].
  destruct (get_cases Cache.CONFIG_FILES ("package_json_" +:+ path) w)
    as (hit & w0 & Hget & _).
  destruct (not_null hit) eqn:Hnn.
  - unfold ConfigReader.readPackageJson, join, read_world. unfold bind at 1.
    fold path. unfold Cache.cached, bind at 1. rewrite Hget, Hnn. by eexists _, _.
  - destruct hit; try done.
    destruct (Hmiss w0 Hget) as (v & w' & Hrun & _). by exists v, w'.
Qed.

(** X11 on a project whose manifest has an engines range: the range is
    returned; on a manifest that cannot be parsed: [null]. *)
Lemma readPackageJson_result_witness :
  fst (ConfigReader.readPackageJson "/proj" manifest_only_world)
  = inr (VPackageConfig (Some (VStr ">=18")) None)
  /\ fst (ConfigReader.readPackageJson "/proj"
            (with_files [("/proj/package.json", "{")] bare_world)) = inr VNull.
Proof.
  split; [reflexivity|].
  destruct (readPackageJson_result "/proj"
              (with_files [("/proj/package.json", "{")] bare_world)) as [_ Hmiss].
  destruct (Hmiss (with_files [("/proj/package.json", "{")] bare_world))
    as (v & w' & Hrun & _ & _ & _ & Hparse); [reflexivity|].
  rewrite Hrun. cbn. f_equal.
  apply (Hparse "{" (ErrorObj "SyntaxError: Unexpected token")); reflexivity.
Defined.

(** X12: once [getProjectNodeVersion] has resolved a version, every
    call made in the next two minutes, in any world that still holds the
    cache entry, returns that same version without consulting any
    source and without changing anything, whatever has become of the
    files; after two minutes the next call resolves again. *)
Theorem resolved_version_is_served_for_two_minutes (root : string) (w w0 w1 : World)
    (version source : string) :
  Cache.get Cache.CONFIG_FILES ("project_version_" +:+ root) w = (inr VNull, w0) ->
  ConfigReader.resolveProjectNodeVersion root w0
  = (inr (VProjectVersion version source), w1) ->
  exists w',
    ConfigReader.getProjectNodeVersion root w = (inr (VProjectVersion version source), w')
    /\ trace w' = trace w1
    /\ forall w2,
         lookup_entry w2 Cache.CONFIG_FILES ("project_version_" +:+ root)
         = lookup_entry w' Cache.CONFIG_FILES ("project_version_" +:+ root) ->
         (now w2 - now w1 <= 120000 ->
          ConfigReader.getProjectNodeVersion root w2
          = (inr (VProjectVersion version source), w2))
         /\ (120000 < now w2 - now w1 ->
             exists w3,
               lookup_entry w3 Cache.CONFIG_FILES ("project_version_" +:+ root) = None
               /\ trace w3 = trace w2
               /\ ConfigReader.getProjectNodeVersion root w2
                  = produce_and_store Cache.CONFIG_FILES ("project_version_" +:+ root)
                      (ConfigReader.resolveProjectNodeVersion root)
                      (Some (2 * 60 * 1000)) w3).
Proof.
  intros Hget Hres.
  rewrite (getProjectNodeVersion_miss root w w0 Hget).
  destruct (produce_and_store_ok Cache.CONFIG_FILES ("project_version_" +:+ root)
              _ (Some (2 * 60 * 1000)) w0 w1 _ Hres)
    as (w' & Hrun & Hentry & _ & Htrace).
  exists w'. split; [done|]. split; [done|].
  intros w2 Hsame. rewrite Hentry in Hsame.
  change (Cache.ttl_or_default (Some (2 * 60 * 1000))) with 120000 in Hsame. split.
  - intros Hle. unfold ConfigReader.getProjectNodeVersion.
    apply (cached_hit _ _ _ _ w2 _ Hsame); [|done].
    unfold unexpired. cbn. lia.
  - intros Hgt.
    destruct (get_expired _ _ w2 _ Hsame) as (w3 & Hget3 & Hnone & _ & Htrace3).
    { unfold unexpired. cbn. lia. }
    exists w3. split; [done|]. split; [done|].
    by apply getProjectNodeVersion_miss.
Qed.

(** X12 on the project pinned to "16": after the first call the pin
    file is removed, and the version is still reported two minutes
    later. *)
Lemma resolved_version_is_served_witness :
  exists w',
    ConfigReader.getProjectNodeVersion "/proj" pinned_world
    = (inr (VProjectVersion "16" ".nvmrc"), w')
    /\ fst (ConfigReader.getProjectNodeVersion "/proj"
              (with_now 120000 (with_files [] w')))
       = inr (VProjectVersion "16" ".nvmrc")
    /\ fst (ConfigReader.getProjectNodeVersion "/proj"
              (with_now 120001 (with_files [] w')))
       = inr VNull.
Proof.
  destruct (resolved_version_is_served_for_two_minutes "/proj" pinned_world pinned_world
              (snd (ConfigReader.resolveProjectNodeVersion "/proj" pinned_world))
              "16" ".nvmrc")
    as (w' & Hrun & _ & Hlater); [reflexivity | vm_compute; reflexivity |].
  exists w'. split; [exact Hrun|]. split.
  - destruct (Hlater (with_now 120000 (with_files [] w'))) as [Hhit _]; [reflexivity|].
    rewrite Hhit; [reflexivity|].
    vm_compute in Hrun. injection Hrun as <-. vm_compute. discriminate.
  - vm_compute in Hrun. injection Hrun as <-. vm_compute. reflexivity.
Defined.

(** ** The matchers: targets, symmetry, operators *)

(** X13: whatever the two versions, the result of the matcher carries a
    target whenever it reports a match, and a target is never anything
    but the normalized current version or the normalized spec: on a
    match it is the current version, or the spec when the spec is a
    partial pin; without a match it is absent, or the spec when the spec
    is a partial pin, and never the current version unless that equals
    the spec. *)
Theorem target_version_invariant (current required : string) :
  let c := Js.strip_v current in
  let r := Js.strip_v required in
  let result := Matcher.matchVersion current required in
  (matches result = true ->
   targetVersion result = Some c
   \/ (targetVersion result = Some r /\ partial_pin r = true))
  /\ (matches result = false ->
      targetVersion result = None
      \/ (targetVersion result = Some r /\ partial_pin r = true /\ c <> r))
  /\ (targetVersion result = None -> matches result = false).
Proof.
  cbv zeta. unfold Matcher.matchVersion, partial_pin.
  destruct (String.eqb_spec (Js.strip_v current) (Js.strip_v required)) as [Heq|Hne].
  { cbn. split; [by left|]. split; done. }
  destruct (Matcher.hasComparisonOperator (Js.strip_v required)) eqn:Hop.
  { destruct (Matcher.compareVersionWithOperator _ _); cbn.
    - split; [by left|]. split; done.
    - split; [done|]. split; [by left|done]. }
  destruct (Js.startsWith (Js.strip_v required) "^"
            || Js.startsWith (Js.strip_v required) "~") eqn:Hrange.
  { destruct (Matcher.matchSemverRange _ _); cbn.
    - split; [by left|]. split; done.
    - split; [done|]. split; [by left|done]. }
  destruct (Nat.ltb_spec (length (Js.split "." (Js.strip_v required))) 3) as [Hlt|Hge].
  - cbn. split; [by right|]. split; [|done]. intros _. by right.
  - cbn. split; [done|]. split; [by left|done].
Qed.

(** X13 on a range that is satisfied and on a pin that is not. *)
Lemma target_version_invariant_witness :
  targetVersion (Matcher.matchVersion "v20.1.0" ">=18.0.0") = Some "20.1.0"
  /\ targetVersion (Matcher.matchVersion "v20.1.0" "18") = Some "18".
Proof.
  destruct (target_version_invariant "v20.1.0" ">=18.0.0") as [Hmatch _].
  destruct Hmatch as [Ht | [Ht _]]; [reflexivity | | vm_compute in Ht; discriminate].
  split; [exact Ht|].
  destruct (target_version_invariant "v20.1.0" "18") as (_ & Hmiss & _).
  destruct Hmiss as [Hn | [Hr _]]; [reflexivity | vm_compute in Hn; discriminate |].
  exact Hr.
Defined.

(** X14: [compareVersions] is antisymmetric: exchanging its arguments
    negates an integer result, exchanges the two infinities and leaves
    [NaN] as it is.  Hence "at least" one way round is "at most" the
    other way round, "above" is "below", and equality is symmetric. *)
Theorem compareVersions_antisymmetric (v1 v2 : Matcher.ParsedVersion) :
  Matcher.compareVersions v2 v1
  = match Matcher.compareVersions v1 v2 with
    | Js.Num d => Js.Num (- d)
    | Js.Infinity negative => Js.Infinity (negb negative)
    | Js.NaN => Js.NaN
    end
  /\ Js.ge0 (Matcher.compareVersions v1 v2) = Js.le0 (Matcher.compareVersions v2 v1)
  /\ Js.gt0 (Matcher.compareVersions v1 v2) = Js.lt0 (Matcher.compareVersions v2 v1)
  /\ Js.eq0 (Matcher.compareVersions v1 v2) = Js.eq0 (Matcher.compareVersions v2 v1).
Proof.
  assert (Matcher.compareVersions v2 v1
          = match Matcher.compareVersions v1 v2 with
            | Js.Num d => Js.Num (- d)
            | Js.Infinity negative => Js.Infinity (negb negative)
            | Js.NaN => Js.NaN
            end) as Hanti.
  { unfold Matcher.compareVersions.
    rewrite (strict_neq_sym (Js.parseInt (Matcher.major v1))).
    rewrite (strict_neq_sym (Js.parseInt (Matcher.minor v1))).
    destruct (Js.strict_neq _ _);
      [rewrite (sub_swap (Js.parseInt (Matcher.major v1))); by destruct (Js.sub _ _)|].
    destruct (Js.strict_neq _ _);
      [rewrite (sub_swap (Js.parseInt (Matcher.minor v1))); by destruct (Js.sub _ _)|].
    rewrite (sub_swap (Js.parseInt (Matcher.patch v1))). by destruct (Js.sub _ _). }
  split; [exact Hanti|]. rewrite Hanti.
  destruct (Matcher.compareVersions v1 v2) as [|s|d]; cbn; [done | by destruct s |].
  split; [|split].
  - destruct (Z.leb_spec 0 d), (Z.leb_spec (- d) 0); lia || done.
  - destruct (Z.ltb_spec 0 d), (Z.ltb_spec (- d) 0); lia || done.
  - destruct (Z.eqb_spec d 0), (Z.eqb_spec (- d) 0); lia || done.
Qed.

(** X15: a comparison spec made of one of the operators ">=", "<=", ">",
    "<", "=" and an operand (not empty, without line terminator, not
    beginning with "=") is satisfied exactly when [compareVersions] of
    the current version and the operand is a number of the matching
    sign.  So when the comparison is a number, exactly one of ">",
    "=", "<" is satisfied, ">=" is "not <" and "<=" is "not >"; and when
    it is [NaN], none of the five is. *)
Theorem comparison_operators (current x : string) :
  Matcher.dot_plus x = true ->
  Js.startsWith x "=" = false ->
  let cmp := Matcher.compareVersions (Matcher.parseVersion current) (Matcher.parseVersion x) in
  let sat op := Matcher.compareVersionWithOperator current (op +:+ x) in
  (sat ">=" = Js.ge0 cmp /\ sat "<=" = Js.le0 cmp /\ sat ">" = Js.gt0 cmp
   /\ sat "<" = Js.lt0 cmp /\ sat "=" = Js.eq0 cmp)
  /\ (cmp = Js.NaN ->
      sat ">=" = false /\ sat "<=" = false /\ sat ">" = false
      /\ sat "<" = false /\ sat "=" = false)
  /\ (cmp <> Js.NaN ->
        sat ">=" = negb (sat "<") /\ sat "<=" = negb (sat ">")
        /\ (sat ">" = true /\ sat "=" = false /\ sat "<" = false
            \/ sat ">" = false /\ sat "=" = true /\ sat "<" = false
            \/ sat ">" = false /\ sat "=" = false /\ sat "<" = true)).
Proof.
  intros Hx Heq. cbv beta zeta.
  assert (forall op, In op Matcher.operators ->
            Matcher.compareVersionWithOperator current (op +:+ x)
            = let cmp := Matcher.compareVersions (Matcher.parseVersion current)
                           (Matcher.parseVersion x) in
              if String.eqb op ">=" then Js.ge0 cmp
              else if String.eqb op "<=" then Js.le0 cmp
              else if String.eqb op ">" then Js.gt0 cmp
              else if String.eqb op "<" then Js.lt0 cmp
              else if String.eqb op "=" then Js.eq0 cmp
              else false) as Hsat.
  { intros op Hop. unfold Matcher.compareVersionWithOperator.
    by rewrite (operatorMatch_operand op x Hop Hx Heq). }
  rewrite (Hsat ">=") by (cbn; auto).
  rewrite (Hsat "<=") by (cbn; auto).
  rewrite (Hsat ">") by (cbn; auto).
  rewrite (Hsat "<") by (cbn; auto 6).
  rewrite (Hsat "=") by (cbn; auto 6).
  cbn [String.eqb Ascii.eqb Bool.eqb]. cbv zeta.
  split; [done|].
  destruct (Matcher.compareVersions (Matcher.parseVersion current) (Matcher.parseVersion x))
    as [|s|d]; cbn.
  - split; [done|]. by intros [].
  - split; [done|]. intros _. destruct s; cbn; auto 10.
  - split; [done|]. intros _.
    destruct (Z.leb_spec 0 d), (Z.ltb_spec d 0), (Z.leb_spec d 0), (Z.ltb_spec 0 d),
      (Z.eqb_spec d 0); try lia; cbn; auto 10.
Qed.

(** X15 on "20.1.0" against "18.0.0": above, not equal, not below. *)
Lemma comparison_operators_witness :
  Matcher.compareVersionWithOperator "20.1.0" (">" +:+ "18.0.0") = true
  /\ Matcher.compareVersionWithOperator "20.1.0" ("<=" +:+ "18.0.0") = false
  /\ Matcher.compareVersionWithOperator "lts" (">=" +:+ "18.0.0") = false.
Proof.
  destruct (comparison_operators "20.1.0" "18.0.0") as ((_ & _ & Hgt & _) & _ & Hnum);
    [reflexivity | reflexivity |].
  split; [rewrite Hgt; reflexivity|].
  destruct Hnum as (_ & Hle & _); [by vm_compute|].
  split; [rewrite Hle, Hgt; reflexivity|].
  destruct (comparison_operators "lts" "18.0.0") as (_ & Hnan & _);
    [reflexivity | reflexivity |].
  destruct Hnan as [Hge _]; [reflexivity | exact Hge].
Defined.

Section LegacyMatcher.
Import Js.

Lemma includes_dot (s : string) : includes s "." = negb (dot_free s).
Proof.
  induction s as [|c s IH]; [done|].
  cbn [includes startsWith dot_free]. rewrite IH.
  rewrite andb_true_r, negb_andb, negb_involutive. done.
Qed.

End LegacyMatcher.

(** X16: the boolean matcher of ProjectDetectorService says that the
    current version satisfies the required one in two cases only: the
    two are equal once a leading "v" is dropped from each, or the
    required one has no dot and equals the first dot-separated component
    of the current one.  So a required spec that contains a dot is
    satisfied by no version but itself: a range such as ">=18.0" is
    never satisfied by a version number. *)
Theorem boolean_matcher_cases (current required : string) :
  (ProjectDetectorService.isVersionMatch current required = true
   <-> Js.strip_v current = Js.strip_v required
       \/ (dot_free (Js.strip_v required) = true
           /\ ProjectDetectorService.first_part (Js.strip_v current)
              = Js.strip_v required))
  /\ (dot_free (Js.strip_v required) = false ->
      Js.strip_v current <> Js.strip_v required ->
      ProjectDetectorService.isVersionMatch current required = false).
Proof.
  assert (ProjectDetectorService.isVersionMatch current required = true
          <-> Js.strip_v current = Js.strip_v required
              \/ (dot_free (Js.strip_v required) = true
                  /\ ProjectDetectorService.first_part (Js.strip_v current)
                     = Js.strip_v required)) as Hiff.
  { unfold ProjectDetectorService.isVersionMatch.
    destruct (String.eqb_spec (Js.strip_v current) (Js.strip_v required)) as [Heq|Hne].
    { split; [by left|done]. }
    rewrite includes_dot, negb_involutive.
    destruct (dot_free (Js.strip_v required)) eqn:Hfree; cbn [andb].
    - unfold ProjectDetectorService.first_part at 2.
      rewrite (split_dot_free _ Hfree). cbn [hd].
      destruct (String.eqb_spec (ProjectDetectorService.first_part (Js.strip_v current))
                  (Js.strip_v required)) as [Hmaj|Hmaj].
      + split; [intros _; by right|done].
      + split.
        * by destruct (_ || _).
        * intros [Heq | [_ Heq]]; done.
    - split.
      + by destruct (_ || _).
      + intros [Heq | [Hfalse _]]; done. }
  split; [exact Hiff|].
  intros Hdot Hne.
  apply not_true_is_false. intros Hm.
  apply Hiff in Hm as [Heq | [Hfree _]]; [done|]. by rewrite Hfree in Hdot.
Qed.

(** X16 on the current version "20.1.0": the pin "20" is satisfied, the
    range ">=18.0" is not, while the matcher of the terminal service
    finds it satisfied. *)
Lemma boolean_matcher_cases_witness :
  ProjectDetectorService.isVersionMatch "v20.1.0" "20" = true
  /\ ProjectDetectorService.isVersionMatch "v20.1.0" ">=18.0" = false
  /\ matches (Matcher.matchVersion "v20.1.0" ">=18.0") = true.
Proof.
  destruct (boolean_matcher_cases "v20.1.0" "20") as [Hiff _].
  split; [apply Hiff; right; split; reflexivity|].
  destruct (boolean_matcher_cases "v20.1.0" ">=18.0") as [_ Hdot].
  split; [apply Hdot; [reflexivity | discriminate] | reflexivity].
Defined.

(** ** Version strings of the managers *)

Section VersionStrings.
Import Js ConfigReader BaseNodeManager.

Lemma take_digits_all (c : string) : all_digits c = true -> take_digits c = (c, "").
Proof.
  intros Hall. pose proof (take_digits_app c "" Hall) as H.
  rewrite app_empty_r in H. cbn in H. by rewrite app_empty_r in H.
Qed.

(** A triple is matched whole at its own head. *)
Lemma triple_at_exact (t : string) : is_triple t -> triple_at t = Some t.
Proof.
  intros (a & b & c & [Hda Hna] & [Hdb Hnb] & [Hdc Hnc] & ->).
  unfold triple_at.
  change ("." +:+ b +:+ "." +:+ c) with (String "." (b +:+ "." +:+ c)).
  rewrite (take_digits_dot _ _ Hda), (is_empty_false _ Hna). cbn [Ascii.eqb Bool.eqb].
  change ("." +:+ c) with (String "." c).
  rewrite (take_digits_dot _ _ Hdb), (is_empty_false _ Hnb). cbn [Ascii.eqb Bool.eqb].
  by rewrite (take_digits_all _ Hdc), (is_empty_false _ Hnc).
Qed.

Lemma whole_triple_iff (s : string) : whole_triple s = true <-> is_triple s.
Proof.
  unfold whole_triple. split.
  - destruct (triple_at s) as [t|] eqn:Hat; [|done].
    intros Heq. apply String.eqb_eq in Heq as <-.
    by destruct (triple_at_sound _ _ Hat).
  - intros Ht. rewrite (triple_at_exact _ Ht). apply String.eqb_refl.
Qed.

Lemma digit_not_v (d : ascii) : is_digit d = true -> Ascii.eqb d "v" = false.
Proof.
  intros Hd. destruct (Ascii.eqb_spec d "v") as [->|]; [by vm_compute in Hd|done].
Qed.

Lemma triple_at_not_digit (c : ascii) (rest : string) :
  is_digit c = false -> triple_at (String c rest) = None.
Proof. intros Hc. unfold triple_at. cbn. by rewrite Hc. Qed.

(** The optional "v" of the pattern changes nothing to what is found. *)
Lemma find_v_triple_find_triple (s : string) : find_v_triple s = find_triple s.
Proof.
  induction s as [|c rest IH]; [done|].
  cbn [find_v_triple find_triple v_triple_at]. rewrite IH.
  destruct (Ascii.eqb_spec c "v") as [->|Hc]; [|done].
  rewrite (triple_at_not_digit "v" rest) by reflexivity.
  destruct (triple_at rest) as [t|] eqn:Hat; [|done].
  destruct rest as [|d rest']; [done|]. cbn [find_triple]. by rewrite Hat.
Qed.

Lemma trimStart_suffix (s : string) : exists ws, s = ws +:+ trimStart s.
Proof.
  induction s as [|c s IH]; [by exists ""|]. cbn.
  destruct (is_white c).
  - destruct IH as (ws & Hws). exists (String c ws). by rewrite app_cons, <- Hws.
  - by exists "".
Qed.

Lemma trimEnd_prefix (s : string) : exists ws, s = trimEnd s +:+ ws.
Proof.
  induction s as [|c s IH]; [by exists ""|]. cbn.
  destruct IH as (ws & Hws).
  destruct (is_white c && is_empty (trimEnd s)) eqn:Hc.
  - by exists (String c s).
  - exists ws. by rewrite app_cons, <- Hws.
Qed.

(** A string without a triple has none after trimming. *)
Lemma find_triple_trim (s : string) :
  find_triple s = None -> find_triple (trim s) = None.
Proof.
  intros Hnone.
  destruct (find_triple (trim s)) as [t|] eqn:Hfind; [|done]. exfalso.
  destruct (find_triple_sound _ _ Hfind) as (Ht & pre & post & Htrim & _).
  destruct (trimStart_suffix s) as (ws1 & H1).
  destruct (trimEnd_prefix (trimStart s)) as (ws2 & H2).
  apply (find_triple_complete s Hnone (ws1 +:+ pre) t (post +:+ ws2)); [|done].
  rewrite H1 at 1. rewrite H2 at 1. fold (trim s). rewrite Htrim.
  by rewrite !app_assoc'.
Qed.


(** What [isValidVersion] accepts is a triple, or "v" and a triple. *)
Lemma valid_version_cases (version : string) :
  isValidVersion version = true ->
  is_triple version \/ exists t, version = String "v" t /\ is_triple t.
Proof.
  unfold isValidVersion.
  destruct version as [|c rest].
  - rewrite whole_triple_iff. by left.
  - destruct (Ascii.eqb_spec c "v") as [->|Hc].
    + rewrite orb_true_iff, !whole_triple_iff.
      intros [Ht | Ht]; [right; by exists rest | by left].
    + rewrite whole_triple_iff. by left.
Qed.

(** A triple is accepted, and so is a triple behind a "v". *)
Lemma triple_is_valid (t : string) : is_triple t -> isValidVersion t = true.
Proof.
  intros Ht. destruct (triple_head t Ht) as (d & rest & -> & Hd).
  unfold isValidVersion. rewrite (digit_not_v d Hd). by apply whole_triple_iff.
Qed.

Lemma v_triple_is_valid (t : string) :
  is_triple t -> isValidVersion (String "v" t) = true.
Proof.
  intros Ht. unfold isValidVersion. cbn [Ascii.eqb Bool.eqb].
  apply orb_true_iff. left. by apply whole_triple_iff.
Qed.

End VersionStrings.

(** X17: [isValidVersion] accepts exactly the three-part numeric
    versions, with or without one leading "v": three non-empty runs of
    decimal digits joined by dots, and nothing before or after. *)
Theorem isValidVersion_iff (version : string) :
  BaseNodeManager.isValidVersion version = true
  <-> is_triple version \/ exists t, version = String "v" t /\ is_triple t.
Proof.
  split.
  - apply valid_version_cases.
  - intros [Ht | (t & -> & Ht)].
    + by apply triple_is_valid.
    + by apply v_triple_is_valid.
Qed.

(** X18: [parseVersion] returns the leftmost three-part numeric version
    that occurs in its argument, and the trimmed argument when there is
    none.  A result of the first kind is accepted by [isValidVersion];
    a string accepted by [isValidVersion] is returned without its "v";
    and parsing a result again gives the same result. *)
Theorem parseVersion_result (versionStr : string) :
  (forall t, ConfigReader.find_triple versionStr = Some t ->
     BaseNodeManager.parseVersion versionStr = t
     /\ BaseNodeManager.isValidVersion t = true)
  /\ (ConfigReader.find_triple versionStr = None ->
      BaseNodeManager.parseVersion versionStr = Js.trim versionStr)
  /\ (BaseNodeManager.isValidVersion versionStr = true ->
      BaseNodeManager.parseVersion versionStr = Js.strip_v versionStr)
  /\ BaseNodeManager.parseVersion (BaseNodeManager.parseVersion versionStr)
     = BaseNodeManager.parseVersion versionStr.
Proof.
  assert (forall s t, ConfigReader.find_triple s = Some t ->
            BaseNodeManager.parseVersion s = t) as Hfound.
  { intros s t Hfind. unfold BaseNodeManager.parseVersion.
    by rewrite find_v_triple_find_triple, Hfind. }
  assert (forall s, ConfigReader.find_triple s = None ->
            BaseNodeManager.parseVersion s = Js.trim s) as Hnone.
  { intros s Hfind. unfold BaseNodeManager.parseVersion.
    by rewrite find_v_triple_find_triple, Hfind. }
  assert (forall t, is_triple t -> ConfigReader.find_triple t = Some t) as Hself.
  { intros t Ht. destruct (triple_head t Ht) as (d & rest & -> & _).
    cbn [ConfigReader.find_triple]. by rewrite (triple_at_exact _ Ht). }
  split; [|split; [|split]].
  - intros t Hfind. split; [by apply Hfound|].
    apply triple_is_valid. by destruct (find_triple_sound _ _ Hfind).
  - apply Hnone.
  - intros Hvalid. apply valid_version_cases in Hvalid as [Ht | (t & -> & Ht)].
    + rewrite (Hfound _ _ (Hself _ Ht)).
      destruct (triple_head _ Ht) as (d & rest & -> & Hd).
      cbn. by rewrite (digit_not_v d Hd).
    + apply Hfound. cbn [ConfigReader.find_triple Js.strip_v Ascii.eqb Bool.eqb].
      rewrite (triple_at_not_digit "v" t) by reflexivity.
      destruct (triple_head _ Ht) as (d & rest & -> & Hd).
      by apply Hself.
  - destruct (ConfigReader.find_triple versionStr) as [t|] eqn:Hfind.
    + rewrite (Hfound _ _ Hfind). apply Hfound, Hself.
      by destruct (find_triple_sound _ _ Hfind).
    + rewrite (Hnone _ Hfind).
      rewrite (Hnone _ (find_triple_trim _ Hfind)). apply trim_idem.
Qed.

(** X18 on the output of [node --version] and on an alias. *)
Lemma parseVersion_result_witness :
  BaseNodeManager.parseVersion ("v20.11.0" +:+ String "010" "") = "20.11.0"
  /\ BaseNodeManager.isValidVersion "20.11.0" = true
  /\ BaseNodeManager.parseVersion "  lts/iron " = "lts/iron".
Proof.
  destruct (parseVersion_result ("v20.11.0" +:+ String "010" "")) as (Hsome & _).
  destruct (Hsome "20.11.0") as [Hparse Hvalid]; [reflexivity|].
  split; [exact Hparse|]. split; [exact Hvalid|].
  destruct (parseVersion_result "  lts/iron ") as (_ & Hnone & _).
  rewrite Hnone; reflexivity.
Defined.

(** ** The version cache *)

Section Substrings.
Import Js.

Lemma startsWith_iff (s p : string) :
  startsWith s p = true <-> exists post, s = p +:+ post.
Proof.
  split.
  - intros Hs. eexists. by apply startsWith_skip.
  - intros (post & ->). apply startsWith_app.
Qed.

Lemma includes_iff (s p : string) :
  includes s p = true <-> exists pre post, s = pre +:+ p +:+ post.
Proof.
  induction s as [|c s IH].
  - cbn [includes]. rewrite orb_false_r, startsWith_iff. split.
    + intros (post & Hs). by exists "", post.
    + intros (pre & post & Hs). destruct pre; [by exists post|done].
  - cbn [includes]. rewrite orb_true_iff, startsWith_iff, IH. split.
    + intros [(post & Hs) | (pre & post & Hs)].
      * by exists "", post.
      * exists (String c pre), post. by rewrite app_cons, <- Hs.
    + intros (pre & post & Hs). destruct pre as [|d pre].
      * left. by exists post.
      * right. rewrite app_cons in Hs. injection Hs as _ Hs. by exists pre, post.
Qed.

Lemma includes_trans (s p q : string) :
  includes s p = true -> includes p q = true -> includes s q = true.
Proof.
  rewrite !includes_iff.
  intros (pre & post & ->) (pre' & post' & ->).
  exists (pre +:+ pre'), (post' +:+ post). by rewrite !app_assoc'.
Qed.

Lemma includes_suffix (a p : string) : includes (a +:+ p) p = true.
Proof. apply includes_iff. exists a, "". by rewrite app_empty_r. Qed.

Lemma currentVersion_marker (manager platform : string) :
  includes (CacheKeyGenerator.currentVersion manager platform) "current-version" = true.
Proof.
  apply includes_iff. exists (manager +:+ "-" +:+ platform +:+ "-"), "".
  unfold CacheKeyGenerator.currentVersion. by rewrite !app_assoc'.
Qed.

Lemma installedVersions_marker (manager platform : string) :
  includes (CacheKeyGenerator.installedVersions manager platform) "installed-versions"
  = true.
Proof.
  apply includes_iff. exists (manager +:+ "-" +:+ platform +:+ "-"), "".
  unfold CacheKeyGenerator.installedVersions. by rewrite !app_assoc'.
Qed.

Lemma availableVersions_marker (manager platform : string) :
  includes (CacheKeyGenerator.availableVersions manager platform) "available-versions"
  = true.
Proof.
  apply includes_iff. exists (manager +:+ "-" +:+ platform +:+ "-"), "".
  unfold CacheKeyGenerator.availableVersions. by rewrite !app_assoc'.
Qed.

End Substrings.

(** X19: a value stored in the version cache without a time to live (or
    with 0) under a key of [CacheKeyGenerator.currentVersion] lives five
    seconds whatever the names of the manager and the platform: it is
    read back, the store unchanged, up to and including 5000 ms after the
    write, and is gone after that.  Under a key of [installedVersions]
    it gets one minute, and under a key of [availableVersions] five
    minutes, unless the names themselves spell the marker of a shorter
    class. *)
Theorem version_cache_ttl_by_key (manager platform : string) (v : Value)
    (s s' : VersionCache.Store) :
  let key := CacheKeyGenerator.currentVersion manager platform in
  (VersionCache.getTTLForKey key = 5000
   /\ (VersionCache.entries s' !! key
       = VersionCache.entries (VersionCache.set key v None s) !! key ->
       (VersionCache.clock s' - VersionCache.clock s <= 5000 ->
        VersionCache.get key s' = (v, s'))
       /\ (5000 < VersionCache.clock s' - VersionCache.clock s ->
           fst (VersionCache.get key s') = VNull
           /\ VersionCache.entries (snd (VersionCache.get key s')) !! key = None)))
  /\ (let key := CacheKeyGenerator.installedVersions manager platform in
      Js.includes key "current-version" = false ->
      VersionCache.getTTLForKey key = 60000)
  /\ (let key := CacheKeyGenerator.availableVersions manager platform in
      Js.includes key "current-version" = false ->
      Js.includes key "installed-versions" = false ->
      VersionCache.getTTLForKey key = 300000).
Proof.
  cbv zeta.
  assert (VersionCache.getTTLForKey (CacheKeyGenerator.currentVersion manager platform)
          = 5000) as Httl.
  { unfold VersionCache.getTTLForKey. by rewrite currentVersion_marker. }
  split; [split; [exact Httl|]|split].
  - unfold VersionCache.set. rewrite Httl. cbn [VersionCache.entries].
    rewrite lookup_insert_eq. intros Hentry.
    unfold VersionCache.get. rewrite Hentry. cbn [ttl timestamp value].
    split.
    + intros Hle.
      destruct (Z.ltb_spec 5000 (VersionCache.clock s' - VersionCache.clock s)); [lia|done].
    + intros Hgt.
      destruct (Z.ltb_spec 5000 (VersionCache.clock s' - VersionCache.clock s)); [|lia].
      cbn. split; [done|]. by rewrite lookup_delete_eq.
  - intros Hcur. unfold VersionCache.getTTLForKey.
    by rewrite Hcur, installedVersions_marker.
  - intros Hcur Hinst. unfold VersionCache.getTTLForKey.
    by rewrite Hcur, Hinst, availableVersions_marker.
Qed.

(** X19 on the key of nvm on linux: read at 5000 ms, gone at 5001 ms. *)
Lemma version_cache_ttl_by_key_witness :
  let key := CacheKeyGenerator.currentVersion "nvm" "linux" in
  let s1 := VersionCache.set key (VStr "20.11.0") None (VersionCache.mkStore ∅ 0) in
  fst (VersionCache.get key (VersionCache.mkStore (VersionCache.entries s1) 5000))
  = VStr "20.11.0"
  /\ fst (VersionCache.get key (VersionCache.mkStore (VersionCache.entries s1) 5001))
     = VNull
  /\ VersionCache.getTTLForKey (CacheKeyGenerator.installedVersions "nvm" "linux") = 60000.
Proof.
  cbv zeta.
  destruct (version_cache_ttl_by_key "nvm" "linux" (VStr "20.11.0")
              (VersionCache.mkStore ∅ 0)
              (VersionCache.mkStore
                 (VersionCache.entries
                    (VersionCache.set (CacheKeyGenerator.currentVersion "nvm" "linux")
                       (VStr "20.11.0") None (VersionCache.mkStore ∅ 0))) 5000))
    as ((_ & Hlive) & Hinst & _).
  destruct Hlive as [Hread _]; [reflexivity|].
  split; [rewrite Hread; [reflexivity | vm_compute; discriminate]|].
  split; [reflexivity|]. apply Hinst. reflexivity.
Defined.

(** X20: [invalidateVersionCaches(manager)] deletes the entries whose
    key includes the name of the manager and one of the markers
    "current-version" and "installed-versions", and leaves every other
    entry and the clock alone.  The test is by inclusion in the key: as
    both markers contain the letter "n", invalidating the manager "n"
    deletes the current-version and installed-versions entries of every
    manager on every platform. *)
Theorem invalidation_is_by_substring (manager : string) (s : VersionCache.Store) :
  VersionCache.clock (VersionCache.invalidateVersionCaches manager s) = VersionCache.clock s
  /\ (forall key,
        VersionCache.entries (VersionCache.invalidateVersionCaches manager s) !! key
        = if VersionCache.invalidated manager key then None
          else VersionCache.entries s !! key)
  /\ (forall key,
        Js.includes key manager = false ->
        VersionCache.entries (VersionCache.invalidateVersionCaches manager s) !! key
        = VersionCache.entries s !! key)
  /\ (forall other platform,
        VersionCache.entries (VersionCache.invalidateVersionCaches "n" s)
          !! CacheKeyGenerator.currentVersion other platform = None
        /\ VersionCache.entries (VersionCache.invalidateVersionCaches "n" s)
             !! CacheKeyGenerator.installedVersions other platform = None).
Proof.
  assert (forall m key,
            VersionCache.entries (VersionCache.invalidateVersionCaches m s) !! key
            = if VersionCache.invalidated m key then None
              else VersionCache.entries s !! key) as Hlookup.
  { intros m key. unfold VersionCache.invalidateVersionCaches. cbn [VersionCache.entries].
    rewrite map_lookup_filter.
    destruct (VersionCache.entries s !! key) as [e|]; cbn; [|by destruct (_ : bool)].
    destruct (VersionCache.invalidated m key) eqn:Hinv; cbn.
    - by rewrite option_guard_False.
    - by rewrite option_guard_True. }
  split; [done|]. split; [apply Hlookup|]. split.
  - intros key Hno. rewrite Hlookup. unfold VersionCache.invalidated. by rewrite Hno.
  - intros other platform. rewrite !Hlookup. unfold VersionCache.invalidated.
    pose proof (currentVersion_marker other platform) as Hcur.
    pose proof (installedVersions_marker other platform) as Hinst.
    rewrite (includes_trans _ _ "n" Hcur) by reflexivity.
    rewrite (includes_trans _ _ "n" Hinst) by reflexivity.
    rewrite Hcur, Hinst. by rewrite orb_true_r.
Qed.

(** X20 on a cache that holds the current version seen by nvm: it is
    gone after the caches of n are invalidated, and kept when those of
    "fnm" are. *)
Lemma invalidation_is_by_substring_witness :
  let key := CacheKeyGenerator.currentVersion "nvm" "linux" in
  let s := VersionCache.set key (VStr "20.11.0") None (VersionCache.mkStore ∅ 0) in
  VersionCache.entries s !! key <> None
  /\ VersionCache.entries (VersionCache.invalidateVersionCaches "n" s) !! key = None
  /\ VersionCache.entries (VersionCache.invalidateVersionCaches "fnm" s) !! key
     = VersionCache.entries s !! key.
Proof.
  cbv zeta. split; [vm_compute; discriminate|].
  destruct (invalidation_is_by_substring "n"
              (VersionCache.set (CacheKeyGenerator.currentVersion "nvm" "linux")
                 (VStr "20.11.0") None (VersionCache.mkStore ∅ 0)))
    as (_ & _ & _ & Hall).
  split; [apply Hall|].
  destruct (invalidation_is_by_substring "fnm"
              (VersionCache.set (CacheKeyGenerator.currentVersion "nvm" "linux")
                 (VStr "20.11.0") None (VersionCache.mkStore ∅ 0)))
    as (_ & _ & Hkeep & _).
  apply Hkeep. reflexivity.
Defined.

(** ** The PATH variable *)

Section PathLists.
Import Js PlatformUtils.

Lemma split_sep_free (sep : ascii) (s : string) :
  sep_free sep s = true -> split sep s = [s].
Proof.
  induction s as [|c rest IH]; [done|]. cbn.
  intros H. apply andb_true_iff in H as [Hc Hrest].
  apply negb_true_iff in Hc. by rewrite Hc, (IH Hrest).
Qed.

Lemma split_app_sep (sep : ascii) (s rest : string) :
  sep_free sep s = true ->
  split sep (s +:+ String sep rest) = s :: split sep rest.
Proof.
  induction s as [|c s' IH].
  - intros _. rewrite app_empty_l. cbn. by rewrite Ascii.eqb_refl.
  - intros H. cbn in H. apply andb_true_iff in H as [Hc Hs'].
    apply negb_true_iff in Hc. rewrite app_cons. cbn [split].
    by rewrite Hc, (IH Hs').
Qed.

(** The pieces of a split do not contain the separator. *)
Lemma split_pieces (sep : ascii) (s : string) :
  Forall (fun p => sep_free sep p = true) (split sep s).
Proof.
  induction s as [|c rest IH]; [by repeat constructor|]. cbn.
  destruct (Ascii.eqb c sep) eqn:Hc.
  - by constructor.
  - destruct (split sep rest) as [|p ps];
      [constructor; [cbn; by rewrite Hc | constructor]|].
    inversion IH as [|? ? Hp Hps]; subst.
    constructor; [|done]. cbn. by rewrite Hc, Hp.
Qed.

(** Splitting undoes joining, for pieces without the separator. *)
Lemma split_join (sep : ascii) (p : string) (ps : list string) :
  Forall (fun q => sep_free sep q = true) (p :: ps) ->
  split sep (String.concat (String sep "") (p :: ps)) = p :: ps.
Proof.
  revert p. induction ps as [|q qs IH]; intros p Hall.
  - cbn. apply split_sep_free. by inversion Hall.
  - inversion Hall as [|? ? Hp Hrest]; subst.
    change (String.concat (String sep "") (p :: q :: qs))
      with (p +:+ String sep (String.concat (String sep "") (q :: qs))).
    by rewrite (split_app_sep _ _ _ Hp), (IH q Hrest).
Qed.

Lemma concat_nonempty (sep : ascii) (l : list string) (p : string) :
  In p l -> p <> "" -> String.concat (String sep "") l <> "".
Proof.
  destruct l as [|x [|y l']]; [done| |].
  - intros [<- | []] Hp. done.
  - intros _ _.
    change (String.concat (String sep "") (x :: y :: l'))
      with (x +:+ String sep (String.concat (String sep "") (y :: l'))).
    by destruct x.
Qed.

Lemma filter_all {A} (f : A -> bool) (l : list A) :
  Forall (fun x => f x = true) l -> List.filter f l = l.
Proof.
  induction 1 as [|x l Hx _ IH]; [done|]. cbn. by rewrite Hx, IH.
Qed.

Lemma trim_nonblank (p : string) : trim p <> "" <-> negb (is_empty (trim p)) = true.
Proof. by destruct (trim p). Qed.

(** [splitPath] undoes [joinPathEnv] on a list of entries. *)
Lemma splitPath_joinPathEnv (windows : bool) (paths : list string) :
  Forall (path_entry (getPathSeparator windows)) paths ->
  splitPath windows (joinPathEnv windows paths) = paths.
Proof.
  intros Hall. unfold splitPath, joinPathEnv.
  destruct paths as [|p ps]; [done|].
  rewrite split_join.
  - apply filter_all. eapply Forall_impl; [exact Hall|].
    intros q [_ Hq]. by apply trim_nonblank.
  - eapply Forall_impl; [exact Hall|]. by intros q [Hq _].
Qed.

(** What [splitPath] returns is a list of entries. *)
Lemma splitPath_entries (windows : bool) (pathString : string) :
  Forall (path_entry (getPathSeparator windows)) (splitPath windows pathString).
Proof.
  unfold splitPath. apply List.Forall_forall. intros q Hq.
  apply filter_In in Hq as [Hin Hq]. split.
  - pose proof (split_pieces (getPathSeparator windows) pathString) as Hp.
    rewrite List.Forall_forall in Hp. by apply Hp.
  - by apply trim_nonblank.
Qed.

Lemma existsb_eqb (p : string) (l : list string) :
  existsb (String.eqb p) l = true <-> In p l.
Proof.
  rewrite existsb_exists. split.
  - intros (q & Hq & Heq). apply String.eqb_eq in Heq. by subst.
  - intros Hin. exists p. split; [done|apply String.eqb_refl].
Qed.

Lemma replace_all_free (from to : ascii) (s : string) :
  from <> to -> sep_free from (replace_all from to s) = true.
Proof.
  intros Hne. induction s as [|c s IH]; [done|]. cbn. rewrite IH, andb_true_r.
  destruct (Ascii.eqb_spec c from) as [->|Hc].
  - apply negb_true_iff. destruct (Ascii.eqb_spec to from); [by subst|done].
  - apply negb_true_iff. by destruct (Ascii.eqb_spec c from).
Qed.

Lemma replace_all_id (from to : ascii) (s : string) :
  sep_free from s = true -> replace_all from to s = s.
Proof.
  induction s as [|c s IH]; [done|]. cbn. intros H.
  apply andb_true_iff in H as [Hc Hs]. apply negb_true_iff in Hc.
  by rewrite Hc, (IH Hs).
Qed.

End PathLists.

(** X21: [splitPath] undoes [joinPathEnv]: a list of entries, each not
    blank and without the separator of the platform, joined and split
    again is the same list; and whatever string [splitPath] is given,
    it returns such a list, so that joining and splitting its result
    changes nothing. *)
Theorem path_round_trip (windows : bool) (paths : list string) (pathString : string) :
  (Forall (path_entry (PlatformUtils.getPathSeparator windows)) paths ->
   PlatformUtils.splitPath windows (PlatformUtils.joinPathEnv windows paths) = paths)
  /\ Forall (path_entry (PlatformUtils.getPathSeparator windows))
       (PlatformUtils.splitPath windows pathString)
  /\ PlatformUtils.splitPath windows
       (PlatformUtils.joinPathEnv windows (PlatformUtils.splitPath windows pathString))
     = PlatformUtils.splitPath windows pathString.
Proof.
  split; [apply splitPath_joinPathEnv|].
  split; [apply splitPath_entries|].
  apply splitPath_joinPathEnv, splitPath_entries.
Qed.

(** X21 on a Unix PATH with an empty and a blank entry. *)
Lemma path_round_trip_witness :
  PlatformUtils.splitPath false "/usr/bin:: :/bin" = ["/usr/bin"; "/bin"]
  /\ PlatformUtils.splitPath false (PlatformUtils.joinPathEnv false ["/usr/bin"; "/bin"])
     = ["/usr/bin"; "/bin"].
Proof.
  split; [reflexivity|].
  destruct (path_round_trip false ["/usr/bin"; "/bin"] "") as [Hround _].
  apply Hround. repeat constructor; discriminate.
Defined.

(** X22: for a new entry that is not blank and does not contain the
    separator, [addToPath] returns a PATH whose entries are the new
    entry followed by the entries of the current PATH, or the entries of
    the current PATH alone when the new entry is already one of them;
    the new entry is always among them; and adding it a second time
    returns the same string.  The current PATH is the one given, or that
    of the environment when none or an empty one is given. *)
Theorem addToPath_adds_once (windows : bool) (env_PATH : option string)
    (newPath : string) (existingPath : option string) :
  path_entry (PlatformUtils.getPathSeparator windows) newPath ->
  let current := Js.or_else (default "" existingPath) (default "" env_PATH) in
  let result := PlatformUtils.addToPath windows env_PATH newPath existingPath in
  PlatformUtils.splitPath windows result
  = (if existsb (String.eqb newPath) (PlatformUtils.splitPath windows current)
     then PlatformUtils.splitPath windows current
     else newPath :: PlatformUtils.splitPath windows current)
  /\ In newPath (PlatformUtils.splitPath windows result)
  /\ PlatformUtils.addToPath windows env_PATH newPath (Some result) = result.
Proof.
  intros Hnew. cbv zeta.
  set (current := Js.or_else (default "" existingPath) (default "" env_PATH)).
  set (paths := if existsb (String.eqb newPath) (PlatformUtils.splitPath windows current)
                then PlatformUtils.splitPath windows current
                else newPath :: PlatformUtils.splitPath windows current).
  assert (PlatformUtils.addToPath windows env_PATH newPath existingPath
          = PlatformUtils.joinPathEnv windows paths) as Hresult by done.
  assert (Forall (path_entry (PlatformUtils.getPathSeparator windows)) paths) as Hentries.
  { unfold paths. destruct (existsb _ _); [apply splitPath_entries|].
    constructor; [done|apply splitPath_entries]. }
  assert (In newPath paths) as Hin.
  { unfold paths.
    destruct (existsb _ _) eqn:Hex; [by apply existsb_eqb|by left]. }
  assert (PlatformUtils.splitPath windows (PlatformUtils.joinPathEnv windows paths) = paths)
    as Hsplit by by apply splitPath_joinPathEnv.
  rewrite Hresult, Hsplit. split; [done|]. split; [done|].
  assert (PlatformUtils.joinPathEnv windows paths <> "") as Hne.
  { apply (concat_nonempty _ _ newPath Hin). destruct Hnew as [_ Ht].
    intros ->. by apply Ht. }
  assert (forall r, r <> "" ->
            PlatformUtils.addToPath windows env_PATH newPath (Some r)
            = PlatformUtils.joinPathEnv windows
                (if existsb (String.eqb newPath) (PlatformUtils.splitPath windows r)
                 then PlatformUtils.splitPath windows r
                 else newPath :: PlatformUtils.splitPath windows r)) as Hsome.
  { intros r Hr. destruct r; [done|reflexivity]. }
  rewrite (Hsome _ Hne), Hsplit.
  by rewrite (proj2 (existsb_eqb newPath paths) Hin).
Qed.

(** X22 on the directory of nvm's node versions: it goes in front once. *)
Lemma addToPath_adds_once_witness :
  PlatformUtils.addToPath false (Some "/usr/bin:/bin") "/home/dev/.nvm/versions/node" None
  = "/home/dev/.nvm/versions/node:/usr/bin:/bin"
  /\ PlatformUtils.addToPath false (Some "/usr/bin:/bin") "/home/dev/.nvm/versions/node"
       (Some "/home/dev/.nvm/versions/node:/usr/bin:/bin")
     = "/home/dev/.nvm/versions/node:/usr/bin:/bin"
  /\ PlatformUtils.addToPath false None "a:b" (Some "a:b") = "a:b:a:b".
Proof.
  split; [reflexivity|].
  destruct (addToPath_adds_once false (Some "/usr/bin:/bin")
              "/home/dev/.nvm/versions/node" None) as (_ & _ & Hagain).
  - split; [reflexivity|discriminate].
  - split; [exact Hagain|reflexivity].
Defined.

(** X23: [normalizePath] leaves no separator of the other platform in
    the path (no slash on Windows, no backslash elsewhere), changes
    nothing in a path that has none, and is therefore idempotent. *)
Theorem normalizePath_normalizes (windows : bool) (filePath : string) :
  sep_free (if windows then "047"%char else "092"%char)
    (PlatformUtils.normalizePath windows filePath) = true
  /\ PlatformUtils.normalizePath windows (PlatformUtils.normalizePath windows filePath)
     = PlatformUtils.normalizePath windows filePath.
Proof.
  unfold PlatformUtils.normalizePath. destruct windows.
  - assert (sep_free "047" (PlatformUtils.replace_all "047" "092" filePath) = true) as H
      by by apply replace_all_free.
    split; [done|]. by apply replace_all_id.
  - assert (sep_free "092" (PlatformUtils.replace_all "092" "047" filePath) = true) as H
      by by apply replace_all_free.
    split; [done|]. by apply replace_all_id.
Qed.

(** ** The performance analyzer *)

Section AnalyzerFacts.
Import PerformanceAnalyzer.
Context {A : Type}.

(** [end(operation)] leaves the books of the other operations alone. *)
Lemma end_frame (operation other : string) (a1 : PerformanceAnalyzer.Analyzer) :
  other <> operation ->
  PerformanceAnalyzer.enabled (snd (PerformanceAnalyzer.end_ operation a1))
  = PerformanceAnalyzer.enabled a1
  /\ PerformanceAnalyzer.startTimes (snd (PerformanceAnalyzer.end_ operation a1)) !! other
     = PerformanceAnalyzer.startTimes a1 !! other
  /\ PerformanceAnalyzer.measurements (snd (PerformanceAnalyzer.end_ operation a1)) !! other
     = PerformanceAnalyzer.measurements a1 !! other.
Proof.
  intros Hne. unfold PerformanceAnalyzer.end_.
  destruct (PerformanceAnalyzer.enabled a1) eqn:Hena; cbn [negb].
  2:{ cbn. done. }
  destruct (PerformanceAnalyzer.startTimes a1 !! operation) as [t|]; [|done].
  destruct (t =? 0); [done|]. cbn.
  by rewrite lookup_delete_ne, lookup_insert_ne.
Qed.

(** One measurement around a computation that leaves the books of the
    operation alone: one duration goes on record and no start time
    stays behind; the books of every other operation are as the
    computation left them. *)
Lemma measure_once (operation : string) (fn : Timed A) (a : Analyzer) :
  untimed operation fn ->
  enabled a = true ->
  performance_now a <> 0 ->
  fst (measure operation fn a) = fst (fn (start operation a))
  /\ recorded operation (snd (measure operation fn a)) = S (recorded operation a)
  /\ startTimes (snd (measure operation fn a)) !! operation = None
  /\ enabled (snd (measure operation fn a)) = true
  /\ (forall other, other <> operation ->
        startTimes (snd (measure operation fn a)) !! other
        = startTimes (snd (fn (start operation a))) !! other
        /\ measurements (snd (measure operation fn a)) !! other
           = measurements (snd (fn (start operation a))) !! other).
Proof.
  intros Hfn Hen Hnow. unfold measure.
  destruct (Hfn (start operation a)) as (He & Hs & Hm).
  assert (enabled (start operation a) = true) as Hen1.
  { unfold start. by rewrite Hen. }
  assert (startTimes (start operation a) !! operation = Some (performance_now a)) as Hs1.
  { unfold start. rewrite Hen. cbn. by rewrite lookup_insert_eq. }
  assert (measurements (start operation a) !! operation = measurements a !! operation)
    as Hm1.
  { unfold start. by rewrite Hen. }
  rewrite Hen1 in He. rewrite Hs1 in Hs. rewrite Hm1 in Hm.
  assert (forall r : Thrown + A,
            snd (r, snd (end_ operation (snd (fn (start operation a)))))
            = snd (end_ operation (snd (fn (start operation a))))) as _ by done.
  assert (fst (measure operation fn a) = fst (fn (start operation a))) as Hres.
  { unfold measure. by destruct (fn (start operation a)) as [[e|r] a']. }
  assert (snd (measure operation fn a)
          = snd (end_ operation (snd (fn (start operation a))))) as Hend.
  { unfold measure. by destruct (fn (start operation a)) as [[e|r] a']. }
  fold (measure operation fn a). rewrite Hend. split; [exact Hres|].
  unfold end_. rewrite He, Hs. cbn [negb].
  destruct (Z.eqb_spec (performance_now a) 0) as [Hz|_]; [done|].
  cbn [snd measurements startTimes enabled]. unfold recorded. cbn [measurements].
  rewrite lookup_insert_eq, lookup_delete_eq, Hm. cbn [default from_option id].
  split; [rewrite length_app; cbn; lia|]. split; [done|]. split; [done|].
  intros other Hne. rewrite lookup_delete_ne, lookup_insert_ne by done. done.
Qed.

End AnalyzerFacts.

(** X24: with the analyzer enabled, [measure(operation, fn)] around a
    computation that leaves the books of the operation alone puts one
    duration on record; but a measurement nested directly inside another
    one of the same name is the only one recorded: the inner [end]
    removes the start time, so that the outer [end] finds none and
    records nothing.  Nested under a different name, both are recorded.
    The result or the exception of [fn] is handed on in every case. *)
Theorem nested_measurement_is_recorded_once {A : Type} (operation other : string)
    (fn : PerformanceAnalyzer.Timed A) (a : PerformanceAnalyzer.Analyzer) :
  untimed operation fn ->
  untimed other fn ->
  PerformanceAnalyzer.enabled a = true ->
  PerformanceAnalyzer.performance_now a <> 0 ->
  (let run := PerformanceAnalyzer.measure operation
                (PerformanceAnalyzer.measure operation fn) a in
   fst run
   = fst (fn (PerformanceAnalyzer.start operation (PerformanceAnalyzer.start operation a)))
   /\ recorded operation (snd run) = S (recorded operation a)
   /\ PerformanceAnalyzer.startTimes (snd run) !! operation = None)
  /\ (other <> operation ->
      let run := PerformanceAnalyzer.measure other
                   (PerformanceAnalyzer.measure operation fn) a in
      recorded operation (snd run) = S (recorded operation a)
      /\ recorded other (snd run) = S (recorded other a)).
Proof.
  intros Hfn Hfn' Hen Hnow.
  assert (PerformanceAnalyzer.enabled (PerformanceAnalyzer.start operation a) = true
          /\ PerformanceAnalyzer.performance_now (PerformanceAnalyzer.start operation a)
             = PerformanceAnalyzer.performance_now a
          /\ recorded operation (PerformanceAnalyzer.start operation a)
             = recorded operation a) as (Hen1 & Hnow1 & Hrec1).
  { unfold PerformanceAnalyzer.start. by rewrite Hen. }
  split.
  - cbv zeta.
    destruct (measure_once operation fn (PerformanceAnalyzer.start operation a) Hfn Hen1)
      as (Hres & Hrec & Hstart & Hen2 & _); [by rewrite Hnow1|].
    set (inner := PerformanceAnalyzer.measure operation fn
                    (PerformanceAnalyzer.start operation a)) in *.
    assert (PerformanceAnalyzer.measure operation
              (PerformanceAnalyzer.measure operation fn) a
            = (fst inner, snd inner)) as ->.
    { unfold PerformanceAnalyzer.measure at 1. fold inner.
      assert (PerformanceAnalyzer.end_ operation (snd inner) = (0, snd inner)) as Hend.
      { unfold PerformanceAnalyzer.end_. by rewrite Hen2, Hstart. }
      destruct inner as [[e|r] a']; cbn [fst snd] in *; by rewrite Hend. }
    cbn [fst snd]. by rewrite Hres, Hrec, Hrec1.
  - intros Hne. cbv zeta.
    assert (untimed other (PerformanceAnalyzer.measure operation fn)) as Hquiet.
    { intros a0. unfold PerformanceAnalyzer.measure.
      destruct (Hfn (PerformanceAnalyzer.start operation a0)) as (He & _ & _).
      destruct (Hfn' (PerformanceAnalyzer.start operation a0)) as (_ & Hs' & Hm').
      assert (PerformanceAnalyzer.enabled (PerformanceAnalyzer.start operation a0)
              = PerformanceAnalyzer.enabled a0
              /\ PerformanceAnalyzer.startTimes (PerformanceAnalyzer.start operation a0)
                   !! other = PerformanceAnalyzer.startTimes a0 !! other
              /\ PerformanceAnalyzer.measurements (PerformanceAnalyzer.start operation a0)
                   !! other = PerformanceAnalyzer.measurements a0 !! other)
        as (Hse & Hss & Hsm).
      { unfold PerformanceAnalyzer.start.
        destruct (PerformanceAnalyzer.enabled a0) eqn:Hen0; [|done]. cbn.
        by rewrite lookup_insert_ne. }
      destruct (fn (PerformanceAnalyzer.start operation a0)) as [[e|r] a1];
        cbn [snd] in *;
        destruct (end_frame operation other a1 Hne) as (H1 & H2 & H3);
        by rewrite H1, H2, H3, He, Hs', Hm', Hse, Hss, Hsm. }
    destruct (measure_once other (PerformanceAnalyzer.measure operation fn) a Hquiet Hen Hnow)
      as (_ & Hrec_other & _ & _ & Hrest).
    split; [|exact Hrec_other].
    destruct (Hrest operation (not_eq_sym Hne)) as [_ Hm].
    unfold recorded at 1. rewrite Hm.
    assert (PerformanceAnalyzer.enabled (PerformanceAnalyzer.start other a) = true
            /\ PerformanceAnalyzer.performance_now (PerformanceAnalyzer.start other a)
               = PerformanceAnalyzer.performance_now a
            /\ recorded operation (PerformanceAnalyzer.start other a)
               = recorded operation a) as (Hen2 & Hnow2 & Hrec2).
    { unfold PerformanceAnalyzer.start. by rewrite Hen. }
    destruct (measure_once operation fn (PerformanceAnalyzer.start other a) Hfn Hen2)
      as (_ & Hrec & _); [by rewrite Hnow2|].
    unfold recorded in Hrec at 1. by rewrite Hrec, Hrec2.
Qed.

(** X24 on the operation name that [detectAllManagers] and [detectN]
    both use: nested, one duration is recorded, not two. *)
Lemma nested_measurement_witness :
  let op := "environmentDetector.detectN" in
  recorded op
    (snd (PerformanceAnalyzer.measure op (PerformanceAnalyzer.measure op (tick 5))
            example_analyzer)) = 1%nat
  /\ recorded "outer"
       (snd (PerformanceAnalyzer.measure "outer" (PerformanceAnalyzer.measure op (tick 5))
               example_analyzer)) = 1%nat.
Proof.
  cbv zeta.
  destruct (nested_measurement_is_recorded_once "environmentDetector.detectN" "outer"
              (tick 5) example_analyzer) as [(_ & Hsame & _) Hother];
    [by intros a | by intros a | reflexivity | discriminate |].
  split; [exact Hsame|].
  destruct Hother as [_ Houter]; [discriminate | exact Houter].
Defined.

(** ** The current version seen by nvm *)

Section CurrentVersionFacts.
Import NVMManager.

Lemma version_get_live (key : string) (s : VersionCache.Store) (e : CacheEntry) :
  VersionCache.entries s !! key = Some e ->
  VersionCache.clock s - timestamp e <= ttl e ->
  VersionCache.get key s = (value e, s).
Proof.
  intros He Hle. unfold VersionCache.get. rewrite He.
  destruct (Z.ltb_spec (ttl e) (VersionCache.clock s - timestamp e)); [lia|done].
Qed.

Lemma version_set_lookup (key : string) (v : Value) (t : Z) (s : VersionCache.Store) :
  t <> 0 ->
  VersionCache.entries (VersionCache.set key v (Some t) s) !! key
  = Some (mkEntry v (VersionCache.clock s) t).
Proof.
  intros Ht. unfold VersionCache.set. cbn.
  destruct (Z.eqb_spec t 0); [done|]. by rewrite lookup_insert_eq.
Qed.

End CurrentVersionFacts.

(** X25: [getCurrentVersion] of the nvm manager, when the version cache
    has nothing for it, asks [node --version].  A successful answer with
    some output is returned, trimmed and without its leading "v", and is
    served from the cache, without asking again, in every later state
    that still holds the entry, for five seconds.  A failed or empty
    answer gives [null], and an entry holding [null] is stored for two
    seconds; yet that entry never answers a call: in every later state
    that holds it, within the two seconds too, [node --version] is asked
    again.  When asking throws, the result is [null] and nothing is
    stored. *)
Theorem current_version_caching (platformType : string)
    (executeNodeCommand : VersionCache.Store -> (Thrown + CommandResult) * VersionCache.Store)
    (s s1 s2 : VersionCache.Store) :
  let key := CacheKeyGenerator.currentVersion "nvm" platformType in
  VersionCache.get key s = (VNull, s1) ->
  (forall nodeResult,
     executeNodeCommand s1 = (inr nodeResult, s2) ->
     success nodeResult = true -> stdout nodeResult <> "" ->
     let version := Js.strip_v (Js.trim (stdout nodeResult)) in
     exists s3,
       NVMManager.getCurrentVersion platformType executeNodeCommand s = (VStr version, s3)
       /\ forall ask s',
            VersionCache.entries s' !! key = VersionCache.entries s3 !! key ->
            VersionCache.clock s' - VersionCache.clock s2 <= 5000 ->
            NVMManager.getCurrentVersion platformType ask s' = (VStr version, s'))
  /\ (forall nodeResult,
        executeNodeCommand s1 = (inr nodeResult, s2) ->
        success nodeResult = false \/ stdout nodeResult = "" ->
        exists s3,
          NVMManager.getCurrentVersion platformType executeNodeCommand s = (VNull, s3)
          /\ VersionCache.entries s3 !! key = Some (mkEntry VNull (VersionCache.clock s2) 2000)
          /\ forall ask s',
               VersionCache.entries s' !! key = VersionCache.entries s3 !! key ->
               VersionCache.clock s' - VersionCache.clock s2 <= 2000 ->
               NVMManager.getCurrentVersion platformType ask s'
               = NVMManager.askNode ask key s')
  /\ (forall error,
        executeNodeCommand s1 = (inl error, s2) ->
        NVMManager.getCurrentVersion platformType executeNodeCommand s = (VNull, s2)).
Proof.
  cbv zeta. intros Hget.
  split; [|split].
  - intros nodeResult Hask Hok Hout.
    unfold NVMManager.getCurrentVersion. rewrite Hget. cbn [not_null].
    unfold NVMManager.askNode. rewrite Hask, Hok, (is_empty_false _ Hout). cbn [andb negb].
    eexists. split; [done|].
    intros ask s' Hsame Hle. rewrite version_set_lookup in Hsame by done.
    by rewrite (version_get_live _ s' _ Hsame).
  - intros nodeResult Hask Hfail.
    unfold NVMManager.getCurrentVersion. rewrite Hget. cbn [not_null].
    unfold NVMManager.askNode at 1. rewrite Hask.
    assert (success nodeResult && negb (Js.is_empty (stdout nodeResult)) = false) as ->.
    { destruct Hfail as [-> | ->]; [done|apply andb_false_r]. }
    eexists. split; [done|]. split; [by apply version_set_lookup|].
    intros ask s' Hsame Hle. rewrite version_set_lookup in Hsame by done.
    by rewrite (version_get_live _ s' _ Hsame).
  - intros error Hask.
    unfold NVMManager.getCurrentVersion. rewrite Hget. cbn [not_null].
    unfold NVMManager.askNode. by rewrite Hask.
Qed.

(** X25 on a machine where [node --version] fails: a second call made
    at once asks again, and so gets the answer of a node that has been
    installed in between. *)
Lemma current_version_caching_witness :
  let failing := node_answers (mkCommandResult false "" "not found" 127) 30 in
  let working := node_answers (mkCommandResult true "v20.11.0" "" 0) 30 in
  let empty := VersionCache.mkStore ∅ 0 in
  exists s3,
    NVMManager.getCurrentVersion "linux" failing empty = (VNull, s3)
    /\ VersionCache.entries s3 !! CacheKeyGenerator.currentVersion "nvm" "linux"
       = Some (mkEntry VNull 30 2000)
    /\ fst (NVMManager.getCurrentVersion "linux" working s3) = VStr "20.11.0".
Proof.
  cbv zeta.
  destruct (current_version_caching "linux"
              (node_answers (mkCommandResult false "" "not found" 127) 30)
              (VersionCache.mkStore ∅ 0) (VersionCache.mkStore ∅ 0)
              (VersionCache.mkStore ∅ 30)) as (_ & Hfail & _); [reflexivity|].
  destruct (Hfail (mkCommandResult false "" "not found" 127))
    as (s3 & Hrun & Hentry & Hagain); [reflexivity | by left |].
  exists s3. split; [exact Hrun|]. split; [exact Hentry|].
  rewrite (Hagain (node_answers (mkCommandResult true "v20.11.0" "" 0) 30) s3 eq_refl).
  - reflexivity.
  - injection Hrun as <-. vm_compute. discriminate.
Defined.

(** ** The active manager *)

Section ActiveManager.
Import NodeManagerService.

Lemma find_some_type (t : NodeManagerType) (l : list ManagerDetectionResult)
    (m : ManagerDetectionResult) :
  List.find (fun m => String.eqb (type_name (mdr_type m)) (type_name t)) l = Some m ->
  In m l /\ mdr_type m = t.
Proof.
  intros Hfind. apply find_some in Hfind as [Hin Hty]. split; [done|].
  apply String.eqb_eq in Hty. by destruct (mdr_type m), t.
Qed.

Lemma find_none_type (t : NodeManagerType) (l : list ManagerDetectionResult) :
  List.find (fun m => String.eqb (type_name (mdr_type m)) (type_name t)) l = None ->
  forall m, In m l -> mdr_type m <> t.
Proof.
  intros Hfind m Hin Hty. pose proof (find_none _ _ Hfind m Hin) as Hno.
  cbn in Hno. rewrite Hty in Hno. by rewrite String.eqb_refl in Hno.
Qed.

End ActiveManager.

(** X26: [getActiveManager] with a manager already active returns it
    and does nothing: no detection is made, for ever.
    [detectAndSetActiveManager] never throws.  With the preference
    "auto", when the detection hands over a list of descriptors: if none
    is available it returns [null] and leaves the active manager as it
    was; if an nvm descriptor is available, nvm becomes active and is
    returned; otherwise, if an n descriptor is available, n becomes
    active and is returned, except on Windows, where no manager is
    registered under that name and the active manager becomes [null]. *)
Theorem active_manager_selection (windows : bool) (preferred : string)
    (active : option string) (w : World) :
  (forall manager,
     NodeManagerService.getActiveManager windows preferred (Some manager) w
     = (inr (Some manager, Some manager), w))
  /\ (exists r w',
        NodeManagerService.detectAndSetActiveManager windows preferred active w
        = (inr r, w'))
  /\ (forall ms w',
        Detector.detectAllManagers w = (inr (VArr (map VManager ms)), w') ->
        exists r,
          NodeManagerService.detectAndSetActiveManager windows "auto" active w
          = (inr r, w')
          /\ ((forall m, In m ms -> mdr_available m = false) -> r = (None, active))
          /\ ((exists m, In m ms /\ mdr_available m = true /\ mdr_type m = nvm) ->
              r = (Some "nvm", Some "nvm"))
          /\ ((forall m, In m ms -> mdr_available m = true -> mdr_type m <> nvm) ->
              (exists m, In m ms /\ mdr_available m = true /\ mdr_type m = n_manager) ->
              r = if windows then (None, None) else (Some "n", Some "n"))).
Proof.
  split; [done|]. split.
  { unfold NodeManagerService.detectAndSetActiveManager, measure, try_catch.
    destruct (bind _ _ w) as [[e|r] w']; by eexists _, _. }
  intros ms w' Hall.
  unfold NodeManagerService.detectAndSetActiveManager, measure, try_catch.
  unfold bind at 1. rewrite Hall.
  unfold bind at 1. cbn [EnvironmentDetector.as_array ret].
  unfold bind at 1. rewrite filter_available_managers.
  pose proof (fun m => filter_In mdr_available m ms) as Hin.
  destruct (List.filter mdr_available ms) as [|m1 rest] eqn:Hf.
  { cbn [map]. exists (None, active). split; [done|]. split; [done|]. split.
    - intros (m & Hm & Hav & _). by destruct (proj2 (Hin m) (conj Hm Hav)).
    - intros _ (m & Hm & Hav & _). by destruct (proj2 (Hin m) (conj Hm Hav)). }
  assert (exists l, l = m1 :: rest) as (l & Hl) by by eexists.
  rewrite <- Hl in *. 
  assert (map VManager l = VManager m1 :: map VManager rest) as Hmap by by rewrite Hl.
  rewrite Hmap. cbn [app]. rewrite <- Hmap.
  unfold NodeManagerService.selectManager. cbn [String.eqb Ascii.eqb Bool.eqb].
  unfold bind at 1. unfold bind at 1.
  rewrite (find_type_managers "nvm" l).
  destruct (List.find (fun m => String.eqb (type_name (mdr_type m)) "nvm") l)
    as [m|] eqn:Hnvm.
  - destruct (find_some_type nvm l m Hnvm) as [Hm Hty].
    cbn [truthy ret]. unfold bind, lift. cbn [get_prop String.eqb Ascii.eqb Bool.eqb].
    rewrite Hty. cbn.
    exists (Some "nvm", Some "nvm"). split; [done|]. split; [|split; [done|]].
    + intros Hnone. apply Hin in Hm as [Hm Hav]. by rewrite (Hnone m Hm) in Hav.
    + intros Hno _. apply Hin in Hm as [Hm Hav]. by destruct (Hno m Hm Hav).
  - pose proof (find_none_type nvm l Hnvm) as Hnot.
    cbn [truthy]. unfold bind at 1.
    rewrite (find_type_managers "n" l).
    destruct (List.find (fun m => String.eqb (type_name (mdr_type m)) "n") l)
      as [m|] eqn:Hn.
    + destruct (find_some_type n_manager l m Hn) as [Hm Hty].
      unfold NodeManagerService.or_value. cbn [truthy ret].
      unfold bind, lift. cbn [get_prop String.eqb Ascii.eqb Bool.eqb].
      rewrite Hty. cbn.
      exists (if windows then (None, None) else (Some "n", Some "n")).
      split; [by destruct windows|]. split; [|split; [|done]].
      * intros Hnone. apply Hin in Hm as [Hm Hav]. by rewrite (Hnone m Hm) in Hav.
      * intros (m' & Hm' & Hav' & Hty'). by destruct (Hnot m' (proj2 (Hin m') (conj Hm' Hav'))).
    + pose proof (find_none_type n_manager l Hn) as Hnot'.
      unfold NodeManagerService.or_value. cbn [truthy ret]. rewrite Hl. cbn [hd map].
      unfold bind, lift. cbn [truthy get_prop String.eqb Ascii.eqb Bool.eqb].
      assert (In m1 l) as Hm1 by (rewrite Hl; by left).
      assert (mdr_type m1 = unknown) as Hty.
      { pose proof (Hnot m1 Hm1). pose proof (Hnot' m1 Hm1). by destruct (mdr_type m1). }
      rewrite Hty. cbn. rewrite andb_false_r.
      exists (None, None). split; [done|]. split; [|split].
      * intros Hnone. apply Hin in Hm1 as [Hm1 Hav]. by rewrite (Hnone m1 Hm1) in Hav.
      * intros (m' & Hm' & Hav' & Hty'). by destruct (Hnot m' (proj2 (Hin m') (conj Hm' Hav'))).
      * intros _ (m' & Hm' & Hav' & Hty').
        by destruct (Hnot' m' (proj2 (Hin m') (conj Hm' Hav'))).
Qed.

(** X26 on three machines: nvm and n installed; n alone on Unix; n
    alone on Windows. *)
Lemma active_manager_selection_witness :
  fst (NodeManagerService.detectAndSetActiveManager false "auto" None both_installed_world)
  = inr (Some "nvm", Some "nvm")
  /\ fst (NodeManagerService.detectAndSetActiveManager false "auto" None which_throws_world)
     = inr (Some "n", Some "n")
  /\ fst (NodeManagerService.detectAndSetActiveManager true "auto" None windows_n_world)
     = inr (None, None)
  /\ fst (EnvironmentDetector.isManagerAvailable n_manager windows_n_world)
     = inr (VBool true).
Proof.
  destruct (active_manager_selection false "auto" None both_installed_world)
    as (_ & _ & Hsel).
  destruct (Hsel [mkManager nvm true (Some "1.0.0") (Some "/home/dev/.nvm") None]
              (snd (Detector.detectAllManagers both_installed_world)))
    as (r & Hrun & _ & Hnvm & _); [vm_compute; reflexivity|].
  split.
  - rewrite Hrun. cbn [fst]. f_equal. apply Hnvm.
    eexists. split; [by left|]. by split.
  - repeat apply conj; vm_compute; reflexivity.
Defined.

(** ** Command results *)

(** X27: [executeCommand] rejects only when [spawn] itself throws.  The
    result it resolves with says success exactly when its exit code is
    0.  A child that closes gives its trimmed output and its exit code,
    a missing code (the child was killed by a signal) counting as 0 and
    so as a success; an [error] event gives a failure with exit code -1
    and the output as it is, untrimmed.
    [executeShellCommand] obeys the same rule on exit codes. *)
Theorem command_results (command : string) (args : list string) (w : World) :
  (forall e, (exists w', Detector.executeCommand command args w = (inl e, w'))
             <-> exists t, spawn w command args = (SpawnThrows e, t))
  /\ (forall r w', Detector.executeCommand command args w = (inr r, w') ->
        (success r = true <-> exitCode r = 0)
        /\ now w' = now w + snd (spawn w command args)
        /\ trace w' = (trace w ++ [EvSpawn command args])%list)
  /\ (forall code out err t,
        spawn w command args = (SpawnClose code out err, t) ->
        fst (Detector.executeCommand command args w)
        = inr (mkCommandResult (default 0 code =? 0) (Js.trim out) (Js.trim err)
                 (default 0 code)))
  /\ (forall out err t,
        spawn w command args = (SpawnClose None out err, t) ->
        fst (Detector.executeCommand command args w)
        = inr (mkCommandResult true (Js.trim out) (Js.trim err) 0))
  /\ (forall message out err t,
        spawn w command args = (SpawnError message out err, t) ->
        exists r,
          fst (Detector.executeCommand command args w) = inr r
          /\ success r = false /\ exitCode r = -1 /\ stdout r = out)
  /\ (forall r w', Detector.executeShellCommand command w = (inr r, w') ->
        success r = true <-> exitCode r = 0).
Proof.
  assert (forall c a w0 r w', Detector.spawn_promise c a w0 = (inr r, w') ->
            success r = true <-> exitCode r = 0) as Hcode.
  { intros c a w0 r w'. unfold Detector.spawn_promise.
    destruct (spawn w0 c a) as [[e|code out err|message out err] t]; [done| |].
    - intros [= <- _]. cbn. apply Z.eqb_eq.
    - intros [= <- _]. cbn. split; done. }
  split; [|split; [|split; [|split; [|split]]]].
  - intros e. unfold Detector.executeCommand, Detector.spawn_promise.
    destruct (spawn w command args) as [[e'|code out err|message out err] t].
    + split.
      * intros (w' & [= <- _]). by exists t.
      * intros (t' & [= <- _]). by eexists.
    + split; [by intros (w' & [=])|by intros (t' & [=])].
    + split; [by intros (w' & [=])|by intros (t' & [=])].
  - intros r w' Hrun. split; [by apply (Hcode command args w r w')|].
    unfold Detector.executeCommand, Detector.spawn_promise in Hrun.
    destruct (spawn w command args) as [[e|code out err|message out err] t];
      [done| |]; injection Hrun as _ <-; done.
  - intros code out err t Hspawn.
    unfold Detector.executeCommand, Detector.spawn_promise. by rewrite Hspawn.
  - intros out err t Hspawn.
    unfold Detector.executeCommand, Detector.spawn_promise. by rewrite Hspawn.
  - intros message out err t Hspawn.
    unfold Detector.executeCommand, Detector.spawn_promise. rewrite Hspawn.
    by eexists.
  - intros r w'. unfold Detector.executeShellCommand, bind.
    destruct (getShellCommand (env w)) as [e|shellConfig]; [done|].
    apply Hcode.
Qed.

(** X27 on a machine where every child is killed by a signal: the
    command counts as a success, and [detectN] reports n available, with
    an empty version. *)
Lemma command_results_witness :
  fst (Detector.executeCommand "n" ["--version"] killed_world)
  = inr (mkCommandResult true "" "" 0)
  /\ fst (Detector.detectN killed_world)
     = inr (VManager (mkManager n_manager true (Some "") (Some "") None)).
Proof.
  destruct (command_results "n" ["--version"] killed_world) as (_ & _ & _ & Hkilled & _).
  split; [apply (Hkilled "" "" 100); reflexivity | reflexivity].
Defined.

(** ** The project detector *)

Section ProjectDetection.
Import ConfigReader ProjectDetectorService.

(** The run of [hasConfigFiles] that finds nothing. *)
Lemma hasConfigFiles_false_run (root : string) (w : World) :
  fst (hasConfigFiles root w) = inr false ->
  exists w',
    hasConfigFiles root w = (inr false, w')
    /\ caches w' = caches w /\ now w' = now w
    /\ trace w'
       = (trace w ++ map (fun file => EvExists (path_join (env w) [root; file]))
                       config_file_names)%list.
Proof.
  intros Hnone. pose proof (hasConfigFiles_false root w Hnone) as Habsent.
  pose proof (Habsent ".nvmrc" ltac:(cbn; auto)) as H1.
  pose proof (Habsent ".node-version" ltac:(cbn; auto)) as H2.
  pose proof (Habsent ".tool-versions" ltac:(cbn; auto)) as H3.
  pose proof (Habsent "package.json" ltac:(cbn; auto 6)) as H4.
  unfold hasConfigFiles, join, fs_existsSync, bind, log, read_world, ret. cbn.
  rewrite H1. cbn. rewrite H2. cbn. rewrite H3. cbn. rewrite H4. cbn.
  eexists. split; [done|]. split; [done|]. split; [done|].
  cbn. by rewrite <- !app_assoc.
Qed.

End ProjectDetection.

(** X28: [detectProjectVersion] looks at the files before anything
    else.  Without a workspace folder it reports no configuration and
    does nothing.  When none of the four configuration files exists in
    the first folder, it reports no configuration after the four
    existence checks alone: the cache is neither read nor written,
    whatever it holds, and the current version is not asked for.  When a
    file exists, a version is resolved and the current version is known,
    the report carries both, and says that a switch is needed exactly
    when the boolean matcher finds no match. *)
Theorem detectProjectVersion_checks_files_first (root : string) (others : list string)
    (getCurrentNodeVersion : M Value) (w : World) :
  ProjectDetectorService.detectProjectVersion None getCurrentNodeVersion w
  = (inr ProjectDetectorService.noConfig, w)
  /\ ProjectDetectorService.detectProjectVersion (Some []) getCurrentNodeVersion w
     = (inr ProjectDetectorService.noConfig, w)
  /\ (fst (ConfigReader.hasConfigFiles root w) = inr false ->
      exists w',
        ProjectDetectorService.detectProjectVersion (Some (root :: others))
          getCurrentNodeVersion w
        = (inr ProjectDetectorService.noConfig, w')
        /\ caches w' = caches w /\ now w' = now w
        /\ trace w'
           = (trace w ++ map (fun file => EvExists (path_join (env w) [root; file]))
                           config_file_names)%list)
  /\ (forall w1 version source w2 current w3,
        ConfigReader.hasConfigFiles root w = (inr true, w1) ->
        ConfigReader.getProjectNodeVersion root w1
        = (inr (VProjectVersion version source), w2) ->
        getCurrentNodeVersion w2 = (inr (VStr current), w3) ->
        current <> "" ->
        ProjectDetectorService.detectProjectVersion (Some (root :: others))
          getCurrentNodeVersion w
        = (inr (ProjectDetectorService.mkProjectVersionInfo true
                  (Some (VStr version)) (Some (VStr source)) (Some (VStr current))
                  (Some (negb (ProjectDetectorService.isVersionMatch current version)))),
           w3)).
Proof.
  split; [done|]. split; [done|]. split.
  - intros Hnone.
    destruct (hasConfigFiles_false_run root w Hnone) as (w' & Hrun & Hrest).
    exists w'. split; [|done].
    unfold ProjectDetectorService.detectProjectVersion, bind. by rewrite Hrun.
  - intros w1 version source w2 current w3 Hhas Hconfig Hcurrent Hne.
    unfold ProjectDetectorService.detectProjectVersion, bind, lift.
    rewrite Hhas. cbn [negb]. rewrite Hconfig. cbn [truthy negb get_prop].
    cbn [String.eqb Ascii.eqb Bool.eqb]. rewrite Hcurrent.
    apply truthy_VStr in Hne. rewrite Hne. done.
Qed.

(** X28 on the project pinned to "16" once its files have been removed:
    [getProjectNodeVersion] still serves the cached version, while
    [detectProjectVersion] reports no configuration. *)
Lemma detectProjectVersion_checks_files_first_witness :
  let w := with_files [] (snd (ConfigReader.getProjectNodeVersion "/proj" pinned_world)) in
  fst (ConfigReader.getProjectNodeVersion "/proj" w) = inr (VProjectVersion "16" ".nvmrc")
  /\ fst (ProjectDetectorService.detectProjectVersion (Some ["/proj"])
            (ret (VStr "20.11.0")) w)
     = inr ProjectDetectorService.noConfig
  /\ fst (ProjectDetectorService.detectProjectVersion (Some ["/proj"])
            (ret (VStr "20.11.0")) pinned_world)
     = inr (ProjectDetectorService.mkProjectVersionInfo true
              (Some (VStr "16")) (Some (VStr ".nvmrc")) (Some (VStr "20.11.0"))
              (Some true)).
Proof.
  cbv zeta. split; [reflexivity|].
  destruct (detectProjectVersion_checks_files_first "/proj" [] (ret (VStr "20.11.0"))
              (with_files []
                 (snd (ConfigReader.getProjectNodeVersion "/proj" pinned_world))))
    as (_ & _ & Hnone & _).
  destruct Hnone as (w' & Hrun & _); [reflexivity|].
  split; [by rewrite Hrun | reflexivity].
Defined.

(** ** Pin files *)

(** X29: [readVersionFile], which reads .nvmrc and .node-version, never
    throws.  When it misses its cache entry, it checks that the file
    exists and reads it only if it does; it returns [null] for a file
    that is absent, cannot be read or holds white space only, and
    otherwise the content of the file without the white space around
    it, which is never empty; and what it returns is stored for one
    minute. *)
Theorem readVersionFile_result (filePath fileName : string) (w : World) :
  let key := "file_" +:+ filePath +:+ "_" +:+ fileName in
  (exists v w', ConfigReader.readVersionFile filePath fileName w = (inr v, w'))
  /\ forall w0,
       Cache.get Cache.CONFIG_FILES key w = (inr VNull, w0) ->
       exists v w',
         ConfigReader.readVersionFile filePath fileName w = (inr v, w')
         /\ (v = VNull \/ exists s, v = VStr s /\ s <> "" /\ Js.trim s = s)
         /\ (existsSync w filePath = false ->
             v = VNull /\ trace w' = (trace w ++ [EvExists filePath])%list)
         /\ (forall err, readFileSync w filePath = inl err -> v = VNull)
         /\ (forall raw,
               existsSync w filePath = true ->
               readFileSync w filePath = inr raw ->
               v = if Js.is_empty (Js.trim raw) then VNull else VStr (Js.trim raw))
         /\ lookup_entry w' Cache.CONFIG_FILES key = Some (mkEntry v (now w) 60000).
Proof.
  cbv zeta.
  set (key := "file_" +:+ filePath +:+ "_" +:+ fileName).
  assert (forall w0,
            Cache.get Cache.CONFIG_FILES key w = (inr VNull, w0) ->
            exists v w',
              ConfigReader.readVersionFile filePath fileName w = (inr v, w')
              /\ (v = VNull \/ exists s, v = VStr s /\ s <> "" /\ Js.trim s = s)
              /\ (existsSync w filePath = false ->
                  v = VNull /\ trace w' = (trace w ++ [EvExists filePath])%list)
              /\ (forall err, readFileSync w filePath = inl err -> v = VNull)
              /\ (forall raw,
                    existsSync w filePath = true ->
                    readFileSync w filePath = inr raw ->
                    v = if Js.is_empty (Js.trim raw) then VNull else VStr (Js.trim raw))
              /\ lookup_entry w' Cache.CONFIG_FILES key = Some (mkEntry v (now w) 60000))
    as Hmiss.
  { intros w0 Hget.
    destruct (get_steps Cache.CONFIG_FILES key w)
      as (v0 & w0' & Hget' & (Ht & _ & _ & Hx & Hr) & Hnow).
    rewrite Hget in Hget'. injection Hget' as <- <-.
    rewrite app_nil_r in Ht.
    unfold ConfigReader.readVersionFile. fold key.
    rewrite (cached_miss _ _ _ _ w w0 Hget).
    unfold produce_and_store, measure, try_catch, fs_existsSync, fs_readFileSync, bind,
      log, read_world, ret.
    unfold lookup_entry. cbn. rewrite ?Hx, ?Hr, ?Hnow, ?Ht.
    destruct (existsSync w filePath) eqn:Hex; cbn; rewrite ?Hx, ?Hr, ?Hnow, ?Ht.
    2:{ eexists _, _. split; [done|]. split; [by left|].
        split; [intros _; split; [done|]; cbn; by rewrite Ht|].
        split; [done|]. split; [done|]. cbn.
        rewrite ?Hnow, lookup_insert_eq. by rewrite lookup_insert_eq. }
    destruct (readFileSync w filePath) as [err|raw] eqn:Hread; cbn;
      rewrite ?Hx, ?Hr, ?Hnow, ?Ht.
    { eexists _, _. split; [done|]. split; [by left|]. split; [done|].
      split; [done|]. split; [done|]. cbn.
      rewrite ?Hnow, lookup_insert_eq. by rewrite lookup_insert_eq. }
    destruct (Js.is_empty (Js.trim raw)) eqn:Hblank; cbn.
    - eexists _, _. split; [done|]. split; [by left|]. split; [done|].
      split; [done|]. split; [by intros raw' _ [= <-]; rewrite Hblank|]. cbn.
      rewrite ?Hnow, lookup_insert_eq. by rewrite lookup_insert_eq.
    - eexists _, _. split; [done|]. split.
      { right. exists (Js.trim raw). split; [done|]. split; [|apply trim_idem].
        intros Hempty. by rewrite Hempty in Hblank. }
      split; [done|]. split; [done|].
      split; [by intros raw' _ [= <-]; rewrite Hblank|]. cbn.
      rewrite ?Hnow, lookup_insert_eq. by rewrite lookup_insert_eq. }
  split; [|exact Hmiss].
  destruct (get_cases Cache.CONFIG_FILES key w) as (hit & w0 & Hget & _).
  destruct (not_null hit) eqn:Hnn.
  - unfold ConfigReader.readVersionFile. fold key.
    unfold Cache.cached, bind at 1. rewrite Hget, Hnn. by eexists _, _.
  - destruct hit; try done.
    destruct (Hmiss w0 Hget) as (v & w' & Hrun & _). by exists v, w'.
Qed.

(** X29 on a pin file with white space around its version, and on one
    that holds a line feed only. *)
Lemma readVersionFile_result_witness :
  fst (ConfigReader.readNvmrc "/proj"
         (with_files [("/proj/.nvmrc", "  v18.17.0 " +:+ String "010" "")] bare_world))
  = inr (VStr "v18.17.0")
  /\ fst (ConfigReader.readVersionFile "/proj/.nvmrc" ".nvmrc"
            (with_files [("/proj/.nvmrc", String "010" "")] bare_world))
     = inr VNull.
Proof.
  split; [reflexivity|].
  destruct (readVersionFile_result "/proj/.nvmrc" ".nvmrc"
              (with_files [("/proj/.nvmrc", String "010" "")] bare_world)) as [_ Hmiss].
  destruct (Hmiss (with_files [("/proj/.nvmrc", String "010" "")] bare_world))
    as (v & w' & Hrun & _ & _ & _ & Hread & _); [reflexivity|].
  rewrite Hrun. cbn [fst]. f_equal.
  apply (Hread (String "010" "")); reflexivity.
Defined.
